(** * node-xmlrpc: the XML-RPC codec (serializer, deserializer, date formatter)

    A shallow embedding of [serializer.mts], [deserializer.mts],
    [date_formatter.mts] and [customtype.mts], and the properties of the
    codec stated over it.

    Conventions.  A JavaScript string is a sequence of code units; the
    embedding uses Rocq's [string], so it covers code units below 256.
    The value stack and the marks of the deserializer keep the source's
    orientation: [push] appends at the end of the list.  The frame stack
    of the serializer is kept with its top first.  What the code takes
    from the runtime (time zone, clock, the Date constructor, the printing
    of dates and buffers) is a parameter, the class [Host]. *)

From Stdlib Require Import ZArith Ascii String List Bool Lia.
From stdpp Require Import base list strings gmap fin_maps.
Import ListNotations.
Local Open Scope Z_scope.
#[local] Set Warnings "-register-all".

(* ===================================================================== *)
(** * Characters and strings of the host language *)
(* ===================================================================== *)

Module Chr.

Definition code (c : ascii) : N := N_of_ascii c.

Definition eqb (a b : ascii) : bool := Ascii.eqb a b.

(** [\d], i.e. [[0-9]]. *)
Definition is_digit (c : ascii) : bool :=
  ((48 <=? code c) && (code c <=? 57))%N.

(** Numeric value of a decimal digit. *)
Definition digit_value (c : ascii) : Z := Z.of_N (code c) - 48.

(** White space and line terminators skipped by [parseInt] and
    [parseFloat] (the code units below 256 of StrWhiteSpaceChar:
    TAB, LF, VT, FF, CR, SP, NBSP). *)
Definition is_space (c : ascii) : bool :=
  let n := code c in
  ((9 <=? n) && (n <=? 13) || (n =? 32) || (n =? 160))%N.

(** ASCII upper-casing, as the tokenizer applies to tag names. *)
Definition upper (c : ascii) : ascii :=
  let n := code c in
  if ((97 <=? n) && (n <=? 122))%N then ascii_of_N (n - 32) else c.

Definition of_digit (d : Z) : ascii := ascii_of_N (Z.to_N (48 + d)).

End Chr.

Module Str.

Fixpoint all (p : ascii -> bool) (s : string) : bool :=
  match s with
  | EmptyString => true
  | String c s' => p c && all p s'
  end.

Fixpoint map (f : ascii -> ascii) (s : string) : string :=
  match s with
  | EmptyString => EmptyString
  | String c s' => String (f c) (map f s')
  end.

Definition toUpperCase (s : string) : string := map Chr.upper s.

(** [Array.prototype.join] on strings. *)
Fixpoint join (sep : string) (l : list string) : string :=
  match l with
  | [] => ""
  | [x] => x
  | x :: rest => x +:+ sep +:+ join sep rest
  end.

(** [s] occurs in [t] at position 0. *)
Fixpoint starts_with (s t : string) : bool :=
  match s, t with
  | EmptyString, _ => true
  | String a s', String b t' => Chr.eqb b a && starts_with s' t'
  | String _ _, EmptyString => false
  end.

(** [s] occurs somewhere in [t]. *)
Fixpoint includes (s t : string) : bool :=
  starts_with s t ||
  match t with
  | EmptyString => false
  | String _ t' => includes s t'
  end.

Definition is_empty (s : string) : bool :=
  match s with EmptyString => true | _ => false end.

End Str.

(* ===================================================================== *)
(** * Regular expressions

    The three patterns of the sources are kept as syntax and run by a
    backtracking matcher with the host engine's rules: greedy quantifiers,
    alternatives tried left to right, numbered capture groups, a match
    searched from the leftmost start position. *)
(* ===================================================================== *)

Module Regex.

Inductive t : Type :=
| Eps                                   (* empty pattern *)
| Lit (c : ascii)                       (* a literal character *)
| Cls (p : ascii -> bool)               (* one character of a class *)
| Star (p : ascii -> bool)              (* class*, greedy *)
| Plus (p : ascii -> bool)              (* class+, greedy *)
| Seq (r1 r2 : t)
| Alt (r1 r2 : t)
| Opt (r : t)                           (* r?, greedy *)
| Group (n : nat) (r : t)               (* capture group number n *)
| NotAhead (r : t)                      (* (?!r) *)
| Bol                                   (* ^ without the m flag *)
| Eol.                                  (* $ without the m flag *)

(** Captures: the most recent binding of a group comes first. *)
Definition Caps := list (nat * string).

Fixpoint cap (c : Caps) (n : nat) : option string :=
  match c with
  | [] => None
  | (m, s) :: c' => if Nat.eqb m n then Some s else cap c' n
  end.

Section Matcher.
Variable input : string.

(** Greedy class repetition: the longest run first, then shorter ones. *)
Fixpoint star (p : ascii -> bool) (s : string)
         (k : string -> option Caps) : option Caps :=
  match s with
  | String ch s' =>
      if p ch then
        match star p s' k with
        | Some r => Some r
        | None => k s
        end
      else k s
  | EmptyString => k s
  end.

Fixpoint run (r : t) (s : string) (c : Caps)
         (k : string -> Caps -> option Caps) {struct r} : option Caps :=
  match r with
  | Eps => k s c
  | Lit a =>
      match s with
      | String ch s' => if Chr.eqb ch a then k s' c else None
      | EmptyString => None
      end
  | Cls p =>
      match s with
      | String ch s' => if p ch then k s' c else None
      | EmptyString => None
      end
  | Star p => star p s (fun s' => k s' c)
  | Plus p =>
      match s with
      | String ch s' => if p ch then star p s' (fun s'' => k s'' c) else None
      | EmptyString => None
      end
  | Seq r1 r2 => run r1 s c (fun s' c' => run r2 s' c' k)
  | Alt r1 r2 =>
      match run r1 s c k with
      | Some res => Some res
      | None => run r2 s c k
      end
  | Opt r1 =>
      (* an iteration that consumes nothing is rejected *)
      match run r1 s c (fun s' c' =>
              if Nat.eqb (String.length s') (String.length s) then None
              else k s' c') with
      | Some res => Some res
      | None => k s c
      end
  | Group n r1 =>
      run r1 s c (fun s' c' =>
        k s' ((n, String.substring 0 (String.length s - String.length s') s) :: c'))
  | NotAhead r1 =>
      match run r1 s c (fun _ c' => Some c') with
      | Some _ => None
      | None => k s c
      end
  | Bol => if Nat.eqb (String.length s) (String.length input) then k s c else None
  | Eol => match s with EmptyString => k s c | _ => None end
  end.

(** A match starting exactly at the suffix [s] of the input. *)
Definition match_at (r : t) (s : string) : option Caps :=
  run r s [] (fun _ c => Some c).

(** The leftmost match at or after the suffix [s]. *)
Fixpoint search (r : t) (s : string) : option Caps :=
  match match_at r s with
  | Some c => Some c
  | None =>
      match s with
      | String _ s' => search r s'
      | EmptyString => None
      end
  end.
End Matcher.

(** [String.prototype.match] with a non-global pattern. *)
Definition exec (r : t) (s : string) : option Caps := search s r s.

(** [RegExp.prototype.test]. *)
Definition test (r : t) (s : string) : bool :=
  match exec r s with Some _ => true | None => false end.

(** [r{n}]. *)
Fixpoint times (n : nat) (r : t) : t :=
  match n with
  | O => Eps
  | S O => r
  | S n' => Seq r (times n' r)
  end.

(** A sequence of patterns. *)
Fixpoint seq (l : list t) : t :=
  match l with
  | [] => Eps
  | [r] => r
  | r :: l' => Seq r (seq l')
  end.

End Regex.

(* ===================================================================== *)
(** * Numbers of the host language

    A number is modelled by the exact decimal value it is written with:
    [Fin m e] is [m / 10^e], kept normalised ([e = 0], or [m] is not a
    multiple of ten).  Rounding to binary64 and overflow are outside the
    model. *)
(* ===================================================================== *)

Module Num.

Inductive t : Type :=
| Fin (m : Z) (e : nat)
| NaN
| Inf (neg : bool).

Definition of_Z (z : Z) : t := Fin z 0.

(** [value % 1 === 0]. *)
Definition is_integral (x : t) : bool :=
  match x with
  | Fin _ O => true
  | _ => false
  end.

(** [Number.isNaN]. *)
Definition isNaN (x : t) : bool :=
  match x with NaN => true | _ => false end.

(** [m * 10^e] for any integer exponent, normalised. *)
Fixpoint strip (k : nat) (m : Z) : t :=
  match k with
  | O => Fin m 0
  | S k' => if m mod 10 =? 0 then strip k' (m / 10) else Fin m k
  end.

Definition scaled (m e : Z) : t :=
  if 0 <=? e then Fin (m * 10 ^ e) 0 else strip (Z.to_nat (- e)) m.

(** ** Reading decimal text *)

Fixpoint trim_start (s : string) : string :=
  match s with
  | String c s' => if Chr.is_space c then trim_start s' else s
  | EmptyString => EmptyString
  end.

(** The longest prefix of decimal digits. *)
Fixpoint digit_prefix (s : string) : string :=
  match s with
  | String c s' => if Chr.is_digit c then String c (digit_prefix s') else ""
  | EmptyString => ""
  end.

Fixpoint digits_value_from (acc : Z) (s : string) : Z :=
  match s with
  | String c s' => digits_value_from (10 * acc + Chr.digit_value c) s'
  | EmptyString => acc
  end.

Definition digits_value (s : string) : Z := digits_value_from 0 s.

Fixpoint drop (n : nat) (s : string) : string :=
  match n, s with
  | S n', String _ s' => drop n' s'
  | _, _ => s
  end.

(** An optional sign: the flag is [true] for a minus. *)
Definition take_sign (s : string) : bool * string :=
  match s with
  | String "-" r => (true, r)
  | String "+" r => (false, r)
  | _ => (false, s)
  end.

Definition signed (neg : bool) (v : Z) : Z := if neg then - v else v.

(** [parseInt(s, 10)]: leading white space is skipped, an optional sign
    is read, then the longest run of decimal digits; whatever follows is
    ignored.  No digit at all gives [NaN]. *)
Definition parseInt (s : string) : t :=
  let '(neg, body) := take_sign (trim_start s) in
  let ds := digit_prefix body in
  if Str.is_empty ds then NaN else Fin (signed neg (digits_value ds)) 0.

(** [parseFloat(s)]: the longest prefix that is a decimal literal. *)
Definition parseFloat (s : string) : t :=
  let '(neg, body) := take_sign (trim_start s) in
  if Str.starts_with "Infinity" body then Inf neg else
  let ip := digit_prefix body in
  let r1 := drop (String.length ip) body in
  let '(fp, r2) :=
    match r1 with
    | String "." r =>
        let f := digit_prefix r in (f, drop (String.length f) r)
    | _ => ("", r1)
    end in
  if Str.is_empty ip && Str.is_empty fp then NaN else
  let ex :=
    match r2 with
    | String c r =>
        if Chr.eqb c "e" || Chr.eqb c "E" then
          let '(eneg, r') := take_sign r in
          let ed := digit_prefix r' in
          if Str.is_empty ed then 0 else signed eneg (digits_value ed)
        else 0
    | EmptyString => 0
    end in
  scaled (signed neg (digits_value (ip +:+ fp)))
         (ex - Z.of_nat (String.length fp)).

(** ** Printing *)

Fixpoint digits_fuel (fuel : nat) (n : Z) (acc : string) : string :=
  match fuel with
  | O => acc
  | S f =>
      let acc' := String (Chr.of_digit (n mod 10)) acc in
      if n <? 10 then acc' else digits_fuel f (n / 10) acc'
  end.

(** Decimal digits of a non-negative integer. *)
Definition digits (n : Z) : string :=
  digits_fuel (S (Z.to_nat (Z.log2 n))) n "".

Fixpoint zeros (n : nat) : string :=
  match n with O => "" | S n' => String "0" (zeros n') end.

Fixpoint rev_from (acc s : string) : string :=
  match s with
  | String c s' => rev_from (String c acc) s'
  | EmptyString => acc
  end.

Fixpoint drop_zeros (s : string) : string :=
  match s with
  | String "0" s' => drop_zeros s'
  | _ => s
  end.

Definition strip_trailing_zeros (s : string) : string :=
  rev_from "" (drop_zeros (rev_from "" s)).

Definition take (n : nat) (s : string) : string := String.substring 0 n s.

(** Number::toString for a positive value with digits [ds] and [e]
    decimals. *)
Definition positive_toString (ds : string) (e : nat) : string :=
  let s := strip_trailing_zeros ds in
  let k := Z.of_nat (String.length s) in
  let n := Z.of_nat (String.length ds) - Z.of_nat e in
  if (k <=? n) && (n <=? 21) then s +:+ zeros (Z.to_nat (n - k))
  else if (0 <? n) && (n <=? 21) then
    take (Z.to_nat n) s +:+ "." +:+ drop (Z.to_nat n) s
  else if (-6 <? n) && (n <=? 0) then "0." +:+ zeros (Z.to_nat (- n)) +:+ s
  else
    let x := n - 1 in
    let xs := (if x <? 0 then "-" else "+") +:+ digits (Z.abs x) in
    if k =? 1 then s +:+ "e" +:+ xs
    else take 1 s +:+ "." +:+ drop 1 s +:+ "e" +:+ xs.

(** [String(x)] and ["" + x] for a number. *)
Definition toString (x : t) : string :=
  match x with
  | NaN => "NaN"
  | Inf false => "Infinity"
  | Inf true => "-Infinity"
  | Fin m e =>
      if m =? 0 then "0"
      else if m <? 0 then "-" +:+ positive_toString (digits (- m)) e
      else positive_toString (digits m) e
  end.

(** Truthiness of a number. *)
Definition truthy (x : t) : bool :=
  match x with
  | NaN => false
  | Fin m _ => negb (m =? 0)
  | Inf _ => true
  end.

End Num.

(* ===================================================================== *)
(** * Byte buffers and base64 *)
(* ===================================================================== *)

Module Base64.

Definition alphabet : string :=
  "ABCDEFGHIJKLMNOPQRSTUVWXYZabcdefghijklmnopqrstuvwxyz0123456789+/".

Definition enc (v : N) : ascii :=
  match String.get (N.to_nat v) alphabet with
  | Some c => c
  | None => "="%char
  end.

Definition byte_of (n : N) : Byte.byte :=
  match Byte.of_N (n mod 256) with
  | Some b => b
  | None => Byte.x00
  end.

(** [buffer.toString("base64")]: the standard alphabet, padded. *)
Fixpoint encode (bs : list Byte.byte) : string :=
  match bs with
  | [] => ""
  | [a] =>
      let x := Byte.to_N a in
      String (enc (N.shiftr x 2))
        (String (enc (N.shiftl (N.land x 3) 4)) "==")
  | [a; b] =>
      let x := Byte.to_N a in
      let y := Byte.to_N b in
      String (enc (N.shiftr x 2))
        (String (enc (N.lor (N.shiftl (N.land x 3) 4) (N.shiftr y 4)))
           (String (enc (N.shiftl (N.land y 15) 2)) "="))
  | a :: b :: c :: rest =>
      let x := Byte.to_N a in
      let y := Byte.to_N b in
      let z := Byte.to_N c in
      String (enc (N.shiftr x 2))
        (String (enc (N.lor (N.shiftl (N.land x 3) 4) (N.shiftr y 4)))
           (String (enc (N.lor (N.shiftl (N.land y 15) 2) (N.shiftr z 6)))
              (String (enc (N.land z 63)) (encode rest))))
  end.

(** The value of a base64 character; the URL-safe [-] and [_] are
    accepted as well. *)
Definition unbase64 (c : ascii) : option N :=
  let n := Chr.code c in
  (if (65 <=? n) && (n <=? 90) then Some (n - 65)
   else if (97 <=? n) && (n <=? 122) then Some (n - 71)
   else if (48 <=? n) && (n <=? 57) then Some (n + 4)
   else if (n =? 43) || (n =? 45) then Some 62
   else if (n =? 47) || (n =? 95) then Some 63
   else None)%N.

(** The legal characters up to the first [=]; every other character is
    skipped. *)
Fixpoint sextets (s : string) : list N :=
  match s with
  | EmptyString => []
  | String c s' =>
      if Chr.eqb c "=" then []
      else match unbase64 c with
           | Some v => v :: sextets s'
           | None => sextets s'
           end
  end.

Fixpoint pack (l : list N) : list Byte.byte :=
  match l with
  | a :: b :: c :: d :: rest =>
      byte_of (N.lor (N.shiftl a 2) (N.shiftr b 4))
      :: byte_of (N.lor (N.shiftl (N.land b 15) 4) (N.shiftr c 2))
      :: byte_of (N.lor (N.shiftl (N.land c 3) 6) d)
      :: pack rest
  | [a; b; c] =>
      [byte_of (N.lor (N.shiftl a 2) (N.shiftr b 4));
       byte_of (N.lor (N.shiftl (N.land b 15) 4) (N.shiftr c 2))]
  | [a; b] => [byte_of (N.lor (N.shiftl a 2) (N.shiftr b 4))]
  | _ => []
  end.

(** [Buffer.from(s, "base64")]: a total, forgiving decoder. *)
Definition decode (s : string) : list Byte.byte := pack (sextets s).

End Base64.

(* ===================================================================== *)
(** * Calendar arithmetic of the host's Date *)
(* ===================================================================== *)

Module Cal.

Definition msPerDay : Z := 86400000.

(** Year, month (1..12) and day of the month of a day number counted
    from 1970-01-01. *)
Definition civil_from_days (z0 : Z) : Z * Z * Z :=
  let z := z0 + 719468 in
  let era := z / 146097 in
  let doe := z - era * 146097 in
  let yoe := (doe - doe / 1460 + doe / 36524 - doe / 146096) / 365 in
  let y := yoe + era * 400 in
  let doy := doe - (365 * yoe + yoe / 4 - yoe / 100) in
  let mp := (5 * doy + 2) / 153 in
  let d := doy - (153 * mp + 2) / 5 + 1 in
  let m := if mp <? 10 then mp + 3 else mp - 9 in
  (if m <=? 2 then y + 1 else y, m, d).

Definition days_from_civil (y0 m d : Z) : Z :=
  let y := if m <=? 2 then y0 - 1 else y0 in
  let era := y / 400 in
  let yoe := y - era * 400 in
  let doy := (153 * (if 2 <? m then m - 3 else m + 9) + 2) / 5 + d - 1 in
  let doe := yoe * 365 + yoe / 4 - yoe / 100 + doy in
  era * 146097 + doe - 719468.

(** The seven calendar fields of a time value (milliseconds since the
    epoch): year, month (1..12), day, hours, minutes, seconds,
    milliseconds. *)
Definition fields (t : Z) : list Z :=
  let '(y, m, d) := civil_from_days (t / msPerDay) in
  let r := t mod msPerDay in
  [y; m; d; r / 3600000; (r / 60000) mod 60; (r / 1000) mod 60; r mod 1000].

Definition time_value (y m d hh mm ss ms : Z) : Z :=
  days_from_civil y m d * msPerDay
  + hh * 3600000 + mm * 60000 + ss * 1000 + ms.

End Cal.

(* ===================================================================== *)
(** * The host environment

    What the codec takes from the JavaScript runtime and the machine it
    runs on.  A Date is its time value in milliseconds, [None] being the
    invalid date. *)
(* ===================================================================== *)

Definition JSDate := option Z.

Class Host := {
  (** [new Date(t).getTimezoneOffset()], in minutes, positive west of UTC *)
  timezoneOffset : Z -> Z;
  (** the time value of [new Date()] when a datetime is decoded *)
  now : Z;
  (** [new Date(text)] *)
  Date_parse : string -> JSDate;
  (** [String(date)] *)
  Date_toString : JSDate -> string;
  (** [String(buffer)], the UTF-8 reading of the bytes *)
  Buffer_toString : list Byte.byte -> string
}.

(* ===================================================================== *)
(** * Values

    The union [XMLRPCValue] of the sources, with the two further kinds of
    value the codec meets: [undefined] (an unpaired struct key, an
    unsupported parameter) and instances of [CustomType]. *)
(* ===================================================================== *)

Inductive Value : Type :=
| VUndefined
| VNull
| VBool (b : bool)
| VNumber (n : Num.t)
| VString (s : string)
| VDate (d : JSDate)
| VBuffer (bytes : list Byte.byte)
| VCustom (tagName raw : string)
| VArray (items : list Value)
| VObject (props : list (string * Value)).

(** ** Plain objects

    An object is the list of its own properties in creation order.
    Property names are treated uniformly: the accessor [__proto__] that
    plain objects inherit is outside the model. *)

Module Obj.

Definition t := list (string * Value).

Fixpoint get (o : t) (k : string) : option Value :=
  match o with
  | [] => None
  | (k', v) :: o' => if String.eqb k' k then Some v else get o' k
  end.

(** [o[k] = v]: an existing property keeps its place, a new one is
    added last. *)
Fixpoint set (o : t) (k : string) (v : Value) : t :=
  match o with
  | [] => [(k, v)]
  | (k', v') :: o' =>
      if String.eqb k' k then (k', v) :: o' else (k', v') :: set o' k v
  end.

(** A property name that is an array index (a canonical numeral below
    2^32 - 1). *)
Definition array_index (k : string) : option Z :=
  match k with
  | EmptyString => None
  | String c rest =>
      if Str.all Chr.is_digit k
         && (negb (Chr.eqb c "0") || Str.is_empty rest)
         && (Num.digits_value k <? 4294967295)
      then Some (Num.digits_value k) else None
  end.

Fixpoint insert_index (i : Z) (k : string) (l : list (Z * string))
  : list (Z * string) :=
  match l with
  | [] => [(i, k)]
  | (j, k') :: l' =>
      if i <? j then (i, k) :: l else (j, k') :: insert_index i k l'
  end.

Fixpoint index_keys (o : t) : list (Z * string) :=
  match o with
  | [] => []
  | (k, _) :: o' =>
      match array_index k with
      | Some i => insert_index i k (index_keys o')
      | None => index_keys o'
      end
  end.

Fixpoint name_keys (o : t) : list string :=
  match o with
  | [] => []
  | (k, _) :: o' =>
      match array_index k with
      | Some _ => name_keys o'
      | None => k :: name_keys o'
      end
  end.

(** [Object.keys(o)]: index-like names in ascending order, then the
    other names in creation order. *)
Definition keys (o : t) : list string :=
  List.map snd (index_keys o) ++ name_keys o.

(** The object as a finite map. *)
Definition to_map (o : t) : gmap string Value := list_to_map o.

End Obj.

Section HostValues.
Context `{Host}.

(** [String(v)], also the coercion of string concatenation. *)
Fixpoint ToString (v : Value) : string :=
  match v with
  | VUndefined => "undefined"
  | VNull => "null"
  | VBool b => if b then "true" else "false"
  | VNumber n => Num.toString n
  | VString s => s
  | VDate d => Date_toString d
  | VBuffer bytes => Buffer_toString bytes
  | VCustom _ _ => "[object Object]"
  | VArray items =>
      Str.join ","
        (List.map (fun x => match x with
                            | VUndefined | VNull => ""
                            | _ => ToString x
                            end) items)
  | VObject _ => "[object Object]"
  end.

(** Truthiness. *)
Definition truthy (v : Value) : bool :=
  match v with
  | VUndefined | VNull => false
  | VBool b => b
  | VNumber n => Num.truthy n
  | VString s => negb (Str.is_empty s)
  | _ => true
  end.

(** [v?.name] for a name that only plain objects can carry. *)
Definition member (v : Value) (name : string) : Value :=
  match v with
  | VObject o => match Obj.get o name with Some x => x | None => VUndefined end
  | _ => VUndefined
  end.

End HostValues.

(* ===================================================================== *)
(** * date_formatter.mts *)
(* ===================================================================== *)

Module DateFormatter.

Record DateFormatterOptions := {
  colons : bool;
  hyphens : bool;
  local : bool;
  ms : bool;
  offset : bool
}.

Definition DEFAULT_OPTIONS : DateFormatterOptions :=
  {| colons := true; hyphens := false; local := true;
     ms := false; offset := false |}.

Definition is_sign (c : ascii) : bool := Chr.eqb c "+" || Chr.eqb c "-".

(** The pattern [ISO8601], group by group:
<<
([0-9]{4})([-]?([0-9]{2}))([-]?([0-9]{2}))
(T([0-9]{2})(((:?([0-9]{2}))?((:?([0-9]{2}))?(\.([0-9]+))?))?)
(Z|([+-]([0-9]{2}(:?([0-9]{2}))?)))?)?
>> *)
Definition ISO8601 : Regex.t :=
  let d := Regex.Cls Chr.is_digit in
  let d2 := Regex.times 2 d in
  let sep c r := Regex.Seq (Regex.Opt (Regex.Lit c)) r in
  Regex.seq [
    Regex.Group 1 (Regex.times 4 d);
    Regex.Group 2 (sep "-"%char (Regex.Group 3 d2));
    Regex.Group 4 (sep "-"%char (Regex.Group 5 d2));
    Regex.Opt (Regex.Group 6 (Regex.seq [
      Regex.Lit "T";
      Regex.Group 7 d2;
      Regex.Group 8 (Regex.Opt (Regex.Group 9 (Regex.Seq
        (Regex.Opt (Regex.Group 10 (sep ":"%char (Regex.Group 11 d2))))
        (Regex.Group 12 (Regex.Seq
          (Regex.Opt (Regex.Group 13 (sep ":"%char (Regex.Group 14 d2))))
          (Regex.Opt (Regex.Group 15
            (Regex.Seq (Regex.Lit ".")
                       (Regex.Group 16 (Regex.Plus Chr.is_digit))))))))));
      Regex.Opt (Regex.Group 17 (Regex.Alt
        (Regex.Lit "Z")
        (Regex.Group 18 (Regex.Seq (Regex.Cls is_sign)
          (Regex.Group 19 (Regex.Seq d2
            (Regex.Opt (Regex.Group 20 (sep ":"%char (Regex.Group 21 d2)))))))))) ])) ].

(** [a || b] on an optional capture. *)
Definition or_default (a : option string) (b : string) : string :=
  match a with
  | Some s => if Str.is_empty s then b else s
  | None => b
  end.

Definition is_undefined (a : option string) : bool :=
  match a with Some _ => false | None => true end.

(** An element of an array being joined: [undefined] prints as nothing. *)
Definition joined (a : option string) : string :=
  match a with Some s => s | None => "" end.

(** [zeroPad(digit, length)]: the loop prepends one ["0"] per missing
    character. *)
Fixpoint pad_loop (missing : nat) (padded : string) : string :=
  match missing with
  | O => padded
  | S k => pad_loop k ("0" +:+ padded)
  end.

Definition zeroPad (digit : Num.t) (length : nat) : string :=
  let padded := "" +:+ Num.toString digit in
  pad_loop (length - String.length padded) padded.

Definition number_of (x : option Z) : Num.t :=
  match x with
  | Some z => Num.of_Z z
  | None => Num.NaN
  end.

Section WithHost.
Context `{Host}.

(** [date.getTimezoneOffset()]; [None] is NaN, for the invalid date. *)
Definition getTimezoneOffset (date : JSDate) : option Z :=
  match date with
  | Some t => Some (timezoneOffset t)
  | None => None
  end.

(** [formatCurrentOffset(d)]; without an argument the offset of the
    current time is taken. *)
Definition formatCurrentOffset (d : option JSDate) : string :=
  let date := match d with Some x => x | None => Some now end in
  match getTimezoneOffset date with
  | Some offset =>
      if offset =? 0 then "Z"
      else
        let sign := if offset <? 0 then "+" else "-" in
        let hh := zeroPad (Num.of_Z (Z.abs (offset / 60))) 2 in
        let mm := zeroPad (Num.of_Z (Z.abs (Z.rem offset 60))) 2 in
        sign +:+ hh +:+ ":" +:+ mm
  | None => "-" +:+ zeroPad Num.NaN 2 +:+ ":" +:+ zeroPad Num.NaN 2
  end.

(** The text handed to the Date constructor by [decodeIso8601]. *)
Definition isoText (dateParts : Regex.Caps) : string :=
  let g := Regex.cap dateParts in
  Str.join "" [
    Str.join "-" [joined (g 1%nat); or_default (g 3%nat) "01";
                  or_default (g 5%nat) "01"];
    "T";
    Str.join ":" [or_default (g 7%nat) "00"; or_default (g 11%nat) "00";
                  or_default (g 14%nat) "00"];
    ".";
    or_default (g 16%nat) "000" ]
  +:+
  match g 17%nat with
  | Some z =>
      z +:+ (if negb (Str.is_empty (joined (g 19%nat)))
                && is_undefined (g 20%nat)
             then "00" else "")
  | None => formatCurrentOffset (Some (Some now))
  end.

(** [decodeIso8601(time)]: [inr] carries the message of the error
    thrown for a text the pattern does not match. *)
Definition decodeIso8601 (time : string) : JSDate + string :=
  match Regex.exec ISO8601 time with
  | None => inr ("Expected a ISO8601 datetime but got '" +:+ time +:+ "'")
  | Some dateParts => inl (Date_parse (isoText dateParts))
  end.

(** The calendar fields of a date, as the getters return them. *)
Definition getters (shift : Z) (date : JSDate) : list (option Z) :=
  match date with
  | Some t => List.map Some (Cal.fields (t - shift))
  | None => List.repeat None 7
  end.

Definition part (l : list (option Z)) (i : nat) : option Z :=
  List.nth i l None.

Definition padded_parts (f : list (option Z)) : list string :=
  [ Num.toString (number_of (part f 0));
    zeroPad (number_of (part f 1)) 2;
    zeroPad (number_of (part f 2)) 2;
    zeroPad (number_of (part f 3)) 2;
    zeroPad (number_of (part f 4)) 2;
    zeroPad (number_of (part f 5)) 2;
    zeroPad (number_of (part f 6)) 3 ].

Definition getUTCDateParts (date : JSDate) : list string :=
  padded_parts (getters 0 date).

Definition getLocalDateParts (date : JSDate) : list string :=
  padded_parts
    (getters (match date with
              | Some t => timezoneOffset t * 60000
              | None => 0
              end) date).

Definition encodeIso8601 (opts : DateFormatterOptions) (date : JSDate)
  : string :=
  let parts := if local opts then getLocalDateParts date
               else getUTCDateParts date in
  let p i := List.nth i parts "" in
  Str.join "" [
    Str.join (if hyphens opts then "-" else "") [p 0%nat; p 1%nat; p 2%nat];
    "T";
    Str.join (if colons opts then ":" else "") [p 3%nat; p 4%nat; p 5%nat];
    (if ms opts then "." +:+ p 6%nat else "");
    (if local opts
     then (if offset opts then formatCurrentOffset (Some date) else "")
     else "Z") ].

End WithHost.

End DateFormatter.

(** A host pinned to UTC, with the strict reading of the date-time
    format [YYYY-MM-DDTHH:mm:ss.s+] followed by [Z] or a signed offset,
    and buffers holding ASCII text. *)
Module UTC.

Definition FORMAT : Regex.t :=
  let d := Regex.Cls Chr.is_digit in
  let d2 := Regex.times 2 d in
  Regex.seq [
    Regex.Bol;
    Regex.Group 1 (Regex.times 4 d); Regex.Lit "-";
    Regex.Group 2 d2; Regex.Lit "-";
    Regex.Group 3 d2; Regex.Lit "T";
    Regex.Group 4 d2; Regex.Lit ":";
    Regex.Group 5 d2; Regex.Lit ":";
    Regex.Group 6 d2; Regex.Lit ".";
    Regex.Group 7 (Regex.Plus Chr.is_digit);
    Regex.Alt (Regex.Lit "Z")
      (Regex.seq [Regex.Group 8 (Regex.Cls DateFormatter.is_sign);
                  Regex.Group 9 d2; Regex.Opt (Regex.Lit ":");
                  Regex.Group 10 d2]);
    Regex.Eol ].

Definition field (c : Regex.Caps) (n : nat) : Z :=
  match Regex.cap c n with
  | Some s => Num.digits_value s
  | None => 0
  end.

Definition days_in_month (y m : Z) : Z :=
  Cal.days_from_civil (if m =? 12 then y + 1 else y)
                      (if m =? 12 then 1 else m + 1) 1
  - Cal.days_from_civil y m 1.

Definition parse (text : string) : JSDate :=
  match Regex.exec FORMAT text with
  | None => None
  | Some c =>
      let y := field c 1 in
      let m := field c 2 in
      let d := field c 3 in
      let hh := field c 4 in
      let mm := field c 5 in
      let ss := field c 6 in
      let frac :=
        Num.digits_value
          (Num.take 3 (DateFormatter.joined (Regex.cap c 7) +:+ "00")) in
      let off :=
        (if DateFormatter.joined (Regex.cap c 8) =? "-" then -1 else 1)%string
        * (field c 9 * 60 + field c 10) in
      if (1 <=? m) && (m <=? 12) && (1 <=? d) && (d <=? days_in_month y m)
         && (hh <=? 23) && (mm <=? 59) && (ss <=? 59)
         && (field c 9 <=? 23) && (field c 10 <=? 59)
      then Some (Cal.time_value y m d hh mm ss frac - off * 60000)
      else None
  end.

Definition day_names : list string :=
  ["Sun"; "Mon"; "Tue"; "Wed"; "Thu"; "Fri"; "Sat"].

Definition month_names : list string :=
  ["Jan"; "Feb"; "Mar"; "Apr"; "May"; "Jun";
   "Jul"; "Aug"; "Sep"; "Oct"; "Nov"; "Dec"].

Definition toString (date : JSDate) : string :=
  match date with
  | None => "Invalid Date"
  | Some t =>
      let f i := List.nth i (Cal.fields t) 0 in
      let pad n z := DateFormatter.zeroPad (Num.of_Z z) n in
      List.nth (Z.to_nat ((t / Cal.msPerDay + 4) mod 7)) day_names ""
      +:+ " " +:+ List.nth (Z.to_nat (f 1%nat - 1)) month_names ""
      +:+ " " +:+ pad 2%nat (f 2%nat) +:+ " " +:+ pad 4%nat (f 0%nat)
      +:+ " " +:+ pad 2%nat (f 3%nat) +:+ ":" +:+ pad 2%nat (f 4%nat)
      +:+ ":" +:+ pad 2%nat (f 5%nat)
      +:+ " GMT+0000 (Coordinated Universal Time)"
  end.

#[export] Instance host : Host := {|
  timezoneOffset := fun _ => 0;
  now := 0;
  Date_parse := parse;
  Date_toString := toString;
  Buffer_toString := fun bytes =>
    string_of_list_ascii
      (List.map (fun b => ascii_of_N (Byte.to_N b)) bytes)
|}.

End UTC.

(* ===================================================================== *)
(** * The XML document writer

    The builder the serializer writes into: a tree that only grows, and
    node handles.  A handle is the path of child positions from the
    root, which stays valid because children are only ever appended. *)
(* ===================================================================== *)

Module Xml.

Inductive node : Type :=
| Element (name : string) (children : list node)
| Text (value : string)
| CData (value : string).

Definition handle := list nat.

(** The two methods for literal sections, which the serializer probes
    for before it uses them.  ([text] is probed for as well, but it is
    [txt] under another name.) *)
Record Builder := {
  has_d : bool;
  has_cdata : bool
}.

(** The builder declared in [types/xmlbuilder.d.ts]. *)
Definition xmlbuilder : Builder :=
  {| has_d := true; has_cdata := true |}.

Definition children_of (n : node) : list node :=
  match n with
  | Element _ cs => cs
  | _ => []
  end.

Fixpoint at_handle (h : handle) (n : node) : option node :=
  match h with
  | [] => Some n
  | i :: h' =>
      match List.nth_error (children_of n) i with
      | Some c => at_handle h' c
      | None => None
      end
  end.

Fixpoint update_nth (i : nat) (f : node -> node) (l : list node) : list node :=
  match l, i with
  | [], _ => []
  | x :: l', O => f x :: l'
  | x :: l', S i' => x :: update_nth i' f l'
  end.

Fixpoint update_at (h : handle) (f : node -> node) (n : node) : node :=
  match h with
  | [] => f n
  | i :: h' =>
      match n with
      | Element name cs => Element name (update_nth i (update_at h' f) cs)
      | _ => n
      end
  end.

Definition append_child (c : node) (n : node) : node :=
  match n with
  | Element name cs => Element name (cs ++ [c])
  | _ => n
  end.

Definition child_count (doc : node) (h : handle) : nat :=
  match at_handle h doc with
  | Some n => List.length (children_of n)
  | None => O
  end.

(** [create(name, options)]: a document with its root element. *)
Definition create (name : string) : node * handle := (Element name [], []).

(** [h.ele(name)]: a new last child; its handle is returned. *)
Definition ele (name : string) (doc : node) (h : handle) : node * handle :=
  (update_at h (append_child (Element name [])) doc,
   h ++ [child_count doc h]).

(** [h.txt(value)] and [h.text(value)]: a new text child; the node
    itself is returned. *)
Definition txt (value : string) (doc : node) (h : handle) : node * handle :=
  (update_at h (append_child (Text value)) doc, h).

(** [h.cdata(value)] and its alias [h.d(value)]. *)
Definition cdata (value : string) (doc : node) (h : handle) : node * handle :=
  (update_at h (append_child (CData value)) doc, h).

(** [h.up()]. *)
Definition up (h : handle) : handle := List.removelast h.

End Xml.

(* ===================================================================== *)
(** * customtype.mts *)
(* ===================================================================== *)

Module CustomType.

(** [serialize(xml)]: [xml.ele(this.tagName).txt(this.raw)]. *)
Definition serialize (tagName raw : string) (doc : Xml.node) (xml : Xml.handle)
  : Xml.node :=
  let '(doc1, e) := Xml.ele tagName doc xml in
  fst (Xml.txt raw doc1 e).

(** The tag name of the base class. *)
Definition tagName : string := "customType".

End CustomType.

(* ===================================================================== *)
(** * serializer.mts *)
(* ===================================================================== *)

Module Serializer.

Import DateFormatter.

(** A frame of the traversal; [index] and [keys] are set once a
    compound value has been opened. *)
Record Frame := {
  value : Value;
  xml : Xml.handle;
  index : option nat;
  keys : option (list string)
}.

Definition new_frame (v : Value) (x : Xml.handle) : Frame :=
  {| value := v; xml := x; index := None; keys := None |}.

(** [[^<&]]. *)
Definition plain_char (c : ascii) : bool :=
  negb (Chr.eqb c "<" || Chr.eqb c "&").

(** The pattern [illegalChars]: anchored at both ends, a run of
    characters other than [<] and [&], under a negative lookahead for
    such a run followed by []]>] (and a further run). *)
Definition illegalChars : Regex.t :=
  Regex.seq [
    Regex.Bol;
    Regex.NotAhead (Regex.seq [Regex.Star plain_char;
                               Regex.Lit "]"; Regex.Lit "]"; Regex.Lit ">";
                               Regex.Star plain_char]);
    Regex.Star plain_char;
    Regex.Eol ].

Definition appendBoolean (v : bool) (doc : Xml.node) (xml : Xml.handle)
  : Xml.node :=
  let '(doc1, e) := Xml.ele "boolean" doc xml in
  fst (Xml.txt (Num.toString (Num.of_Z (if v then 1 else 0))) doc1 e).

Definition appendNumber (v : Num.t) (doc : Xml.node) (xml : Xml.handle)
  : Xml.node :=
  if Num.is_integral v then
    let '(doc1, e) := Xml.ele "int" doc xml in
    fst (Xml.txt (Num.toString v) doc1 e)
  else
    let '(doc1, e) := Xml.ele "double" doc xml in
    fst (Xml.txt (Num.toString v) doc1 e).

Definition appendBuffer (v : list Byte.byte) (doc : Xml.node)
           (xml : Xml.handle) : Xml.node :=
  let '(doc1, e) := Xml.ele "base64" doc xml in
  fst (Xml.txt (Base64.encode v) doc1 e).

Section WithBuilder.
Context `{Host}.
Variable builder : Xml.Builder.
(** The options of the shared formatter when the value is written. *)
Variable opts : DateFormatterOptions.

Definition appendString (v : string) (doc : Xml.node) (xml : Xml.handle)
  : Xml.node :=
  if Nat.eqb (String.length v) 0 then fst (Xml.ele "string" doc xml)
  else if negb (Regex.test illegalChars v) then
    let '(doc1, str) := Xml.ele "string" doc xml in
    if Xml.has_d builder then fst (Xml.cdata v doc1 str)
    else if Xml.has_cdata builder then fst (Xml.cdata v doc1 str)
    else fst (Xml.txt v doc1 str)
  else
    let '(doc1, str) := Xml.ele "string" doc xml in
    fst (Xml.txt v doc1 str).

Definition appendDatetime (v : JSDate) (doc : Xml.node) (xml : Xml.handle)
  : Xml.node :=
  let '(doc1, e) := Xml.ele "dateTime.iso8601" doc xml in
  fst (Xml.txt (encodeIso8601 opts v) doc1 e).

(** [frame.value[key]] and [frame.value[i]]. *)
Definition property (v : Value) (key : string) : Value :=
  match v with
  | VObject o => match Obj.get o key with Some x => x | None => VUndefined end
  | _ => VUndefined
  end.

Definition element (v : Value) (i : nat) : Value :=
  match v with
  | VArray items => List.nth i items VUndefined
  | _ => VUndefined
  end.

Definition value_length (v : Value) : nat :=
  match v with
  | VArray items => List.length items
  | _ => O
  end.

(** [getNextItemsFrame(frame)]: the document and the frame after the
    call, and the frame of the next item if there is one.  For a
    struct the name element is created under a new member element,
    the key is written into it, and the name element is the cursor
    of the next frame. *)
Definition getNextItemsFrame (doc : Xml.node) (frame : Frame)
  : Xml.node * Frame * option Frame :=
  let i := match index frame with Some n => n | None => O end in
  match keys frame with
  | Some ks =>
      if Nat.ltb i (List.length ks) then
        let key := List.nth i ks "" in
        let frame' := {| value := value frame; xml := xml frame;
                         index := Some (S i); keys := keys frame |} in
        let '(doc1, m) := Xml.ele "member" doc (xml frame) in
        let '(doc2, member) := Xml.ele "name" doc1 m in
        let '(doc3, _) := Xml.txt key doc2 member in
        (doc3, frame',
         Some (new_frame (property (value frame) key) member))
      else (doc, frame, None)
  | None =>
      if Nat.ltb i (value_length (value frame)) then
        (doc,
         {| value := value frame; xml := xml frame;
            index := Some (S i); keys := keys frame |},
         Some (new_frame (element (value frame) i) (xml frame)))
      else (doc, frame, None)
  end.

(** The frame stack is kept with its top first. *)
Definition advance (doc : Xml.node) (current : Frame) (below : list Frame)
  : Xml.node * list Frame :=
  let '(doc1, current', next) := getNextItemsFrame doc current in
  match next with
  | Some n => (doc1, n :: current' :: below)
  | None => (doc1, below)
  end.

(** One turn of the loop of [serializeValue]. *)
Definition turn (doc : Xml.node) (current : Frame) (below : list Frame)
  : Xml.node * list Frame :=
  match index current with
  | Some _ => advance doc current below
  | None =>
      let '(doc1, valueNode) := Xml.ele "value" doc (xml current) in
      match value current with
      | VBool b => (appendBoolean b doc1 valueNode, below)
      | VString s => (appendString s doc1 valueNode, below)
      | VNumber n => (appendNumber n doc1 valueNode, below)
      | VNull => (fst (Xml.ele "nil" doc1 valueNode), below)
      | VDate d => (appendDatetime d doc1 valueNode, below)
      | VBuffer bytes => (appendBuffer bytes doc1 valueNode, below)
      | VCustom tag raw =>
          (CustomType.serialize tag raw doc1 valueNode, below)
      | VArray _ =>
          let '(doc2, a) := Xml.ele "array" doc1 valueNode in
          let '(doc3, data) := Xml.ele "data" doc2 a in
          advance doc3
            {| value := value current; xml := data;
               index := Some O; keys := keys current |} below
      | VObject o =>
          let '(doc2, s) := Xml.ele "struct" doc1 valueNode in
          advance doc2
            {| value := value current; xml := s;
               index := Some O; keys := Some (Obj.keys o) |} below
      | VUndefined => (doc1, below)
      end
  end.

Fixpoint loop (fuel : nat) (doc : Xml.node) (stack : list Frame)
  : option Xml.node :=
  match stack with
  | [] => Some doc
  | current :: below =>
      match fuel with
      | O => None
      | S fuel' =>
          let '(doc', stack') := turn doc current below in
          loop fuel' doc' stack'
      end
  end.

(** The number of turns the loop takes on a value: one to write the
    value or open the compound, and, for a compound, one after each item
    besides the turns of the item itself. *)
Fixpoint cost_of (costs : list (string * nat)) (key : string) : nat :=
  match costs with
  | [] => 1%nat
  | (k, n) :: rest => if String.eqb k key then n else cost_of rest key
  end.

Fixpoint turns (v : Value) : nat :=
  match v with
  | VArray items =>
      S (List.fold_right (fun x n => S (turns x + n)) O items)
  | VObject o =>
      let costs := List.map (fun kv => (fst kv, turns (snd kv))) o in
      S (List.fold_right (fun key n => S (cost_of costs key + n)) O
           (Obj.keys o))
  | _ => 1%nat
  end.

(** [serializeValue(value, xml)]: the loop, run for the turns the value
    takes. *)
Definition serializeValue (v : Value) (doc : Xml.node) (xml : Xml.handle)
  : option Xml.node :=
  loop (turns v) doc [new_frame v xml].

Fixpoint serializeParams (params : list Value) (doc : Xml.node)
         (xml : Xml.handle) : option Xml.node :=
  match params with
  | [] => Some doc
  | param :: rest =>
      let '(doc1, p) := Xml.ele "param" doc xml in
      match serializeValue param doc1 p with
      | Some doc2 => serializeParams rest doc2 xml
      | None => None
      end
  end.

(** [serializeMethodCall(method, params)]: the document, before it is
    printed. *)
Definition serializeMethodCall (method : string) (params : list Value)
  : option Xml.node :=
  let '(doc0, root) := Xml.create "methodCall" in
  let '(doc1, name) := Xml.ele "methodName" doc0 root in
  let '(doc2, name') := Xml.txt method doc1 name in
  let '(doc3, xml) := Xml.ele "params" doc2 (Xml.up name') in
  serializeParams params doc3 xml.

Definition serializeMethodResponse (result : Value) : option Xml.node :=
  let '(doc0, root) := Xml.create "methodResponse" in
  let '(doc1, ps) := Xml.ele "params" doc0 root in
  let '(doc2, xml) := Xml.ele "param" doc1 ps in
  serializeValue result doc2 xml.

Definition serializeFault (fault : Value) : option Xml.node :=
  let '(doc0, root) := Xml.create "methodResponse" in
  let '(doc1, xml) := Xml.ele "fault" doc0 root in
  serializeValue fault doc1 xml.

End WithBuilder.

End Serializer.

(* ===================================================================== *)
(** * deserializer.mts *)
(* ===================================================================== *)

Module Deserializer.

(** An [Error] object: its message and, for a fault, the two members
    copied from the fault value. *)
Inductive JSError : Type :=
| Err (message : string)
| Fault (message : string) (faultCode faultString : Value).

(** What an [error] event or a [catch] clause may carry. *)
Inductive Raised : Type :=
| RString (msg : string)
| RError (e : JSError)
| ROther.

Inductive EnvelopeType := methodresponse | methodcall.
Inductive ResponseType := params | fault.

(** Which of the two entry points installed [this.callback]. *)
Inductive Callback := ResponseCallback | CallCallback.

(** What the caller's callback receives. *)
Inductive Outcome : Type :=
| Failure (e : JSError)
| Response (result : Value)
| Call (methodName : string) (parameters : list Value).

(** The fields of a [Deserializer], and the calls made so far to the
    caller's callback, oldest first. *)
Record State := {
  type : option EnvelopeType;
  responseType : option ResponseType;
  stack : list Value;
  marks : list nat;
  data : list string;
  methodname : option string;
  value : bool;
  callback : option Callback;
  error : option JSError;
  delivered : list Outcome
}.

(** The state the constructor leaves. *)
Definition init : State :=
  {| type := None; responseType := None; stack := []; marks := [];
     data := []; methodname := None; value := false; callback := None;
     error := None; delivered := [] |}.

Definition set_type (x : option EnvelopeType) (st : State) : State :=
  {| type := x; responseType := responseType st; stack := stack st;
     marks := marks st; data := data st; methodname := methodname st;
     value := value st; callback := callback st; error := error st;
     delivered := delivered st |}.

Definition set_responseType (x : option ResponseType) (st : State) : State :=
  {| type := type st; responseType := x; stack := stack st;
     marks := marks st; data := data st; methodname := methodname st;
     value := value st; callback := callback st; error := error st;
     delivered := delivered st |}.

Definition set_stack (x : list Value) (st : State) : State :=
  {| type := type st; responseType := responseType st; stack := x;
     marks := marks st; data := data st; methodname := methodname st;
     value := value st; callback := callback st; error := error st;
     delivered := delivered st |}.

Definition set_marks (x : list nat) (st : State) : State :=
  {| type := type st; responseType := responseType st; stack := stack st;
     marks := x; data := data st; methodname := methodname st;
     value := value st; callback := callback st; error := error st;
     delivered := delivered st |}.

Definition set_data (x : list string) (st : State) : State :=
  {| type := type st; responseType := responseType st; stack := stack st;
     marks := marks st; data := x; methodname := methodname st;
     value := value st; callback := callback st; error := error st;
     delivered := delivered st |}.

Definition set_methodname (x : option string) (st : State) : State :=
  {| type := type st; responseType := responseType st; stack := stack st;
     marks := marks st; data := data st; methodname := x;
     value := value st; callback := callback st; error := error st;
     delivered := delivered st |}.

Definition set_value (x : bool) (st : State) : State :=
  {| type := type st; responseType := responseType st; stack := stack st;
     marks := marks st; data := data st; methodname := methodname st;
     value := x; callback := callback st; error := error st;
     delivered := delivered st |}.

Definition set_callback (x : option Callback) (st : State) : State :=
  {| type := type st; responseType := responseType st; stack := stack st;
     marks := marks st; data := data st; methodname := methodname st;
     value := value st; callback := x; error := error st;
     delivered := delivered st |}.

Definition set_error (x : option JSError) (st : State) : State :=
  {| type := type st; responseType := responseType st; stack := stack st;
     marks := marks st; data := data st; methodname := methodname st;
     value := value st; callback := callback st; error := x;
     delivered := delivered st |}.

Definition deliver (o : Outcome) (st : State) : State :=
  {| type := type st; responseType := responseType st; stack := stack st;
     marks := marks st; data := data st; methodname := methodname st;
     value := value st; callback := callback st; error := error st;
     delivered := delivered st ++ [o] |}.

(** A handler either completes or throws. *)
Inductive Completion : Type :=
| Normal (st : State)
| Throw (e : JSError).

(** [this.push(value)]. *)
Definition push (v : Value) (st : State) : State :=
  set_stack (stack st ++ [v]) st.

Section WithHost.
Context `{Host}.

(** The callback installed by [deserializeMethodResponse], applied to
    [(error, result)]; [result] is the value stack. *)
Definition responseCallback (err : option JSError) (result : list Value)
           (st : State) : Outcome :=
  match err with
  | Some e => Failure e
  | None =>
      if Nat.ltb 1 (List.length result)
      then Failure (Err "Response has more than one param")
      else match type st with
           | Some methodresponse =>
               match responseType st with
               | None => Failure (Err "Invalid method response")
               | Some _ => Response (List.nth 0 result VUndefined)
               end
           | _ => Failure (Err "Not a method response")
           end
  end.

(** The callback installed by [deserializeMethodCall]. *)
Definition callCallback (err : option JSError) (result : list Value)
           (st : State) : Outcome :=
  match err with
  | Some e => Failure e
  | None =>
      match type st with
      | Some methodcall =>
          match methodname st with
          | Some name =>
              if Str.is_empty name
              then Failure (Err "Method call did not contain a method name")
              else Call name result
          | None => Failure (Err "Method call did not contain a method name")
          end
      | _ => Failure (Err "Not a method call")
      end
  end.

(** [this.callback?.(error, result)]. *)
Definition invoke (err : option JSError) (result : list Value) (st : State)
  : State :=
  match callback st with
  | None => st
  | Some ResponseCallback => deliver (responseCallback err result st) st
  | Some CallCallback => deliver (callCallback err result st) st
  end.

Definition createFault (f : Value) : JSError :=
  Fault ("XML-RPC fault"
         +:+ (if truthy (member f "faultString")
              then ": " +:+ ToString (member f "faultString") else ""))
        (member f "faultCode") (member f "faultString").

(** [onDone()]. *)
Definition onDone (st : State) : State :=
  match error st with
  | Some _ => st
  | None =>
      if match type st with None => true | Some _ => false end
         || negb (Nat.eqb (List.length (marks st)) 0)
      then invoke (Some (Err "Invalid XML-RPC message")) [] st
      else match responseType st with
           | Some fault =>
               invoke (Some (createFault (List.nth 0 (stack st) VUndefined)))
                      [] st
           | _ => invoke None (stack st) st
           end
  end.

(** [onError(msg)]. *)
Definition onError (msg : Raised) (st : State) : State :=
  match error st with
  | Some _ => st
  | None =>
      let e := match msg with
               | RString s => Err s
               | RError e => e
               | ROther => Err "Unknown error"
               end in
      invoke (Some e) [] (set_error (Some e) st)
  end.

(** ** SAX handlers *)

Definition onOpentag (name : string) (st : State) : State :=
  let st1 :=
    if (name =? "ARRAY")%string || (name =? "STRUCT")%string
    then set_marks (marks st ++ [List.length (stack st)]) st
    else st in
  set_value (name =? "VALUE")%string (set_data [] st1).

Definition onText (text : string) (st : State) : State :=
  set_data (data st ++ [text]) st.

Definition onCDATA (cdata : string) (st : State) : State :=
  set_data (data st ++ [cdata]) st.

(** ** End-* helpers *)

Definition endNil (st : State) : Completion :=
  Normal (set_value false (push VNull st)).

Definition endBoolean (data : string) (st : State) : Completion :=
  if (data =? "1")%string then Normal (set_value false (push (VBool true) st))
  else if (data =? "0")%string
       then Normal (set_value false (push (VBool false) st))
  else Throw (Err ("Illegal boolean value '" +:+ data +:+ "'")).

Definition endInt (data : string) (st : State) : Completion :=
  let v := Num.parseInt data in
  if Num.isNaN v
  then Throw (Err ("Expected an integer but got '" +:+ data +:+ "'"))
  else Normal (set_value false (push (VNumber v) st)).

Definition endDouble (data : string) (st : State) : Completion :=
  let v := Num.parseFloat data in
  if Num.isNaN v
  then Throw (Err ("Expected a double but got '" +:+ data +:+ "'"))
  else Normal (set_value false (push (VNumber v) st)).

Definition endString (data : string) (st : State) : Completion :=
  Normal (set_value false (push (VString data) st)).

(** [this.marks.pop()]: the last mark and the marks below it. *)
Definition pop_mark (st : State) : option (nat * State) :=
  match List.rev (marks st) with
  | [] => None
  | mark :: below => Some (mark, set_marks (List.rev below) st)
  end.

Definition endArray (st : State) : Completion :=
  match pop_mark st with
  | None => Throw (Err "Array mark stack underflow")
  | Some (mark, st1) =>
      let arr := List.skipn mark (stack st1) in
      let st2 := set_stack (List.firstn mark (stack st1)) st1 in
      Normal (set_value false (push (VArray arr) st2))
  end.

(** The loop of [endStruct]: two entries per turn; a key without a
    partner is paired with [undefined]. *)
Fixpoint struct_of (items : list Value) (struct : Obj.t) : Obj.t :=
  match items with
  | [] => struct
  | [k] => Obj.set struct (ToString k) VUndefined
  | k :: v :: rest => struct_of rest (Obj.set struct (ToString k) v)
  end.

Definition endStruct (st : State) : Completion :=
  match pop_mark st with
  | None => Throw (Err "Struct mark stack underflow")
  | Some (mark, st1) =>
      let items := List.skipn mark (stack st1) in
      let struct := struct_of items [] in
      let st2 := set_stack (List.firstn mark (stack st1)) st1 in
      Normal (set_value false (push (VObject struct) st2))
  end.

Definition endBase64 (data : string) (st : State) : Completion :=
  let buffer := Base64.decode data in
  Normal (set_value false (push (VBuffer buffer) st)).

Definition endDateTime (data : string) (st : State) : Completion :=
  match DateFormatter.decodeIso8601 data with
  | inr msg => Throw (Err msg)
  | inl date => Normal (set_value false (push (VDate date) st))
  end.

(** The pattern [isInteger], [/^-?\d+$/]. *)
Definition isInteger : Regex.t :=
  Regex.seq [Regex.Bol; Regex.Opt (Regex.Lit "-");
             Regex.Plus Chr.is_digit; Regex.Eol].

Definition endI8 (data : string) (st : State) : Completion :=
  if negb (Regex.test isInteger data)
  then Throw (Err ("Expected integer (I8) value but got '" +:+ data +:+ "'"))
  else endString data st.

Definition endValue (data : string) (st : State) : Completion :=
  if value st then endString data st else Normal st.

Definition endParams (st : State) : Completion :=
  Normal (set_responseType (Some params) st).

Definition endFault (st : State) : Completion :=
  Normal (set_responseType (Some fault) st).

Definition endMethodResponse (st : State) : Completion :=
  Normal (set_type (Some methodresponse) st).

Definition endMethodName (data : string) (st : State) : Completion :=
  Normal (set_methodname (Some data) st).

Definition endMethodCall (st : State) : Completion :=
  Normal (set_type (Some methodcall) st).

(** The [switch] of [onClosetag]. *)
Definition dispatch (el : string) (data : string) (st : State)
  : Completion :=
  (if el =? "BOOLEAN" then endBoolean data st
   else if (el =? "INT") || (el =? "I4") then endInt data st
   else if el =? "I8" then endI8 data st
   else if el =? "DOUBLE" then endDouble data st
   else if (el =? "STRING") || (el =? "NAME") then endString data st
   else if el =? "ARRAY" then endArray st
   else if el =? "STRUCT" then endStruct st
   else if el =? "BASE64" then endBase64 data st
   else if el =? "DATETIME.ISO8601" then endDateTime data st
   else if el =? "VALUE" then endValue data st
   else if el =? "PARAMS" then endParams st
   else if el =? "FAULT" then endFault st
   else if el =? "METHODRESPONSE" then endMethodResponse st
   else if el =? "METHODNAME" then endMethodName data st
   else if el =? "METHODCALL" then endMethodCall st
   else if el =? "NIL" then endNil st
   else if (el =? "DATA") || (el =? "PARAM") || (el =? "MEMBER")
        then Normal st
   else Normal st)%string.

Definition onClosetag (el : string) (st : State) : State :=
  let data := Str.join "" (data st) in
  match dispatch el data st with
  | Normal st' => st'
  | Throw e => onError (RError e) st
  end.

(** ** Events of the tokenizer and of the stream *)

Inductive Event : Type :=
| Opentag (name : string)
| Closetag (name : string)
| Text (chunk : string)
| Cdata (chunk : string)
| End
| Error (msg : Raised).

Definition handle (st : State) (ev : Event) : State :=
  match ev with
  | Opentag name => onOpentag name st
  | Closetag name => onClosetag name st
  | Text chunk => onText chunk st
  | Cdata chunk => onCDATA chunk st
  | End => onDone st
  | Error msg => onError msg st
  end.

Definition feed (st : State) (evs : list Event) : State :=
  List.fold_left handle evs st.

(** [deserializeMethodResponse(stream, callback)] and
    [deserializeMethodCall(stream, callback)] on a fresh instance:
    the callback is installed, then the events of the stream arrive. *)
Definition deserializeMethodResponse (evs : list Event) : State :=
  feed (set_callback (Some ResponseCallback) init) evs.

Definition deserializeMethodCall (evs : list Event) : State :=
  feed (set_callback (Some CallCallback) init) evs.

End WithHost.

End Deserializer.

(* ===================================================================== *)
(** * The tokenizer

    The deserializer is fed by an external tokenizer reading the text
    the document writer prints.  Its contract: the events of the document
    in order, tag names in upper case, text and literal sections with
    their content as written, no event for an empty text, and [End] once
    the document is over. *)
(* ===================================================================== *)

Module Sax.

Import Deserializer.

Fixpoint events (n : Xml.node) : list Event :=
  match n with
  | Xml.Element name children =>
      Opentag (Str.toUpperCase name)
      :: List.flat_map events children ++ [Closetag (Str.toUpperCase name)]
  | Xml.Text v => if Str.is_empty v then [] else [Text v]
  | Xml.CData v => [Cdata v]
  end.

Definition document (doc : Xml.node) : list Event := events doc ++ [End].

End Sax.

(** Encoding a response and decoding what was written: the calls made to
    the caller's callback. *)
Definition response_round_trip `{Host} (builder : Xml.Builder)
           (opts : DateFormatter.DateFormatterOptions) (v : Value)
  : option (list Deserializer.Outcome) :=
  match Serializer.serializeMethodResponse builder opts v with
  | Some doc =>
      Some (Deserializer.delivered
              (Deserializer.deserializeMethodResponse (Sax.document doc)))
  | None => None
  end.

(* ===================================================================== *)
(** * Vocabulary of the properties *)
(* ===================================================================== *)

(** A run of characters other than [<] and [&], then the terminator of a
    literal section. *)
Fixpoint terminator_ahead (s : string) : bool :=
  Str.starts_with "]]>" s ||
  match s with
  | EmptyString => false
  | String ch s' => Serializer.plain_char ch && terminator_ahead s'
  end.

(** An optional minus, then one digit or more, and nothing else. *)
Definition integer_shaped (t : string) : bool :=
  match t with
  | String "-" ds => negb (Str.is_empty ds) && Str.all Chr.is_digit ds
  | _ => negb (Str.is_empty t) && Str.all Chr.is_digit t
  end.

(** A base-10 signed integer: an optional sign, then digits, and nothing
    else. *)
Definition signed_decimal (t : string) : bool :=
  let body := snd (Num.take_sign t) in
  negb (Str.is_empty body) && Str.all Chr.is_digit body.

(** The segment of a struct read as key/value pairs: even positions are
    the keys, odd positions their values; a last key without a value is
    paired with [undefined]. *)
Fixpoint pairs (items : list Value) : list (Value * Value) :=
  match items with
  | [] => []
  | [k] => [(k, VUndefined)]
  | k :: v :: rest => (k, v) :: pairs rest
  end.

(** The mapping in which a later pair overwrites an earlier one with the
    same key. *)
Definition last_wins `{Host} (ps : list (Value * Value)) (m : gmap string Value)
  : gmap string Value :=
  List.fold_left (fun acc kv => <[ToString (fst kv) := snd kv]> acc) ps m.

(** An outcome that is an error, not a decoded result. *)
Definition is_failure (o : Deserializer.Outcome) : Prop :=
  exists e, o = Deserializer.Failure e.

(** The condition under which [end()] finds the message invalid: no
    envelope type recorded, or an array or struct still open. *)
Definition unfinished (st : Deserializer.State) : Prop :=
  Deserializer.type st = None \/ Deserializer.marks st <> [].

(** The typed elements that hold text. *)
Definition scalar_elements : list string :=
  ["BOOLEAN"; "INT"; "I4"; "I8"; "DOUBLE"; "STRING"; "NAME"; "BASE64";
   "DATETIME.ISO8601"; "NIL"].

(** Closing the element completes whatever text was buffered. *)
Definition never_malformed `{Host} (tag : string) : Prop :=
  forall (t : string) (st : Deserializer.State),
    exists st', Deserializer.dispatch tag t st = Deserializer.Normal st'.

(** What the tag and text handlers leave alone: the installed callback,
    the recorded error and the outcomes delivered. *)
Definition same_outcomes (st st' : Deserializer.State) : Prop :=
  Deserializer.callback st' = Deserializer.callback st
  /\ Deserializer.error st' = Deserializer.error st
  /\ Deserializer.delivered st' = Deserializer.delivered st.

(** The error an [error] event or a [catch] records. *)
Definition raised (msg : Deserializer.Raised) : Deserializer.JSError :=
  match msg with
  | Deserializer.RString s => Deserializer.Err s
  | Deserializer.RError e => e
  | Deserializer.ROther => Deserializer.Err "Unknown error"
  end.

(** The two phases of a parse with its callback installed: nothing
    delivered yet, or one error delivered and recorded. *)
Definition pending (cb : Deserializer.Callback) (st : Deserializer.State)
  : Prop :=
  Deserializer.callback st = Some cb
  /\ Deserializer.error st = None
  /\ Deserializer.delivered st = [].

Definition failed (cb : Deserializer.Callback) (e : Deserializer.JSError)
           (st : Deserializer.State) : Prop :=
  Deserializer.callback st = Some cb
  /\ Deserializer.error st = Some e
  /\ Deserializer.delivered st = [Deserializer.Failure e].

Definition is_End (ev : Deserializer.Event) : bool :=
  match ev with Deserializer.End => true | _ => false end.

(** The event that raises the bare-value flag. *)
Definition opens_value (ev : Deserializer.Event) : bool :=
  match ev with
  | Deserializer.Opentag name => (name =? "VALUE")%string
  | _ => false
  end.

(** A frame on top of the stack is worked off in the turns of its value,
    whatever lies below it. *)
Definition worked_off `{Host} (builder : Xml.Builder)
           (opts : DateFormatter.DateFormatterOptions) (v : Value) : Prop :=
  forall (doc : Xml.node) (xml : Xml.handle) (below : list Serializer.Frame)
         (extra : nat),
    exists doc',
      Serializer.loop builder opts (Serializer.turns v + extra) doc
                      (Serializer.new_frame v xml :: below)
      = Serializer.loop builder opts extra doc' below.

(** A machine five hours and a half ahead of UTC: [getTimezoneOffset()]
    is -330 there. *)
Module Kolkata.

#[export] Instance host : Host := {|
  timezoneOffset := fun _ => -330;
  now := 0;
  Date_parse := UTC.parse;
  Date_toString := fun _ => "";
  Buffer_toString := Buffer_toString (Host := UTC.host)
|}.

End Kolkata.

Section ValueInduction.

Variable P : Value -> Prop.
Hypothesis P_undefined : P VUndefined.
Hypothesis P_null : P VNull.
Hypothesis P_bool : forall b, P (VBool b).
Hypothesis P_number : forall n, P (VNumber n).
Hypothesis P_string : forall s, P (VString s).
Hypothesis P_date : forall d, P (VDate d).
Hypothesis P_buffer : forall bytes, P (VBuffer bytes).
Hypothesis P_custom : forall tag raw, P (VCustom tag raw).
Hypothesis P_array : forall items, List.Forall P items -> P (VArray items).
Hypothesis P_object :
  forall o, List.Forall (fun kv => P (snd kv)) o -> P (VObject o).

(** Induction on values, with the hypothesis for every item of an array
    and every member of an object. *)
Fixpoint Value_nested_ind (v : Value) : P v :=
  match v with
  | VUndefined => P_undefined
  | VNull => P_null
  | VBool b => P_bool b
  | VNumber n => P_number n
  | VString s => P_string s
  | VDate d => P_date d
  | VBuffer bytes => P_buffer bytes
  | VCustom tag raw => P_custom tag raw
  | VArray items =>
      P_array items
        ((fix go (l : list Value) : List.Forall P l :=
            match l with
            | [] => @List.Forall_nil _ P
            | x :: l' => @List.Forall_cons _ P x l' (Value_nested_ind x) (go l')
            end) items)
  | VObject o =>
      P_object o
        ((fix go (l : list (string * Value))
            : List.Forall (fun kv => P (snd kv)) l :=
            match l with
            | [] => @List.Forall_nil _ (fun kv => P (snd kv))
            | kv :: l' =>
                @List.Forall_cons _ (fun kv => P (snd kv)) kv l'
                  (Value_nested_ind (snd kv)) (go l')
            end) o)
  end.

End ValueInduction.

(* ===================================================================== *)
(** * The document of a value, by recursion on the value *)
(* ===================================================================== *)

Module Document.

(** A node with one more last child. *)
Definition graft (h : Xml.handle) (child : Xml.node) (doc : Xml.node)
  : Xml.node :=
  Xml.update_at h (Xml.append_child child) doc.

Fixpoint node_of (nodes : list (string * Xml.node)) (key : string)
  : Xml.node :=
  match nodes with
  | [] => Xml.Element "value" []
  | (k, n) :: rest => if String.eqb k key then n else node_of rest key
  end.

Section WithBuilder.
Context `{Host}.
Variable builder : Xml.Builder.
Variable opts : DateFormatter.DateFormatterOptions.

(** What a [string] element holds. *)
Definition string_children (s : string) : list Xml.node :=
  if Str.is_empty s then []
  else if Regex.test Serializer.illegalChars s then [Xml.Text s]
  else if Xml.has_d builder || Xml.has_cdata builder then [Xml.CData s]
  else [Xml.Text s].

(** The [value] element of a value.  The value of a struct member stands
    inside the [name] element of the member, after the key. *)
Fixpoint value_node (v : Value) : Xml.node :=
  Xml.Element "value"
    match v with
    | VUndefined => []
    | VNull => [Xml.Element "nil" []]
    | VBool b =>
        [Xml.Element "boolean"
           [Xml.Text (Num.toString (Num.of_Z (if b then 1 else 0)))]]
    | VNumber n =>
        [Xml.Element (if Num.is_integral n then "int" else "double")
           [Xml.Text (Num.toString n)]]
    | VString s => [Xml.Element "string" (string_children s)]
    | VDate d =>
        [Xml.Element "dateTime.iso8601"
           [Xml.Text (DateFormatter.encodeIso8601 opts d)]]
    | VBuffer bytes => [Xml.Element "base64" [Xml.Text (Base64.encode bytes)]]
    | VCustom tag raw => [Xml.Element tag [Xml.Text raw]]
    | VArray items =>
        [Xml.Element "array"
           [Xml.Element "data" (List.map value_node items)]]
    | VObject o =>
        let nodes := List.map (fun kv => (fst kv, value_node (snd kv))) o in
        [Xml.Element "struct"
           (List.map
              (fun key =>
                 Xml.Element "member"
                   [Xml.Element "name" [Xml.Text key; node_of nodes key]])
              (Obj.keys o))]
    end.

End WithBuilder.

End Document.

(** The member of a struct, as it is written, and a [value] element
    holding a struct. *)
Definition member_node (key : string) (child : Xml.node) : Xml.node :=
  Xml.Element "member" [Xml.Element "name" [Xml.Text key; child]].

Definition struct_value (ms : list Xml.node) : Xml.node :=
  Xml.Element "value" [Xml.Element "struct" ms].

(** The frame of a value on top of the stack is worked off in the turns
    of the value and leaves the document with the value grafted at the
    frame's cursor. *)
Definition written `{Host} (builder : Xml.Builder)
           (opts : DateFormatter.DateFormatterOptions) (v : Value) : Prop :=
  forall (doc : Xml.node) (h : Xml.handle) (nm : string)
         (cs : list Xml.node) (below : list Serializer.Frame) (extra : nat),
    Xml.at_handle h doc = Some (Xml.Element nm cs) ->
    Serializer.loop builder opts (Serializer.turns v + extra) doc
                    (Serializer.new_frame v h :: below)
    = Serializer.loop builder opts extra
        (Document.graft h (Document.value_node builder opts v) doc) below.

(** The documents of the three envelopes. *)
Definition param_node `{Host} (builder : Xml.Builder)
           (opts : DateFormatter.DateFormatterOptions) (v : Value)
  : Xml.node :=
  Xml.Element "param" [Document.value_node builder opts v].

Definition call_document (method : string) (ps : list Xml.node) : Xml.node :=
  Xml.Element "methodCall"
    [Xml.Element "methodName" [Xml.Text method]; Xml.Element "params" ps].

Definition response_document (value : Xml.node) : Xml.node :=
  Xml.Element "methodResponse"
    [Xml.Element "params" [Xml.Element "param" [value]]].

Definition fault_document (value : Xml.node) : Xml.node :=
  Xml.Element "methodResponse" [Xml.Element "fault" [value]].

(** Every byte, in order. *)
Definition all_bytes : list Byte.byte :=
  List.map (fun n => Base64.byte_of (N.of_nat n)) (List.seq 0 256).

(** The four sextets of three bytes, as [Base64.encode] forms them. *)
Definition sextet1 (a : Byte.byte) : N := N.shiftr (Byte.to_N a) 2.

Definition sextet2 (a b : Byte.byte) : N :=
  N.lor (N.shiftl (N.land (Byte.to_N a) 3) 4) (N.shiftr (Byte.to_N b) 4).

Definition sextet3 (b c : Byte.byte) : N :=
  N.lor (N.shiftl (N.land (Byte.to_N b) 15) 2) (N.shiftr (Byte.to_N c) 6).

Definition sextet4 (c : Byte.byte) : N := N.land (Byte.to_N c) 63.

(** A sextet is written as a character that reads back as that sextet. *)
Definition reads_back (v : N) : bool :=
  negb (Chr.eqb (Base64.enc v) "=")
  && match Base64.unbase64 (Base64.enc v) with
     | Some w => N.eqb w v
     | None => false
     end.

(** The values that come back unchanged: nil, booleans, integers of at
    most 21 digits, strings, buffers, and arrays of such values. *)
Fixpoint comes_back (v : Value) : bool :=
  match v with
  | VNull | VBool _ | VString _ | VBuffer _ => true
  | VNumber (Num.Fin z O) => Z.abs z <? 10 ^ 21
  | VArray items => List.forallb comes_back items
  | _ => false
  end.

(** The deserializer after it has decoded the values [vs] on top of the
    stack of [st]: the buffer holds [d], the bare-value flag is down,
    everything else is as in [st]. *)
Definition decoded (vs : list Value) (d : list string)
           (st : Deserializer.State) : Deserializer.State :=
  {| Deserializer.type := Deserializer.type st;
     Deserializer.responseType := Deserializer.responseType st;
     Deserializer.stack := Deserializer.stack st ++ vs;
     Deserializer.marks := Deserializer.marks st;
     Deserializer.data := d;
     Deserializer.methodname := Deserializer.methodname st;
     Deserializer.value := false;
     Deserializer.callback := Deserializer.callback st;
     Deserializer.error := Deserializer.error st;
     Deserializer.delivered := Deserializer.delivered st |}.

(** The decimal numeral of an integer. *)
Definition numeral (z : Z) : string :=
  if z <? 0 then String "-" (Num.digits (- z)) else Num.digits z.

(** Encoding a call and decoding what was written. *)
Definition call_round_trip `{Host} (builder : Xml.Builder)
           (opts : DateFormatter.DateFormatterOptions)
           (method : string) (params : list Value)
  : option (list Deserializer.Outcome) :=
  match Serializer.serializeMethodCall builder opts method params with
  | Some doc =>
      Some (Deserializer.delivered
              (Deserializer.deserializeMethodCall (Sax.document doc)))
  | None => None
  end.

(** The text of a run of text and CDATA events, concatenated; nothing
    when another event is among them. *)
Fixpoint chunks_text (evs : list Deserializer.Event) : option string :=
  match evs with
  | [] => Some ""
  | Deserializer.Text t :: rest | Deserializer.Cdata t :: rest =>
      match chunks_text rest with
      | Some u => Some (t +:+ u)
      | None => None
      end
  | _ => None
  end.

(** No name occurs twice. *)
Fixpoint distinct (names : list string) : bool :=
  match names with
  | [] => true
  | k :: rest => negb (List.existsb (String.eqb k) rest) && distinct rest
  end.

(** The document the deserializer reads a value from: as [value_node],
    but every member holds its [name] element and, beside it, the [value]
    element of the member. *)
Fixpoint member_layout `{Host} (builder : Xml.Builder)
         (opts : DateFormatter.DateFormatterOptions) (v : Value) : Xml.node :=
  match v with
  | VArray items =>
      Xml.Element "value"
        [Xml.Element "array"
           [Xml.Element "data" (List.map (member_layout builder opts) items)]]
  | VObject o =>
      Xml.Element "value"
        [Xml.Element "struct"
           (List.map
              (fun kv =>
                 Xml.Element "member"
                   [Xml.Element "name" [Xml.Text (fst kv)];
                    member_layout builder opts (snd kv)])
              o)]
  | _ => Document.value_node builder opts v
  end.

(** The values read back from that document: those of [comes_back], and
    structs of such values whose member names are distinct. *)
Fixpoint read_back (v : Value) : bool :=
  match v with
  | VNull | VBool _ | VString _ | VBuffer _ => true
  | VNumber (Num.Fin z O) => Z.abs z <? 10 ^ 21
  | VArray items => List.forallb read_back items
  | VObject o =>
      distinct (List.map fst o)
      && List.forallb (fun kv => read_back (snd kv)) o
  | _ => false
  end.

(** The stack entries of the members of a struct: each name, then its
    value. *)
Definition entries (o : Obj.t) : list Value :=
  List.flat_map (fun kv => [VString (fst kv); snd kv]) o.

(** What a result handed to the callback presupposes of the events that
    were fed: the closing tags of the envelope and the end of the
    stream. *)
Definition envelope_closed (o : Deserializer.Outcome)
           (evs : list Deserializer.Event) : Prop :=
  match o with
  | Deserializer.Failure _ => True
  | Deserializer.Response _ =>
      In (Deserializer.Closetag "METHODRESPONSE") evs
      /\ In (Deserializer.Closetag "PARAMS") evs
      /\ In Deserializer.End evs
  | Deserializer.Call name _ =>
      In (Deserializer.Closetag "METHODCALL") evs
      /\ In (Deserializer.Closetag "METHODNAME") evs
      /\ In Deserializer.End evs
      /\ name <> ""
  end.

(** What the fields of the instance record of the events seen so far. *)
Definition envelope_seen (seen : list Deserializer.Event)
           (st : Deserializer.State) : Prop :=
  (Deserializer.type st = Some Deserializer.methodresponse ->
   In (Deserializer.Closetag "METHODRESPONSE") seen)
  /\ (Deserializer.type st = Some Deserializer.methodcall ->
      In (Deserializer.Closetag "METHODCALL") seen)
  /\ (Deserializer.responseType st = Some Deserializer.params ->
      In (Deserializer.Closetag "PARAMS") seen)
  /\ (Deserializer.methodname st <> None ->
      In (Deserializer.Closetag "METHODNAME") seen)
  /\ (forall o, In o (Deserializer.delivered st) -> envelope_closed o seen).

(** Encoding a fault and decoding what was written. *)
Definition fault_round_trip `{Host} (builder : Xml.Builder)
           (opts : DateFormatter.DateFormatterOptions) (f : Value)
  : option (list Deserializer.Outcome) :=
  match Serializer.serializeFault builder opts f with
  | Some doc =>
      Some (Deserializer.delivered
              (Deserializer.deserializeMethodResponse (Sax.document doc)))
  | None => None
  end.

(** [p] holds of [count] consecutive integers from [z] on. *)
Fixpoint all_from (count : nat) (z : Z) (p : Z -> bool) : bool :=
  match count with
  | O => true
  | S k => p z && all_from k (z + 1) p
  end.

(** The month and the day of the month that [Cal.civil_from_days]
    computes from the day of the era. *)
Definition month_day_of (doe : Z) : Z * Z :=
  let yoe := (doe - doe / 1460 + doe / 36524 - doe / 146096) / 365 in
  let doy := doe - (365 * yoe + yoe / 4 - yoe / 100) in
  let mp := (5 * doy + 2) / 153 in
  let d := doy - (153 * mp + 2) / 5 + 1 in
  let m := if mp <? 10 then mp + 3 else mp - 9 in
  (m, d).

(** A month from 1 to 12 and a day from 1 to 31. *)
Definition in_calendar (md : Z * Z) : bool :=
  (1 <=? fst md) && (fst md <=? 12) && (1 <=? snd md) && (snd md <=? 31).

(** Texts of exactly two, three and four decimal digits. *)
Definition two_digits (s : string) : bool :=
  match s with
  | String a (String b EmptyString) => Chr.is_digit a && Chr.is_digit b
  | _ => false
  end.

Definition three_digits (s : string) : bool :=
  match s with
  | String a (String b (String c EmptyString)) =>
      Chr.is_digit a && Chr.is_digit b && Chr.is_digit c
  | _ => false
  end.

Definition four_digits (s : string) : bool :=
  match s with
  | String a (String b (String c (String d EmptyString))) =>
      Chr.is_digit a && Chr.is_digit b && Chr.is_digit c && Chr.is_digit d
  | _ => false
  end.

(** A zone designator as [formatCurrentOffset] writes it: [Z], or a sign,
    two digits, a colon and two digits. *)
Definition designator (zone : string) : bool :=
  (zone =? "Z")%string
  || match zone with
     | String sg (String a (String b (String col (String c
         (String d EmptyString))))) =>
         DateFormatter.is_sign sg && Chr.is_digit a && Chr.is_digit b
         && Chr.eqb col ":" && Chr.is_digit c && Chr.is_digit d
     | _ => false
     end.

(** The text [decodeIso8601] hands to the Date constructor for the seven
    parts of a date: fully punctuated, with [000] for milliseconds that
    were not written. *)
Definition wall_clock (parts : list string) (fraction : bool) : string :=
  let p i := List.nth i parts "" in
  Str.join ""
    [Str.join "-" [p 0%nat; p 1%nat; p 2%nat];
     "T";
     Str.join ":" [p 3%nat; p 4%nat; p 5%nat];
     ".";
     (if fraction then p 6%nat else "000")].

(** The seven parts of a date with a four-digit year, as
    [getUTCDateParts] and [getLocalDateParts] pad them. *)
Definition seven_parts (parts : list string) : bool :=
  match parts with
  | [y; m; d; hh; mm; ss; ms] =>
      four_digits y && two_digits m && two_digits d && two_digits hh
      && two_digits mm && two_digits ss && three_digits ms
  | _ => false
  end.

(** The exponent part that [toString] writes. *)
Definition exponent_text (x : Z) : string :=
  "e" +:+ (if x <? 0 then "-" else "+") +:+ Num.digits (Z.abs x).

(* ===================================================================== *)
(** * cookies.mts

    The jar is the object [this.cookies], created as [{}]: its own
    properties, in creation order, and its prototype.  A name is looked
    up among the own properties first and then along the prototype
    chain, which ends in [Object.prototype]; an assignment to the name
    [__proto__] replaces the prototype (by the cookie record) and creates
    no property.  Every [new Date()] takes the next reading of the
    clock. *)
(* ===================================================================== *)

Module Cookies.

(** The third argument of [set]. *)
Record Options := {
  o_secure : option bool;
  o_expires : option JSDate;
  o_new : option bool
}.

(** A cookie record.  [flags] are [secure] and [new], which only the
    record built from an options object has. *)
Record CookieRecord := {
  value : string;
  expires : option JSDate;
  flags : option (bool * bool)
}.

Inductive Prototype : Type :=
| ObjectPrototype
| RecordPrototype (c : CookieRecord).

Record Jar := {
  cookies : list (string * CookieRecord);
  prototype : Prototype;
  reads : nat
}.

(** [new Cookies()]. *)
Definition create : Jar :=
  {| cookies := []; prototype := ObjectPrototype; reads := 0 |}.

(** What [this.cookies[name]] evaluates to. *)
Inductive Property : Type :=
| ARecord (c : CookieRecord)
| AString (s : string)
| ADate (d : JSDate)
| ABoolean (b : bool)
| AFunction
| TheObjectPrototype
| Undefined.

(** What [get] returns: a string, [null], [undefined]; [TypeError] stands
    for the exception of reading a property of [undefined]. *)
Inductive Found : Type :=
| Text (s : string)
| Null
| NoValue
| TypeError.

(** The functions that every object inherits from [Object.prototype]. *)
Definition inherited_functions : list string :=
  ["constructor"; "__defineGetter__"; "__defineSetter__"; "hasOwnProperty";
   "__lookupGetter__"; "__lookupSetter__"; "isPrototypeOf";
   "propertyIsEnumerable"; "toString"; "valueOf"; "toLocaleString"].

Fixpoint own (l : list (string * CookieRecord)) (name : string)
  : option CookieRecord :=
  match l with
  | [] => None
  | (k, c) :: l' => if String.eqb k name then Some c else own l' name
  end.

(** A name that is not an own property of the receiver, looked up in
    [Object.prototype]; [proto] is the prototype of the receiver, which
    the accessor [__proto__] returns. *)
Definition from_Object_prototype (proto : Property) (name : string)
  : Property :=
  if String.eqb name "__proto__" then proto
  else if List.existsb (String.eqb name) inherited_functions then AFunction
  else Undefined.

(** [this.cookies[name]]. *)
Definition lookup (jar : Jar) (name : string) : Property :=
  match own (cookies jar) name with
  | Some c => ARecord c
  | None =>
      match prototype jar with
      | ObjectPrototype => from_Object_prototype TheObjectPrototype name
      | RecordPrototype c =>
          if String.eqb name "value" then AString (value c)
          else if String.eqb name "expires" then
            match expires c with
            | Some d => ADate d
            | None => Undefined
            end
          else if String.eqb name "secure" then
            match flags c with
            | Some (s, _) => ABoolean s
            | None => Undefined
            end
          else if String.eqb name "new" then
            match flags c with
            | Some (_, n) => ABoolean n
            | None => Undefined
            end
          else from_Object_prototype (ARecord c) name
      end
  end.

Definition truthy (p : Property) : bool :=
  match p with
  | AString s => negb (Str.is_empty s)
  | ABoolean b => b
  | Undefined => false
  | _ => true
  end.

(** [c.expires]: only a cookie record has it. *)
Definition expires_of (p : Property) : option JSDate :=
  match p with
  | ARecord c => expires c
  | _ => None
  end.

(** [c.value]. *)
Definition value_of (p : Property) : Found :=
  match p with
  | ARecord c => Text (value c)
  | Undefined => TypeError
  | _ => NoValue
  end.

(** [this.cookies[name] = cookie]: an existing property keeps its place,
    a new one is created last; the name [__proto__] sets the prototype. *)
Fixpoint put (l : list (string * CookieRecord)) (name : string)
         (c : CookieRecord) : list (string * CookieRecord) :=
  match l with
  | [] => [(name, c)]
  | (k, c') :: l' =>
      if String.eqb k name then (k, c) :: l' else (k, c') :: put l' name c
  end.

Definition assign (name : string) (c : CookieRecord) (jar : Jar) : Jar :=
  if String.eqb name "__proto__"
  then {| cookies := cookies jar; prototype := RecordPrototype c;
          reads := reads jar |}
  else {| cookies := put (cookies jar) name c; prototype := prototype jar;
          reads := reads jar |}.

(** [delete this.cookies[name]]. *)
Definition delete (name : string) (jar : Jar) : Jar :=
  {| cookies := List.filter (fun kc => negb (String.eqb (fst kc) name))
                            (cookies jar);
     prototype := prototype jar; reads := reads jar |}.

Definition tick (jar : Jar) : Jar :=
  {| cookies := cookies jar; prototype := prototype jar;
     reads := S (reads jar) |}.

(** A cookie as a property of a plain object, whatever its value. *)
Definition own_property (kc : string * CookieRecord) : string * Value :=
  (fst kc, VUndefined).

(** [Object.keys(this.cookies)]: index-like names in ascending order,
    then the other names in creation order. *)
Definition keys (l : list (string * CookieRecord)) : list string :=
  Obj.keys (List.map own_property l).

(** The names of the jar's own properties. *)
Definition names (jar : Jar) : list string := List.map fst (cookies jar).

(** The own names are distinct and none of them is [__proto__]: the
    shape of every jar that the methods build. *)
Definition well_formed (jar : Jar) : bool :=
  distinct (names jar)
  && negb (List.existsb (String.eqb "__proto__") (names jar)).

(** The [expires] of the record that [set] builds. *)
Definition expiry (options : option Options) : option JSDate :=
  match options with
  | Some o => o_expires o
  | None => None
  end.

Section WithClock.

(** The time value of the [n]-th [new Date()]. *)
Variable clock : nat -> Z.

(** [now > c.expires]: false for an invalid date. *)
Definition past (now : Z) (e : JSDate) : bool :=
  match e with
  | Some t => t <? now
  | None => false
  end.

(** A record with the expiry [e] passes the check at the time [now]. *)
Definition fresh_at (now : Z) (e : option JSDate) : bool :=
  match e with
  | Some d => negb (past now d)
  | None => true
  end.

(** [checkNotExpired(name, cookie?)]. *)
Definition checkNotExpired (name : string) (cookie : option CookieRecord)
           (jar : Jar) : bool * Jar :=
  let c := match cookie with
           | Some c => ARecord c
           | None => lookup jar name
           end in
  if negb (truthy c) then (false, jar)
  else
    let now := clock (reads jar) in
    let jar1 := tick jar in
    match expires_of c with
    | Some e => if past now e then (false, delete name jar1) else (true, jar1)
    | None => (true, jar1)
    end.

(** [get(name)]. *)
Definition get (name : string) (jar : Jar) : Found * Jar :=
  let cookie := lookup jar name in
  if truthy cookie then
    let '(ok, jar1) := checkNotExpired name None jar in
    if ok then (value_of (lookup jar1 name), jar1) else (Null, jar1)
  else (Null, jar).

Definition or_false (b : option bool) : bool :=
  match b with Some x => x | None => false end.

(** The record that [set] builds; without the third argument [options]
    is [None]. *)
Definition record_of (v : string) (options : option Options) : CookieRecord :=
  match options with
  | Some o =>
      {| value := v; expires := o_expires o;
         flags := Some (or_false (o_secure o), or_false (o_new o)) |}
  | None => {| value := v; expires := None; flags := None |}
  end.

(** [set(name, value, options)]. *)
Definition set (name value : string) (options : option Options) (jar : Jar)
  : Jar :=
  let cookie := record_of value options in
  let '(ok, jar1) := checkNotExpired name (Some cookie) jar in
  if ok then assign name cookie jar1 else jar1.

(** [getExpirationDate(name)]; [None] is [null]. *)
Definition getExpirationDate (name : string) (jar : Jar) : option JSDate :=
  if truthy (lookup jar name) then expires_of (lookup jar name) else None.

(** The [filter] of [toString]: the names kept, and the jar after the
    checks. *)
Fixpoint unexpired (names : list string) (jar : Jar) : list string * Jar :=
  match names with
  | [] => ([], jar)
  | n :: rest =>
      let '(ok, jar1) := checkNotExpired n None jar in
      let '(kept, jar2) := unexpired rest jar1 in
      (if ok then n :: kept else kept, jar2)
  end.

(** The template [name=value] of [toString] for each name; [None] when
    reading [value] throws. *)
Fixpoint pair_texts (jar : Jar) (names : list string)
  : option (list string) :=
  match names with
  | [] => Some []
  | n :: rest =>
      match value_of (lookup jar n), pair_texts jar rest with
      | TypeError, _ => None
      | _, None => None
      | Text s, Some l => Some ((n +:+ "=" +:+ s) :: l)
      | Null, Some l => Some ((n +:+ "=null") :: l)
      | NoValue, Some l => Some ((n +:+ "=undefined") :: l)
      end
  end.

(** [toString()]; [None] when it throws. *)
Definition toString (jar : Jar) : option string * Jar :=
  let '(names, jar1) := unexpired (keys (cookies jar)) jar in
  (match names with
   | [] => Some ""
   | _ => option_map (Str.join ";") (pair_texts jar1 names)
   end, jar1).

(** The cookies of a jar as one header text: [name=value] for each own
    name in the order of [Object.keys], joined by semicolons. *)
Definition header_text (jar : Jar) : string :=
  Str.join ";"
    (List.flat_map
       (fun n => match own (cookies jar) n with
                 | Some c => [n +:+ "=" +:+ value c]
                 | None => []
                 end)
       (keys (cookies jar))).

(** [composeRequest(headers)]: what becomes of the header [Cookie]. *)
Inductive Composed : Type :=
| Unchanged
| Cookie (text : string)
| Thrown.

Definition composeRequest (jar : Jar) : Composed * Jar :=
  let '(asString, jar1) := toString jar in
  (match asString with
   | None => Thrown
   | Some text => if Str.is_empty text then Unchanged else Cookie text
   end, jar1).

(** ** Set-Cookie headers *)

(** [s.split(sep)] for a separator of one character. *)
Fixpoint split (sep : ascii) (s : string) : list string :=
  match s with
  | EmptyString => [EmptyString]
  | String c s' =>
      if Chr.eqb c sep then EmptyString :: split sep s'
      else match split sep s' with
           | piece :: rest => String c piece :: rest
           | [] => [String c EmptyString]
           end
  end.

(** The text before and after the first [c]; nothing when [indexOf] is
    negative. *)
Fixpoint cut (c : ascii) (s : string) : option (string * string) :=
  match s with
  | EmptyString => None
  | String a s' =>
      if Chr.eqb a c then Some (EmptyString, s')
      else match cut c s' with
           | Some (before, after) => Some (String a before, after)
           | None => None
           end
  end.

Fixpoint trim_end (s : string) : string :=
  match s with
  | EmptyString => EmptyString
  | String c s' =>
      let t := trim_end s' in
      if Str.is_empty t && Chr.is_space c then EmptyString else String c t
  end.

(** [s.trim()]. *)
Definition trim (s : string) : string := trim_end (Num.trim_start s).

(** Lower-casing of a code unit below 256. *)
Definition lower (c : ascii) : ascii :=
  let n := Chr.code c in
  if ((65 <=? n) && (n <=? 90)
      || (192 <=? n) && (n <=? 222) && negb (n =? 215))%N
  then ascii_of_N (n + 32) else c.

Definition toLowerCase (s : string) : string := Str.map lower s.

(** The character [c] does not occur in [s]. *)
Definition free_of (c : ascii) (s : string) : bool :=
  Str.all (fun a => negb (Chr.eqb a c)) s.

(** The headers' [set-cookie]: absent, one string, or an array. *)
Inductive SetCookie : Type :=
| Absent
| Single (s : string)
| Several (l : list string).

Section WithHost.
Context `{Host}.

(** One attribute of a cookie string: the date of an [expires]
    attribute that the Date constructor reads. *)
Definition expires_attribute (param : string) : option JSDate :=
  let p := trim param in
  if Str.starts_with "expires" (toLowerCase p) then
    match cut "=" p with
    | Some (_, after) =>
        match Date_parse (trim after) with
        | Some t => Some (Some t)
        | None => None
        end
    | None => None
    end
  else None.

(** [options] after the loop over the attributes: the last date read. *)
Definition attributes (parts : list string) : Options :=
  {| o_secure := None;
     o_expires :=
       List.fold_left
         (fun found param =>
            match expires_attribute param with
            | Some d => Some d
            | None => found
            end) parts None;
     o_new := None |}.

(** The body of the loop over the cookie strings. *)
Definition parseOne (c : string) (jar : Jar) : Jar :=
  if Str.is_empty c then jar
  else
    match split ";" c with
    | [] => jar
    | nameValue :: parts =>
        if Str.is_empty nameValue then jar
        else
          let '(name, value) :=
            match cut "=" nameValue with
            | Some (before, after) => (trim before, trim after)
            | None => (trim nameValue, EmptyString)
            end in
          set name value (Some (attributes parts)) jar
    end.

(** [parseResponse(headers)]. *)
Definition parseResponse (h : SetCookie) (jar : Jar) : Jar :=
  match h with
  | Absent => jar
  | Single s => if Str.is_empty s then jar else parseOne s jar
  | Several l => List.fold_left (fun j c => parseOne c j) l jar
  end.

(** A call of one of the public methods. *)
Inductive Operation : Type :=
| DoSet (name value : string) (options : option Options)
| DoGet (name : string)
| DoGetExpirationDate (name : string)
| DoToString
| DoComposeRequest
| DoParseResponse (h : SetCookie).

(** The jar after a call. *)
Definition after (op : Operation) (jar : Jar) : Jar :=
  match op with
  | DoSet name value options => set name value options jar
  | DoGet name => snd (get name jar)
  | DoGetExpirationDate _ => jar
  | DoToString => snd (toString jar)
  | DoComposeRequest => snd (composeRequest jar)
  | DoParseResponse h => parseResponse h jar
  end.

(** The jar after a sequence of calls. *)
Definition run (ops : list Operation) (jar : Jar) : Jar :=
  List.fold_left (fun j op => after op j) ops jar.

End WithHost.

End WithClock.

(** A clock that advances by a second from one reading to the next. *)
Definition every_second (start : Z) (n : nat) : Z :=
  start + 1000 * Z.of_nat n.

(** ** Notions used to state and prove facts about the jar *)

(** A list of indexed keys in ascending order. *)
Fixpoint ascending (l : list (Z * string)) : Prop :=
  match l with
  | [] => True
  | a :: l' => List.Forall (fun b => fst a <= fst b) l' /\ ascending l'
  end.

(** The name [n] is not among [gone]. *)
Definition absent (gone : list string) (n : string) : bool :=
  negb (List.existsb (String.eqb n) gone).

(** The own properties but for the names [gone]. *)
Definition without (gone : list string) (l : list (string * CookieRecord))
  : list (string * CookieRecord) :=
  List.filter (fun kc => absent gone (fst kc)) l.

End Cookies.

(* ===================================================================== *)
(** * Worked examples *)
(* ===================================================================== *)

Example parseInt_negative : Num.parseInt "  -17" = Num.Fin (-17) 0.
Proof. reflexivity. Qed.
Example parseFloat_fraction : Num.parseFloat "-1.50e1x" = Num.Fin (-15) 0.
Proof. reflexivity. Qed.
Example toString_fraction : Num.toString (Num.Fin (-3125) 3) = "-3.125".
Proof. reflexivity. Qed.
Example toString_tiny : Num.toString (Num.Fin 15 8) = "1.5e-7".
Proof. reflexivity. Qed.

Example base64_decode_hi :
  Base64.decode "aGk=" = [Byte.x68; Byte.x69].
Proof. reflexivity. Qed.

Example time_value_2024 :
  Cal.time_value 2024 1 2 3 4 5 0 = 1704164645000.
Proof. reflexivity. Qed.

Example parseInt_plain : Num.parseInt "42" = Num.Fin 42 0.
Proof. reflexivity. Qed.

Example parseInt_empty : Num.parseInt "" = Num.NaN.
Proof. reflexivity. Qed.

Example parseFloat_small : Num.parseFloat ".25" = Num.Fin 25 2.
Proof. reflexivity. Qed.

Example toString_large : Num.toString (Num.Fin (10 ^ 21) 0) = "1e+21".
Proof. vm_compute. reflexivity. Qed.

Example base64_encode_hi :
  Base64.encode [Byte.x68; Byte.x69] = "aGk=".
Proof. reflexivity. Qed.

Example base64_decode_noise :
  Base64.decode " a!G#k " = [Byte.x68; Byte.x69].
Proof. reflexivity. Qed.

Example fields_2024 :
  Cal.fields 1704164645000 = [2024; 1; 2; 3; 4; 5; 0].
Proof. reflexivity. Qed.

Example decode_scenario_text :
  option_map (DateFormatter.isoText (H := UTC.host))
             (Regex.exec DateFormatter.ISO8601 "20240102T03:04:05")
  = Some "2024-01-02T03:04:05.000Z".
Proof. vm_compute. reflexivity. Qed.

Example decode_scenario :
  DateFormatter.decodeIso8601 (H := UTC.host) "20240102T03:04:05"
  = inl (Some 1704164645000).
Proof. vm_compute. reflexivity. Qed.

Example decode_hour_offset :
  option_map (DateFormatter.isoText (H := UTC.host))
             (Regex.exec DateFormatter.ISO8601 "2024-01-02T03+01")
  = Some "2024-01-02T03:00:00.000+0100".
Proof. vm_compute. reflexivity. Qed.

Example encode_default :
  DateFormatter.encodeIso8601 (H := UTC.host) DateFormatter.DEFAULT_OPTIONS
    (Some 1704164645123) = "20240102T03:04:05".
Proof. vm_compute. reflexivity. Qed.

Example utc_date_toString :
  UTC.toString (Some 1704164645000)
  = "Tue Jan 02 2024 03:04:05 GMT+0000 (Coordinated Universal Time)".
Proof. vm_compute. reflexivity. Qed.

Example serialize_scenario_3 :
  Serializer.serializeMethodResponse (H := UTC.host) Xml.xmlbuilder
    DateFormatter.DEFAULT_OPTIONS (VNumber (Num.of_Z 42))
  = Some (Xml.Element "methodResponse" [Xml.Element "params" [Xml.Element "param"
      [Xml.Element "value" [Xml.Element "int" [Xml.Text "42"]]]]]).
Proof. vm_compute. reflexivity. Qed.

Example serialize_array :
  Serializer.serializeFault (H := UTC.host) Xml.xmlbuilder
    DateFormatter.DEFAULT_OPTIONS
    (VArray [VBool true; VArray []; VString "a<b"; VString "x"; VNull])
  = Some (Xml.Element "methodResponse" [Xml.Element "fault"
      [Xml.Element "value" [Xml.Element "array" [Xml.Element "data"
        [Xml.Element "value" [Xml.Element "boolean" [Xml.Text "1"]];
         Xml.Element "value" [Xml.Element "array" [Xml.Element "data" []]];
         Xml.Element "value" [Xml.Element "string" [Xml.CData "a<b"]];
         Xml.Element "value" [Xml.Element "string" [Xml.Text "x"]];
         Xml.Element "value" [Xml.Element "nil" []]]]]]]).
Proof. vm_compute. reflexivity. Qed.

Example serialize_struct :
  Serializer.serializeFault (H := UTC.host) Xml.xmlbuilder
    DateFormatter.DEFAULT_OPTIONS
    (VObject [("a", VNumber (Num.of_Z 1))])
  = Some (Xml.Element "methodResponse" [Xml.Element "fault"
      [Xml.Element "value" [Xml.Element "struct" [Xml.Element "member"
        [Xml.Element "name"
           [Xml.Text "a";
            Xml.Element "value" [Xml.Element "int" [Xml.Text "1"]]]]]]]]).
Proof. vm_compute. reflexivity. Qed.

Example round_trip_array :
  response_round_trip (H := UTC.host) Xml.xmlbuilder DateFormatter.DEFAULT_OPTIONS
    (VArray [VBool true; VString "a<b"; VNumber (Num.Fin 15 1); VNull;
             VBuffer [Byte.x68; Byte.x69]; VString ""; VArray []])
  = Some [Deserializer.Response
            (VArray [VBool true; VString "a<b"; VNumber (Num.Fin 15 1); VNull;
                     VBuffer [Byte.x68; Byte.x69]; VString ""; VArray []])].
Proof. vm_compute. reflexivity. Qed.

Example round_trip_date :
  response_round_trip (H := UTC.host) Xml.xmlbuilder DateFormatter.DEFAULT_OPTIONS
    (VDate (Some 1704164645123))
  = Some [Deserializer.Response (VDate (Some 1704164645000))].
Proof. vm_compute. reflexivity. Qed.

Example decode_scenario_1 :
  Deserializer.delivered (Deserializer.deserializeMethodCall (H := UTC.host)
    (Deserializer.Opentag "METHODCALL" ::
     Deserializer.Opentag "METHODNAME" :: Deserializer.Text "sum" ::
     Deserializer.Closetag "METHODNAME" ::
     Deserializer.Opentag "PARAMS" ::
     Deserializer.Opentag "PARAM" :: Deserializer.Opentag "VALUE" ::
     Deserializer.Opentag "INT" :: Deserializer.Text "2" ::
     Deserializer.Closetag "INT" :: Deserializer.Closetag "VALUE" ::
     Deserializer.Closetag "PARAM" ::
     Deserializer.Opentag "PARAM" :: Deserializer.Opentag "VALUE" ::
     Deserializer.Opentag "INT" :: Deserializer.Text "3" ::
     Deserializer.Closetag "INT" :: Deserializer.Closetag "VALUE" ::
     Deserializer.Closetag "PARAM" ::
     Deserializer.Closetag "PARAMS" :: Deserializer.Closetag "METHODCALL" ::
     [Deserializer.End]))
  = [Deserializer.Call "sum" [VNumber (Num.of_Z 2); VNumber (Num.of_Z 3)]].
Proof. vm_compute. reflexivity. Qed.

(* ===================================================================== *)
(** * The patterns, read as predicates *)
(* ===================================================================== *)

Section RegexFacts.

Variable input : string.

Lemma star_total p s c :
  Regex.star p s (fun _ => Some c) = Some c.
Proof.
  induction s as [|a s IH]; simpl; [reflexivity|].
  destruct (p a); [rewrite IH|]; reflexivity.
Qed.

Lemma star_to_end p s c :
  Regex.star p s (fun s' => match s' with
                            | EmptyString => Some c
                            | String _ _ => None
                            end)
  = if Str.all p s then Some c else None.
Proof.
  induction s as [|a s IH]; simpl; [reflexivity|].
  destruct (p a); simpl; [|reflexivity].
  rewrite IH. destruct (Str.all p s); reflexivity.
Qed.

Lemma match_at_anchored r s :
  Regex.match_at input (Regex.Seq Regex.Bol r) s
  = if Nat.eqb (String.length s) (String.length input)
    then Regex.run input r s [] (fun _ c => Some c) else None.
Proof. reflexivity. Qed.

Lemma search_anchored r s :
  (String.length s < String.length input)%nat ->
  Regex.search input (Regex.Seq Regex.Bol r) s = None.
Proof.
  induction s as [|a s IH]; intros Hlen; cbn [Regex.search];
    rewrite match_at_anchored.
  - destruct (Nat.eqb_spec (String.length "") (String.length input)) as [E|E];
      [rewrite E in Hlen; lia | reflexivity].
  - destruct (Nat.eqb_spec (String.length (String a s)) (String.length input))
      as [E|E]; [rewrite E in Hlen; lia |].
    apply IH. simpl in Hlen. lia.
Qed.

End RegexFacts.

Lemma exec_anchored r s :
  Regex.exec (Regex.Seq Regex.Bol r) s
  = Regex.run s r s [] (fun _ c => Some c).
Proof.
  unfold Regex.exec.
  destruct s as [|a s]; cbn [Regex.search]; rewrite match_at_anchored;
    rewrite Nat.eqb_refl.
  - destruct (Regex.run "" r "" [] _); reflexivity.
  - destruct (Regex.run (String a s) r (String a s) [] _); [reflexivity|].
    apply search_anchored. simpl. lia.
Qed.

Lemma lookahead_spec input s c :
  Regex.star Serializer.plain_char s
    (fun s1 =>
       Regex.run input
         (Regex.Seq (Regex.Lit "]") (Regex.Seq (Regex.Lit "]")
            (Regex.Seq (Regex.Lit ">") (Regex.Star Serializer.plain_char))))
         s1 c (fun _ c' => Some c'))
  = if terminator_ahead s then Some c else None.
Proof.
  assert (Hk : forall s1,
    Regex.run input
      (Regex.Seq (Regex.Lit "]") (Regex.Seq (Regex.Lit "]")
         (Regex.Seq (Regex.Lit ">") (Regex.Star Serializer.plain_char))))
      s1 c (fun _ c' => Some c')
    = if Str.starts_with "]]>" s1 then Some c else None).
  { intros s1. simpl.
    destruct s1 as [|a1 s1]; simpl; [reflexivity|].
    destruct (Chr.eqb a1 "]"); simpl; [|reflexivity].
    destruct s1 as [|a2 s1]; simpl; [reflexivity|].
    destruct (Chr.eqb a2 "]"); simpl; [|reflexivity].
    destruct s1 as [|a3 s1]; simpl; [reflexivity|].
    destruct (Chr.eqb a3 ">"); simpl; [|reflexivity].
    apply star_total. }
  induction s as [|a s IH].
  - cbn [Regex.star]. rewrite Hk. reflexivity.
  - cbn [Regex.star]. rewrite IH, Hk.
    cbn [terminator_ahead].
    destruct (Serializer.plain_char a) eqn:Hp; simpl.
    + destruct (terminator_ahead s); simpl.
      * rewrite orb_true_r. reflexivity.
      * rewrite orb_false_r. reflexivity.
    + rewrite orb_false_r. reflexivity.
Qed.

Lemma terminator_ahead_includes s :
  Str.all Serializer.plain_char s = true ->
  terminator_ahead s = Str.includes "]]>" s.
Proof.
  induction s as [|a s IH]; intros Hall; [reflexivity|].
  cbn [terminator_ahead Str.includes].
  simpl in Hall. apply andb_true_iff in Hall as [Ha Hs].
  rewrite Ha, (IH Hs). reflexivity.
Qed.

Lemma run_seq input r1 r2 s c k :
  Regex.run input (Regex.Seq r1 r2) s c k
  = Regex.run input r1 s c (fun s' c' => Regex.run input r2 s' c' k).
Proof. reflexivity. Qed.

Lemma run_not_ahead input r s c k :
  Regex.run input (Regex.NotAhead r) s c k
  = match Regex.run input r s c (fun _ c' => Some c') with
    | Some _ => None
    | None => k s c
    end.
Proof. reflexivity. Qed.

Lemma lookahead_run input s c :
  Regex.run input
    (Regex.Seq (Regex.Star Serializer.plain_char)
       (Regex.Seq (Regex.Lit "]") (Regex.Seq (Regex.Lit "]")
          (Regex.Seq (Regex.Lit ">") (Regex.Star Serializer.plain_char)))))
    s c (fun _ c' => Some c')
  = if terminator_ahead s then Some c else None.
Proof. exact (lookahead_spec input s c). Qed.

Lemma plain_to_end input s c :
  Regex.run input (Regex.Seq (Regex.Star Serializer.plain_char) Regex.Eol)
            s c (fun _ c' => Some c')
  = if Str.all Serializer.plain_char s then Some c else None.
Proof. exact (star_to_end Serializer.plain_char s c). Qed.

(** [illegalChars.test(v)]: no [<], no [&], and no terminator of a
    literal section. *)
Lemma illegalChars_test v :
  Regex.test Serializer.illegalChars v
  = Str.all Serializer.plain_char v && negb (Str.includes "]]>" v).
Proof.
  unfold Regex.test, Serializer.illegalChars.
  cbn [Regex.seq]. rewrite exec_anchored.
  rewrite run_seq, run_not_ahead, lookahead_run, plain_to_end.
  destruct (Str.all Serializer.plain_char v) eqn:Hall.
  - rewrite <- (terminator_ahead_includes v Hall).
    destruct (terminator_ahead v); reflexivity.
  - destruct (terminator_ahead v); reflexivity.
Qed.

Lemma digits_to_end input s c :
  Regex.run input (Regex.Seq (Regex.Plus Chr.is_digit) Regex.Eol) s c
            (fun _ c' => Some c')
  = if negb (Str.is_empty s) && Str.all Chr.is_digit s then Some c else None.
Proof.
  destruct s as [|a s]; simpl; [reflexivity|].
  destruct (Chr.is_digit a); simpl; [|reflexivity].
  apply star_to_end.
Qed.

Lemma run_opt input r s c k :
  Regex.run input (Regex.Opt r) s c k
  = match Regex.run input r s c
            (fun s' c' =>
               if Nat.eqb (String.length s') (String.length s) then None
               else k s' c') with
    | Some res => Some res
    | None => k s c
    end.
Proof. reflexivity. Qed.

Lemma run_lit input a s c k :
  Regex.run input (Regex.Lit a) s c k
  = match s with
    | String ch s' => if Chr.eqb ch a then k s' c else None
    | EmptyString => None
    end.
Proof. reflexivity. Qed.

(** [isInteger.test(t)]. *)
Lemma isInteger_test t :
  Regex.test Deserializer.isInteger t = integer_shaped t.
Proof.
  unfold Regex.test, Deserializer.isInteger.
  cbn [Regex.seq]. rewrite exec_anchored.
  rewrite run_seq, run_opt, run_lit.
  destruct t as [|a t].
  - rewrite digits_to_end. reflexivity.
  - destruct (Chr.eqb a "-") eqn:Ha.
    + apply Ascii.eqb_eq in Ha. subst a.
      cbn [integer_shaped].
      replace (Nat.eqb (String.length t) (String.length (String "-" t)))
        with false by (symmetry; apply Nat.eqb_neq; simpl; lia).
      rewrite !digits_to_end.
      destruct (negb (Str.is_empty t) && Str.all Chr.is_digit t); reflexivity.
    + rewrite digits_to_end.
      assert (integer_shaped (String a t)
              = negb (Str.is_empty (String a t))
                && Str.all Chr.is_digit (String a t)) as ->.
      { unfold integer_shaped.
        destruct a as [[] [] [] [] [] [] [] []]; try reflexivity.
        discriminate Ha. }
      destruct (negb (Str.is_empty (String a t))
                && Str.all Chr.is_digit (String a t)); reflexivity.
Qed.

(* ===================================================================== *)
(** * Strings written by the serializer *)
(* ===================================================================== *)

Lemma length_zero_is_empty (v : string) :
  Nat.eqb (String.length v) 0 = Str.is_empty v.
Proof. destruct v; reflexivity. Qed.

(** C2, as the code has it: an empty string is written as an empty
    [string] element; a non-empty string is written as plain text when it
    contains none of [<], [&] and the terminator []]>] of a literal
    section, and as a literal section otherwise (the writer offering
    [d] or [cdata]). *)
Theorem C2_appendString_amended (builder : Xml.Builder) (v : string)
        (doc : Xml.node) (xml : Xml.handle) :
  Xml.has_d builder || Xml.has_cdata builder = true ->
  Serializer.appendString builder v doc xml
  = let '(doc1, str) := Xml.ele "string" doc xml in
    if Str.is_empty v then doc1
    else if Str.all Serializer.plain_char v && negb (Str.includes "]]>" v)
         then fst (Xml.txt v doc1 str)
         else fst (Xml.cdata v doc1 str).
Proof.
  intros Hcap. unfold Serializer.appendString.
  rewrite length_zero_is_empty, illegalChars_test.
  destruct (Xml.ele "string" doc xml) as [doc1 str] eqn:E.
  destruct (Str.is_empty v); [reflexivity|].
  destruct (Str.all Serializer.plain_char v && negb (Str.includes "]]>" v));
    simpl; [reflexivity|].
  destruct (Xml.has_d builder); [reflexivity|].
  simpl in Hcap. rewrite Hcap. reflexivity.
Qed.

Lemma C2_appendString_amended_witness :
  Serializer.appendString Xml.xmlbuilder "a]]>b" (Xml.Element "value" []) []
  = Xml.Element "value" [Xml.Element "string" [Xml.CData "a]]>b"]].
Proof.
  rewrite (C2_appendString_amended Xml.xmlbuilder "a]]>b"
             (Xml.Element "value" []) []); reflexivity.
Defined.

(** C2, as stated, fails: the string []]>] contains neither [<] nor [&],
    yet it is written as a literal section, not as plain text. *)
Lemma C2_counterexample :
  ~ (forall v : string, v <> "" ->
       (Str.all Serializer.plain_char v = true ->
        Serializer.appendString Xml.xmlbuilder v (Xml.Element "value" []) []
        = Xml.Element "value" [Xml.Element "string" [Xml.Text v]])
       /\ (Str.all Serializer.plain_char v = false ->
           Serializer.appendString Xml.xmlbuilder v (Xml.Element "value" []) []
           = Xml.Element "value" [Xml.Element "string" [Xml.CData v]])).
Proof.
  intros Hclaim.
  destruct (Hclaim "]]>") as [Hplain _]; [discriminate|].
  specialize (Hplain eq_refl).
  vm_compute in Hplain. discriminate Hplain.
Qed.

(* ===================================================================== *)
(** * Integers read by the deserializer *)
(* ===================================================================== *)

Lemma digit_prefix_all s :
  Str.all Chr.is_digit s = true -> Num.digit_prefix s = s.
Proof.
  induction s as [|a s IH]; simpl; [reflexivity|].
  intros H. apply andb_true_iff in H as [Ha Hs].
  rewrite Ha, (IH Hs). reflexivity.
Qed.

Lemma trim_start_no_space a s :
  Chr.is_space a = false -> Num.trim_start (String a s) = String a s.
Proof. intros H. simpl. rewrite H. reflexivity. Qed.

Lemma digit_not_space a : Chr.is_digit a = true -> Chr.is_space a = false.
Proof.
  unfold Chr.is_digit, Chr.is_space. intros H.
  apply andb_true_iff in H as [H1 H2].
  apply N.leb_le in H1. apply N.leb_le in H2.
  repeat (apply orb_false_iff; split).
  - apply andb_false_iff. right. apply N.leb_gt. lia.
  - apply N.eqb_neq. lia.
  - apply N.eqb_neq. lia.
Qed.

Lemma signed_decimal_trim t :
  signed_decimal t = true -> Num.trim_start t = t.
Proof.
  unfold signed_decimal. intros H.
  destruct t as [|a t]; [reflexivity|].
  apply trim_start_no_space.
  destruct (Chr.is_space a) eqn:Hsp; [|reflexivity].
  exfalso.
  destruct (Chr.is_digit a) eqn:Hd.
  - apply digit_not_space in Hd. congruence.
  - destruct a as [[] [] [] [] [] [] [] []]; simpl in H;
      try discriminate Hsp; try discriminate H;
      try (rewrite Hd in H; discriminate H).
Qed.





(* ===================================================================== *)
(** * Structs built by the deserializer *)
(* ===================================================================== *)

Lemma to_map_set (o : Obj.t) (k : string) (v : Value) :
  Obj.to_map (Obj.set o k v) = <[k := v]> (Obj.to_map o).
Proof.
  unfold Obj.to_map.
  induction o as [|[k' v'] o IH]; simpl; [reflexivity|].
  destruct (String.eqb_spec k' k) as [E|E]; simpl.
  - subst k'. rewrite insert_insert_eq. reflexivity.
  - rewrite IH. apply insert_insert_ne. congruence.
Qed.

Lemma get_to_map (o : Obj.t) (k : string) :
  Obj.get o k = Obj.to_map o !! k.
Proof.
  unfold Obj.to_map.
  induction o as [|[k' v'] o IH]; simpl; [reflexivity|].
  destruct (String.eqb_spec k' k) as [E|E].
  - subst k'. rewrite lookup_insert_eq. reflexivity.
  - rewrite lookup_insert_ne by exact E. exact IH.
Qed.

Lemma set_keys_in (o : Obj.t) (k : string) (v : Value) (x : string) :
  In x (List.map fst (Obj.set o k v)) -> x = k \/ In x (List.map fst o).
Proof.
  induction o as [|[k' v'] o IH]; simpl.
  - intros [E|[]]. left. congruence.
  - destruct (String.eqb_spec k' k) as [E|E]; simpl.
    + intros [E'|Hin]; [right; left; exact E' | right; right; exact Hin].
    + intros [E'|Hin]; [right; left; exact E'|].
      destruct (IH Hin) as [?|?]; [left | right; right]; assumption.
Qed.

Lemma set_NoDup (o : Obj.t) (k : string) (v : Value) :
  List.NoDup (List.map fst o) -> List.NoDup (List.map fst (Obj.set o k v)).
Proof.
  induction o as [|[k' v'] o IH]; simpl; intros Hnd.
  - constructor; [intros []|constructor].
  - inversion Hnd as [|? ? Hnotin Hnd']; subst.
    destruct (String.eqb_spec k' k) as [E|E]; simpl.
    + constructor; assumption.
    + constructor; [|apply IH; exact Hnd'].
      intros Hin. apply set_keys_in in Hin as [E'|Hin]; [congruence|].
      exact (Hnotin Hin).
Qed.

Lemma struct_of_map `{Host} (items : list Value) :
  forall struct : Obj.t,
    Obj.to_map (Deserializer.struct_of items struct)
    = last_wins (pairs items) (Obj.to_map struct).
Proof.
  induction items as [items IH] using (induction_ltof1 _ (@List.length Value)).
  unfold ltof in IH. intros struct.
  destruct items as [|k [|v rest]]; simpl.
  - reflexivity.
  - apply to_map_set.
  - rewrite IH by (simpl; lia). rewrite to_map_set. reflexivity.
Qed.

Lemma struct_of_NoDup `{Host} (items : list Value) :
  forall struct : Obj.t,
    List.NoDup (List.map fst struct) ->
    List.NoDup (List.map fst (Deserializer.struct_of items struct)).
Proof.
  induction items as [items IH] using (induction_ltof1 _ (@List.length Value)).
  unfold ltof in IH. intros struct Hnd.
  destruct items as [|k [|v rest]]; simpl.
  - exact Hnd.
  - apply set_NoDup. exact Hnd.
  - apply IH; [simpl; lia|]. apply set_NoDup. exact Hnd.
Qed.

Lemma pop_mark_last (st : Deserializer.State) (below : list nat) (m : nat) :
  Deserializer.marks st = below ++ [m] ->
  Deserializer.pop_mark st = Some (m, Deserializer.set_marks below st).
Proof.
  intros Hm. unfold Deserializer.pop_mark.
  rewrite Hm, List.rev_app_distr. simpl.
  rewrite List.rev_involutive. reflexivity.
Qed.



(* ===================================================================== *)
(** * The deserializer as a state machine *)
(* ===================================================================== *)

Section Machine.

Context `{Host}.

Import Deserializer.

Lemma same_outcomes_refl st : same_outcomes st st.
Proof. repeat split. Qed.

Lemma pop_mark_inv st m st1 :
  pop_mark st = Some (m, st1) -> exists below, st1 = set_marks below st.
Proof.
  unfold pop_mark. destruct (List.rev (marks st)) as [|x l]; [discriminate|].
  intros E. inversion E; subst. eexists. reflexivity.
Qed.

Ltac split_handler :=
  repeat match goal with
         | |- context [if ?b then _ else _] => destruct b
         | |- context [match pop_mark ?s with _ => _ end] =>
             let E := fresh "E" in
             destruct (pop_mark s) as [[? ?]|] eqn:E;
             [apply pop_mark_inv in E as [? ->]|]
         | |- context [match DateFormatter.decodeIso8601 ?d with _ => _ end] =>
             destruct (DateFormatter.decodeIso8601 d)
         end.

(** A handler that completes touches neither the callback, the error nor
    the outcomes, and never raises the bare-value flag. *)
Lemma dispatch_frame el d st st' :
  dispatch el d st = Normal st' ->
  same_outcomes st st' /\ (value st = false -> value st' = false).
Proof.
  unfold dispatch, endBoolean, endInt, endI8, endDouble, endString, endArray,
    endStruct, endBase64, endDateTime, endValue, endParams, endFault,
    endMethodResponse, endMethodName, endMethodCall, endNil.
  destruct (value st) eqn:Hv;
    split_handler; intros Hd; inversion Hd; subst; clear Hd;
    unfold same_outcomes; simpl; repeat split; auto; discriminate.
Qed.

Lemma invoke_error e r st cb :
  callback st = Some cb ->
  delivered (invoke (Some e) r st) = delivered st ++ [Failure e].
Proof.
  intros Hcb. unfold invoke. rewrite Hcb. destruct cb; reflexivity.
Qed.

Lemma invoke_fields err r st :
  callback (invoke err r st) = callback st
  /\ error (invoke err r st) = error st
  /\ value (invoke err r st) = value st
  /\ stack (invoke err r st) = stack st.
Proof.
  unfold invoke.
  destruct (callback st) as [[]|] eqn:E; simpl; rewrite ?E; repeat split.
Qed.

Lemma invoke_callback err r st :
  callback (invoke err r st) = callback st.
Proof. apply invoke_fields. Qed.

Lemma onError_first msg st cb :
  callback st = Some cb -> error st = None ->
  callback (onError msg st) = Some cb
  /\ error (onError msg st) = Some (raised msg)
  /\ delivered (onError msg st) = delivered st ++ [Failure (raised msg)]
  /\ value (onError msg st) = value st.
Proof.
  intros Hcb Herr. unfold onError. rewrite Herr.
  fold (raised msg).
  destruct (invoke_fields (Some (raised msg)) []
              (set_error (Some (raised msg)) st)) as (Hc & He & Hv & _).
  rewrite Hc, He, Hv.
  rewrite (invoke_error (raised msg) [] (set_error (Some (raised msg)) st)
             cb Hcb).
  simpl. repeat split. exact Hcb.
Qed.

Lemma onError_later msg st e :
  error st = Some e -> onError msg st = st.
Proof. intros Herr. unfold onError. rewrite Herr. reflexivity. Qed.

Lemma onDone_later st e :
  error st = Some e -> onDone st = st.
Proof. intros Herr. unfold onDone. rewrite Herr. reflexivity. Qed.

Lemma onOpentag_frame name st :
  same_outcomes st (onOpentag name st).
Proof.
  unfold onOpentag, same_outcomes.
  destruct ((name =? "ARRAY")%string || (name =? "STRUCT")%string);
    repeat split.
Qed.

(** Once an error is recorded, no event delivers anything or replaces
    the error. *)
Lemma handle_after_error st e ev :
  error st = Some e -> same_outcomes st (handle st ev).
Proof.
  intros Herr. destruct ev as [name|name|chunk|chunk| |msg]; simpl.
  - apply onOpentag_frame.
  - unfold onClosetag.
    destruct (dispatch name (Str.join "" (data st)) st) as [st'|e'] eqn:Hd.
    + apply (dispatch_frame _ _ _ _ Hd).
    + rewrite (onError_later _ _ _ Herr). apply same_outcomes_refl.
  - repeat split.
  - repeat split.
  - rewrite (onDone_later _ _ Herr). apply same_outcomes_refl.
  - rewrite (onError_later _ _ _ Herr). apply same_outcomes_refl.
Qed.

Lemma feed_after_error evs : forall st e,
  error st = Some e -> same_outcomes st (feed st evs).
Proof.
  induction evs as [|ev evs IH]; intros st e Herr; simpl.
  - apply same_outcomes_refl.
  - destruct (handle_after_error st e ev Herr) as (Hc & He & Hd).
    destruct (IH (handle st ev) e) as (Hc' & He' & Hd').
    + rewrite He. exact Herr.
    + unfold same_outcomes. rewrite Hc', He', Hd'. repeat split; assumption.
Qed.

Lemma handle_pending cb st ev :
  pending cb st -> is_End ev = false ->
  pending cb (handle st ev) \/ exists e, failed cb e (handle st ev).
Proof.
  intros (Hcb & Herr & Hdel) Hev.
  destruct ev as [name|name|chunk|chunk| |msg]; simpl; try discriminate Hev.
  - left. destruct (onOpentag_frame name st) as (Hc & He & Hd).
    unfold pending. rewrite Hc, He, Hd. auto.
  - unfold onClosetag.
    destruct (dispatch name (Str.join "" (data st)) st) as [st'|e'] eqn:Hdisp.
    + left. destruct (dispatch_frame _ _ _ _ Hdisp) as ((Hc & He & Hd) & _).
      unfold pending. rewrite Hc, He, Hd. auto.
    + right. exists e'.
      destruct (onError_first (RError e') st cb Hcb Herr) as (Hc & He & Hd & _).
      unfold failed. rewrite Hc, He, Hd, Hdel. auto.
  - left. unfold pending. simpl. auto.
  - left. unfold pending. simpl. auto.
  - right. exists (raised msg).
    destruct (onError_first msg st cb Hcb Herr) as (Hc & He & Hd & _).
    unfold failed. rewrite Hc, He, Hd, Hdel. auto.
Qed.

Lemma feed_failed cb e evs st :
  failed cb e st -> failed cb e (feed st evs).
Proof.
  intros (Hcb & Herr & Hdel).
  destruct (feed_after_error evs st e Herr) as (Hc & He & Hd).
  unfold failed. rewrite Hc, He, Hd. auto.
Qed.

Lemma feed_pending cb evs : forall st,
  pending cb st ->
  List.existsb is_End evs = false ->
  pending cb (feed st evs) \/ exists e, failed cb e (feed st evs).
Proof.
  induction evs as [|ev evs IH]; intros st Hp Hno; simpl.
  - left. exact Hp.
  - simpl in Hno. apply orb_false_iff in Hno as [Hev Hrest].
    destruct (handle_pending cb st ev Hp Hev) as [Hp'|[e Hf]].
    + apply IH; auto.
    + right. exists e. apply feed_failed. exact Hf.
Qed.

Lemma feed_app st evs1 evs2 :
  feed st (evs1 ++ evs2) = feed (feed st evs1) evs2.
Proof. unfold feed. apply List.fold_left_app. Qed.

Lemma feed_callback evs : forall st,
  callback (feed st evs) = callback st.
Proof.
  induction evs as [|ev evs IH]; intros st; simpl; [reflexivity|].
  rewrite IH.
  destruct ev as [name|name|chunk|chunk| |msg]; simpl.
  - apply onOpentag_frame.
  - unfold onClosetag.
    destruct (dispatch name (Str.join "" (data st)) st) as [st'|e'] eqn:Hdisp.
    + apply (dispatch_frame _ _ _ _ Hdisp).
    + unfold onError. destruct (error st); [reflexivity|].
      rewrite invoke_callback. reflexivity.
  - reflexivity.
  - reflexivity.
  - unfold onDone. destruct (error st); [reflexivity|].
    destruct (_ || _); [apply invoke_callback|].
    destruct (responseType st) as [[]|]; apply invoke_callback.
  - unfold onError. destruct (error st); [reflexivity|].
    rewrite invoke_callback. reflexivity.
Qed.

End Machine.

(* ===================================================================== *)
(** * End of the stream *)
(* ===================================================================== *)

Lemma unfinished_test (st : Deserializer.State) :
  unfinished st ->
  match Deserializer.type st with None => true | Some _ => false end
  || negb (Nat.eqb (List.length (Deserializer.marks st)) 0) = true.
Proof.
  intros [Ht|Hm].
  - rewrite Ht. reflexivity.
  - destruct (Deserializer.marks st); [congruence|].
    apply orb_true_r.
Qed.



(* ===================================================================== *)
(** * Errors *)
(* ===================================================================== *)

(** C7, as the code has it: when an [error] event arrives and no [end]
    came before it, exactly one outcome is delivered over the whole
    sequence, and it is an error: the one carried by the event, unless a
    handler had failed earlier.  Whatever arrives after the first
    delivered error delivers nothing further and leaves the recorded error
    in place. *)
Theorem C7_error_once_amended `{Host} (cb : Deserializer.Callback)
        (evs : list Deserializer.Event) (msg : Deserializer.Raised) :
  List.existsb is_End evs = false ->
  let start := Deserializer.set_callback (Some cb) Deserializer.init in
  exists e,
    (Deserializer.error (Deserializer.feed start evs) = None -> e = raised msg)
    /\ forall later,
        let st := Deserializer.feed start
                    (evs ++ Deserializer.Error msg :: later) in
        Deserializer.error st = Some e
        /\ Deserializer.delivered st = [Deserializer.Failure e].
Proof.
  intros Hno start.
  assert (Hp : pending cb start) by (repeat split).
  destruct (feed_pending cb evs start Hp Hno) as [Hpend|[e Hf]].
  - exists (raised msg). split; [reflexivity|].
    intros later st. unfold st. rewrite feed_app. simpl.
    destruct Hpend as (Hcb & Herr & Hdel).
    destruct (onError_first msg _ cb Hcb Herr) as (Hc & He & Hd & _).
    assert (Hf : failed cb (raised msg)
                   (Deserializer.onError msg (Deserializer.feed start evs))).
    { unfold failed. rewrite Hc, He, Hd, Hdel. auto. }
    destruct (feed_failed cb _ later _ Hf) as (_ & He' & Hd').
    split; assumption.
  - exists e. split.
    + destruct Hf as (_ & Herr & _). congruence.
    + intros later st. unfold st. rewrite feed_app.
      destruct (feed_failed cb e (Deserializer.Error msg :: later) _ Hf)
        as (_ & He' & Hd').
      split; assumption.
Qed.

Lemma C7_error_once_amended_witness :
  Deserializer.delivered
    (Deserializer.feed (H := UTC.host)
       (Deserializer.set_callback
          (Some Deserializer.ResponseCallback) Deserializer.init)
       ([Deserializer.Opentag "METHODRESPONSE"]
        ++ Deserializer.Error (Deserializer.RString "socket hang up")
        :: [Deserializer.Closetag "METHODRESPONSE"; Deserializer.End;
            Deserializer.Error (Deserializer.RString "again")]))
  = [Deserializer.Failure (Deserializer.Err "socket hang up")].
Proof.
  destruct (C7_error_once_amended (H := UTC.host) Deserializer.ResponseCallback
              [Deserializer.Opentag "METHODRESPONSE"]
              (Deserializer.RString "socket hang up") eq_refl)
    as (e & He & Hlater).
  assert (Ee : e = Deserializer.Err "socket hang up").
  { apply He. vm_compute. reflexivity. }
  subst e.
  apply (Hlater [Deserializer.Closetag "METHODRESPONSE"; Deserializer.End;
                 Deserializer.Error (Deserializer.RString "again")]).
Defined.

(** C7, as stated, fails: events received after the delivered error are
    not ignored; a text chunk still lands in the buffer and an opening
    ARRAY still pushes a mark. *)
Lemma C7_counterexample :
  let st := Deserializer.deserializeMethodResponse (H := UTC.host)
              [Deserializer.Error (Deserializer.RString "boom")] in
  Deserializer.delivered st
  = [Deserializer.Failure (Deserializer.Err "boom")]
  /\ ~ (forall ev, Deserializer.handle (H := UTC.host) st ev = st).
Proof.
  split; [vm_compute; reflexivity|].
  intros Hignored.
  specialize (Hignored (Deserializer.Opentag "ARRAY")).
  apply (f_equal Deserializer.marks) in Hignored.
  vm_compute in Hignored. discriminate Hignored.
Qed.

(* ===================================================================== *)
(** * Elements whose content cannot be malformed *)
(* ===================================================================== *)

(** C9: closing BASE64 never fails: whatever the buffered text, it pushes
    the bytes the forgiving decoder reads from it (characters outside the
    alphabet are skipped), records no error and delivers nothing; among
    the typed elements that hold text, only STRING, NAME, NIL and BASE64
    accept every content. *)
Theorem C9_endBase64_total `{Host} :
  (forall (t : string) (st : Deserializer.State),
      Deserializer.dispatch "BASE64" t st
      = Deserializer.Normal
          (Deserializer.set_value false
             (Deserializer.push (VBuffer (Base64.decode t)) st)))
  /\ (forall st : Deserializer.State,
        let st' := Deserializer.handle st (Deserializer.Closetag "BASE64") in
        Deserializer.error st' = Deserializer.error st
        /\ Deserializer.delivered st' = Deserializer.delivered st
        /\ Deserializer.stack st'
           = Deserializer.stack st
             ++ [VBuffer (Base64.decode
                            (Str.join "" (Deserializer.data st)))])
  /\ (forall tag : string,
        In tag scalar_elements ->
        never_malformed tag <-> In tag ["STRING"; "NAME"; "NIL"; "BASE64"]).
Proof.
  split; [reflexivity|]. split; [intros st; repeat split|].
  intros tag Hin. unfold scalar_elements in Hin. simpl in Hin.
  assert (Hbad : forall tg : string,
    (exists e, forall st, Deserializer.dispatch tg "x" st = Deserializer.Throw e) ->
    ~ never_malformed tg).
  { intros tg [e He] Hnever.
    destruct (Hnever "x" Deserializer.init) as [st' Hst'].
    rewrite He in Hst'. discriminate Hst'. }
  repeat (destruct Hin as [<-|Hin]); try contradiction;
    (split;
     [ intros Hnever;
       first [ simpl; tauto
             | exfalso; revert Hnever; apply Hbad; eexists; intros st;
               vm_compute; reflexivity ]
     | intros Hok;
       first [ intros t st; eexists; reflexivity
             | exfalso; simpl in Hok;
               repeat (destruct Hok as [Hok|Hok]; try discriminate Hok);
               exact Hok ] ]).
Qed.

Lemma C9_endBase64_total_witness :
  Deserializer.dispatch (H := UTC.host) "BASE64" "a G*k=" Deserializer.init
  = Deserializer.Normal
      (Deserializer.set_value false
         (Deserializer.push (VBuffer [Byte.x68; Byte.x69]) Deserializer.init))
  /\ never_malformed (H := UTC.host) "BASE64".
Proof.
  destruct (C9_endBase64_total (H := UTC.host)) as (Hrun & _ & Honly).
  split.
  - rewrite Hrun. vm_compute. reflexivity.
  - apply (Honly "BASE64"); simpl; tauto.
Defined.

(* ===================================================================== *)
(** * The bare-value flag *)
(* ===================================================================== *)

Section BareValue.

Context `{Host}.

Import Deserializer.

Lemma onError_value msg st : value (onError msg st) = value st.
Proof.
  unfold onError. destruct (error st); [reflexivity|].
  destruct (invoke_fields (Some (raised msg)) []
              (set_error (Some (raised msg)) st)) as (_ & _ & Hv & _).
  exact Hv.
Qed.

Lemma onDone_value st : value (onDone st) = value st.
Proof.
  unfold onDone. destruct (error st); [reflexivity|].
  destruct (_ || _); [apply invoke_fields|].
  destruct (responseType st) as [[]|]; apply invoke_fields.
Qed.

(** Only an opening VALUE tag raises the flag. *)
Lemma handle_flag_down st ev :
  value st = false -> opens_value ev = false -> value (handle st ev) = false.
Proof.
  intros Hv Hev. destruct ev as [name|name|chunk|chunk| |msg]; simpl in *.
  - unfold onOpentag. simpl. exact Hev.
  - unfold onClosetag.
    destruct (dispatch name (Str.join "" (data st)) st) as [st'|e'] eqn:Hd.
    + apply (dispatch_frame _ _ _ _ Hd). exact Hv.
    + rewrite onError_value. exact Hv.
  - exact Hv.
  - exact Hv.
  - rewrite onDone_value. exact Hv.
  - rewrite onError_value. exact Hv.
Qed.

Lemma feed_flag_down evs : forall st,
  value st = false -> List.existsb opens_value evs = false ->
  value (feed st evs) = false.
Proof.
  induction evs as [|ev evs IH]; intros st Hv Hno; simpl; [exact Hv|].
  simpl in Hno. apply orb_false_iff in Hno as [Hev Hrest].
  apply IH; [|exact Hrest]. apply handle_flag_down; assumption.
Qed.

End BareValue.

(** C10: an opening tag sets the bare-value flag exactly when it is
    VALUE, so any other tag opened inside a value clears it; closing VALUE
    pushes the buffered text as a string only when the flag is still set,
    and otherwise leaves the deserializer, its value stack included, as it
    was: after VALUE was opened and a nested tag followed, no closing tag
    or text raises the flag again, and the closing VALUE changes nothing. *)
Theorem C10_endValue `{Host} :
  (forall (name : string) (st : Deserializer.State),
      Deserializer.value (Deserializer.onOpentag name st)
      = (name =? "VALUE")%string)
  /\ (forall st : Deserializer.State,
        Deserializer.stack
          (Deserializer.handle st (Deserializer.Closetag "VALUE"))
        = if Deserializer.value st
          then Deserializer.stack st
               ++ [VString (Str.join "" (Deserializer.data st))]
          else Deserializer.stack st)
  /\ (forall (st : Deserializer.State) (tag : string)
             (body : list Deserializer.Event),
        tag <> "VALUE" ->
        List.existsb opens_value body = false ->
        let st' := Deserializer.feed st
                     (Deserializer.Opentag "VALUE"
                      :: Deserializer.Opentag tag :: body) in
        Deserializer.handle st' (Deserializer.Closetag "VALUE") = st').
Proof.
  split; [reflexivity|]. split.
  - intros st. simpl. unfold Deserializer.onClosetag.
    change (Deserializer.dispatch "VALUE"
              (Str.join "" (Deserializer.data st)) st)
      with (Deserializer.endValue (Str.join "" (Deserializer.data st)) st).
    unfold Deserializer.endValue.
    destruct (Deserializer.value st); reflexivity.
  - intros st tag body Htag Hbody st'.
    assert (Hv : Deserializer.value st' = false).
    { unfold st'.
      change (Deserializer.feed st
                (Deserializer.Opentag "VALUE"
                 :: Deserializer.Opentag tag :: body))
        with (Deserializer.feed
                (Deserializer.onOpentag tag
                   (Deserializer.onOpentag "VALUE" st)) body).
      apply feed_flag_down; [|exact Hbody].
      change (Deserializer.value
                (Deserializer.onOpentag tag
                   (Deserializer.onOpentag "VALUE" st)))
        with (tag =? "VALUE")%string.
      apply String.eqb_neq. exact Htag. }
    simpl. unfold Deserializer.onClosetag.
    change (Deserializer.dispatch "VALUE"
              (Str.join "" (Deserializer.data st')) st')
      with (Deserializer.endValue (Str.join "" (Deserializer.data st')) st').
    unfold Deserializer.endValue. rewrite Hv. reflexivity.
Qed.

Lemma C10_endValue_witness :
  let st' := Deserializer.feed (H := UTC.host) Deserializer.init
               (Deserializer.Opentag "VALUE"
                :: Deserializer.Opentag "INT"
                :: [Deserializer.Text "7"; Deserializer.Closetag "INT"]) in
  Deserializer.stack st' = [VNumber (Num.of_Z 7)]
  /\ Deserializer.handle (H := UTC.host) st' (Deserializer.Closetag "VALUE")
     = st'.
Proof.
  intros st'. split.
  - vm_compute. reflexivity.
  - apply (proj2 (proj2 (C10_endValue (H := UTC.host)))
             Deserializer.init "INT"
             [Deserializer.Text "7"; Deserializer.Closetag "INT"]).
    + discriminate.
    + reflexivity.
Defined.

(* ===================================================================== *)
(** * Round trip of a struct *)
(* ===================================================================== *)

(** What the serializer writes for the struct [{ a: 1 }]: the value of
    the member is attached under its [name] element. *)
Lemma serialize_member_under_name `{Host} (builder : Xml.Builder)
      (opts : DateFormatter.DateFormatterOptions) :
  Serializer.serializeMethodResponse builder opts
    (VObject [("a", VNumber (Num.of_Z 1))])
  = Some (Xml.Element "methodResponse" [Xml.Element "params"
      [Xml.Element "param" [Xml.Element "value" [Xml.Element "struct"
        [Xml.Element "member" [Xml.Element "name"
           [Xml.Text "a";
            Xml.Element "value" [Xml.Element "int" [Xml.Text "1"]]]]]]]]]).
Proof. vm_compute. reflexivity. Qed.

(** C1 fails on the code for structs: the struct [{ a: 1 }], encoded as a
    response and decoded again, comes back as [{ "1": "1" }], whatever the
    host, the writer and the date options. *)
Theorem C1_struct_round_trip_differs `{Host} (builder : Xml.Builder)
        (opts : DateFormatter.DateFormatterOptions) :
  response_round_trip builder opts (VObject [("a", VNumber (Num.of_Z 1))])
  = Some [Deserializer.Response (VObject [("1", VString "1")])].
Proof. vm_compute. reflexivity. Qed.

(* ===================================================================== *)
(** * Datetimes without an offset *)
(* ===================================================================== *)

(** C8 fails on the code east of UTC at a fractional hour: on a machine
    at UTC+05:30 the offset appended to a text without one is [+06:30],
    so [20240102T03:04:05] is read as 2024-01-01T20:34:05Z, an hour before
    the instant 2024-01-01T21:34:05Z that the local offset gives. *)
Theorem C8_offset_east_of_utc :
  DateFormatter.formatCurrentOffset (H := Kolkata.host) None = "+06:30"
  /\ option_map (DateFormatter.isoText (H := Kolkata.host))
                (Regex.exec DateFormatter.ISO8601 "20240102T03:04:05")
     = Some "2024-01-02T03:04:05.000+06:30"
  /\ DateFormatter.decodeIso8601 (H := Kolkata.host) "20240102T03:04:05"
     = inl (Some (Cal.time_value 2024 1 1 20 34 5 0))
  /\ Cal.time_value 2024 1 2 3 4 5 0 + (-330) * 60000
     = Cal.time_value 2024 1 1 21 34 5 0.
Proof. vm_compute. repeat split; reflexivity. Qed.

(* ===================================================================== *)
(** * Decimal numerals *)
(* ===================================================================== *)

Lemma digit_char (d : Z) :
  0 <= d < 10 ->
  Chr.is_digit (Chr.of_digit d) = true
  /\ Chr.digit_value (Chr.of_digit d) = d
  /\ Chr.is_space (Chr.of_digit d) = false
  /\ Chr.of_digit d <> "-"%char /\ Chr.of_digit d <> "+"%char.
Proof.
  intros Hd.
  assert (Hcases : d = 0 \/ d = 1 \/ d = 2 \/ d = 3 \/ d = 4 \/ d = 5
                   \/ d = 6 \/ d = 7 \/ d = 8 \/ d = 9) by lia.
  repeat (destruct Hcases as [->|Hcases]); try subst d;
    repeat split; try reflexivity; discriminate.
Qed.

Lemma digits_value_from_length (s : string) : forall acc,
  Num.digits_value_from acc s
  = acc * 10 ^ Z.of_nat (String.length s) + Num.digits_value s.
Proof.
  unfold Num.digits_value.
  induction s as [|a s IH]; intros acc; cbn [Num.digits_value_from String.length].
  - change (10 ^ Z.of_nat 0) with 1. lia.
  - rewrite (IH (10 * acc + Chr.digit_value a)),
            (IH (10 * 0 + Chr.digit_value a)).
    rewrite Nat2Z.inj_succ, Z.pow_succ_r by lia. ring.
Qed.

Lemma digits_value_cons (a : ascii) (s : string) :
  Num.digits_value (String a s)
  = Chr.digit_value a * 10 ^ Z.of_nat (String.length s) + Num.digits_value s.
Proof.
  unfold Num.digits_value at 1. cbn [Num.digits_value_from].
  rewrite digits_value_from_length. ring.
Qed.

(** The digits written for [n], in front of what was written before. *)
Lemma digits_fuel_spec (fuel : nat) : forall (n : Z) (acc : string),
  0 <= n < 2 ^ Z.of_nat fuel ->
  Str.all Chr.is_digit acc = true ->
  Str.all Chr.is_digit (Num.digits_fuel fuel n acc) = true
  /\ Num.digits_value (Num.digits_fuel fuel n acc)
     = n * 10 ^ Z.of_nat (String.length acc) + Num.digits_value acc.
Proof.
  induction fuel as [|fuel IH]; intros n acc Hn Hacc.
  - change (2 ^ Z.of_nat 0) with 1 in Hn.
    assert (n = 0) by lia. subst n. simpl. split; [exact Hacc|lia].
  - cbn [Num.digits_fuel].
    assert (Hd : 0 <= n mod 10 < 10) by (apply Z.mod_pos_bound; lia).
    destruct (digit_char (n mod 10) Hd) as (Hdig & Hval & _).
    assert (Hacc' : Str.all Chr.is_digit
                      (String (Chr.of_digit (n mod 10)) acc) = true).
    { cbn [Str.all]. rewrite Hdig, Hacc. reflexivity. }
    destruct (Z.ltb_spec n 10) as [Hlt|Hge].
    + split; [exact Hacc'|].
      rewrite digits_value_cons, Hval, Z.mod_small by lia. reflexivity.
    + destruct (IH (n / 10) (String (Chr.of_digit (n mod 10)) acc))
        as [Hall Hv]; [|exact Hacc'|].
      * rewrite Nat2Z.inj_succ, Z.pow_succ_r in Hn by lia.
        split; [apply Z.div_pos; lia|].
        apply Z.div_lt_upper_bound; lia.
      * split; [exact Hall|].
        rewrite Hv, digits_value_cons, Hval.
        cbn [String.length]. rewrite Nat2Z.inj_succ, Z.pow_succ_r by lia.
        rewrite (Z.div_mod n 10) at 3 by lia. ring.
Qed.

Lemma digits_fuel_nonempty (fuel : nat) (n : Z) (acc : string) :
  Str.is_empty (Num.digits_fuel (S fuel) n acc) = false.
Proof.
  revert n acc. induction fuel as [|fuel IH]; intros n acc.
  - cbn [Num.digits_fuel]. destruct (n <? 10); reflexivity.
  - cbn [Num.digits_fuel]. cbn [Num.digits_fuel] in IH.
    destruct (n <? 10); [reflexivity|]. apply IH.
Qed.

(** The numeral of a non-negative integer: digits only, one at least,
    denoting that integer. *)
Lemma digits_spec (n : Z) :
  0 <= n ->
  Str.all Chr.is_digit (Num.digits n) = true
  /\ Str.is_empty (Num.digits n) = false
  /\ Num.digits_value (Num.digits n) = n.
Proof.
  intros Hn. unfold Num.digits.
  destruct (digits_fuel_spec (S (Z.to_nat (Z.log2 n))) n "") as [Hall Hv].
  - split; [exact Hn|].
    rewrite Nat2Z.inj_succ, Z2Nat.id by apply Z.log2_nonneg.
    destruct (Z.eq_dec n 0) as [->|Hnz]; [reflexivity|].
    apply Z.log2_spec. lia.
  - reflexivity.
  - split; [exact Hall|]. split; [apply digits_fuel_nonempty|].
    rewrite Hv.
    change (Z.of_nat (String.length "")) with 0.
    change (Num.digits_value "") with 0.
    rewrite Z.pow_0_r. lia.
Qed.


(* ===================================================================== *)
(** * The offset suffix *)
(* ===================================================================== *)

Lemma offset_minutes (o : Z) : Z.abs (Z.rem o 60) = Z.abs o mod 60.
Proof.
  rewrite <- (Z.rem_abs o 60) by lia.
  apply Z.rem_mod_nonneg; lia.
Qed.

Lemma offset_hours (o : Z) :
  Z.abs (o / 60)
  = if (o <? 0) && negb (o mod 60 =? 0) then Z.abs o / 60 + 1
    else Z.abs o / 60.
Proof.
  pose proof (Z.div_mod o 60 ltac:(lia)) as Hdm.
  pose proof (Z.mod_pos_bound o 60 ltac:(lia)) as Hm.
  destruct (Z.ltb_spec o 0) as [Hneg|Hpos]; cbn [andb].
  - destruct (Z.eqb_spec (o mod 60) 0) as [Hz|Hnz]; cbn [negb].
    + rewrite Z.abs_neq by lia. rewrite Z.abs_neq by lia.
      apply Z.div_unique with (r := 0); lia.
    + rewrite Z.abs_neq by lia. rewrite (Z.abs_neq o) by lia.
      assert (Hq : (- o) / 60 = - (o / 60) - 1).
      { symmetry. apply Z.div_unique with (r := 60 - o mod 60); lia. }
      lia.
  - rewrite Z.abs_eq by (apply Z.div_pos; lia).
    rewrite Z.abs_eq by lia. reflexivity.
Qed.

(** The suffix written for the current offset [o], in minutes west of
    UTC: the minutes are always those of [o]; the hours are those of [o]
    west of UTC and at whole hours, and one more east of UTC at a
    fractional hour. *)
Theorem formatCurrentOffset_hours `{Host} :
  let o := timezoneOffset now in
  DateFormatter.formatCurrentOffset None
  = if o =? 0 then "Z"
    else (if o <? 0 then "+" else "-")
         +:+ DateFormatter.zeroPad
               (Num.of_Z (if (o <? 0) && negb (o mod 60 =? 0)
                          then Z.abs o / 60 + 1 else Z.abs o / 60)) 2
         +:+ ":" +:+ DateFormatter.zeroPad (Num.of_Z (Z.abs o mod 60)) 2.
Proof.
  intros o. unfold DateFormatter.formatCurrentOffset,
    DateFormatter.getTimezoneOffset.
  fold o. rewrite offset_minutes, offset_hours. reflexivity.
Qed.

(* ===================================================================== *)
(** * The traversal of the serializer ends *)
(* ===================================================================== *)

Section Traversal.

Context `{Host}.
Variable builder : Xml.Builder.
Variable opts : DateFormatter.DateFormatterOptions.

Import Serializer.

Local Abbreviation loop := (Serializer.loop builder opts).
Local Abbreviation turn := (Serializer.turn builder opts).
Local Abbreviation worked := (worked_off builder opts).

Lemma loop_turn fuel doc current below :
  loop (S fuel) doc (current :: below)
  = loop fuel (fst (turn doc current below)) (snd (turn doc current below)).
Proof. cbn [Serializer.loop]. destruct (turn doc current below). reflexivity. Qed.

Lemma cost_of_property (o : Obj.t) (key : string) :
  cost_of (List.map (fun kv => (fst kv, turns (snd kv))) o) key
  = turns (property (VObject o) key).
Proof.
  unfold property. induction o as [|[k v] o IH]; simpl; [reflexivity|].
  destruct (String.eqb k key); [reflexivity|exact IH].
Qed.

Lemma property_worked_off (o : Obj.t) (key : string) :
  worked VUndefined ->
  List.Forall (fun kv => worked (snd kv)) o ->
  worked (property (VObject o) key).
Proof.
  intros Hu Hall. unfold property.
  induction Hall as [|[k v] o Hv Hall IH]; simpl; [exact Hu|].
  destruct (String.eqb k key); [exact Hv|exact IH].
Qed.

(** The items of an array from position [length done] on. *)
Lemma array_items_worked_off (items : list Value) (data : Xml.handle)
      (below : list Frame) :
  List.Forall worked items ->
  forall (todo done : list Value) (doc : Xml.node) (extra : nat),
    items = done ++ todo ->
    let frame := {| value := VArray items; xml := data;
                    index := Some (List.length done); keys := None |} in
    exists doc',
      loop (List.fold_right (fun x n => S (turns x + n)) O todo + extra)
           (fst (advance doc frame below)) (snd (advance doc frame below))
      = loop extra doc' below.
Proof.
  intros Hall todo.
  induction todo as [|x todo IH]; intros done doc extra Hitems frame.
  - exists doc. unfold advance, getNextItemsFrame, frame. cbn [index keys value].
    cbn [value_length]. rewrite Hitems, List.app_nil_r, Nat.ltb_irrefl.
    reflexivity.
  - assert (Hlt : Nat.ltb (List.length done) (List.length items) = true).
    { apply Nat.ltb_lt. rewrite Hitems, List.length_app. simpl. lia. }
    assert (Hx : element (VArray items) (List.length done) = x).
    { unfold element. rewrite Hitems, List.app_nth2 by lia.
      rewrite Nat.sub_diag. reflexivity. }
    assert (Hwx : worked x).
    { rewrite List.Forall_forall in Hall. apply Hall.
      rewrite Hitems. apply List.in_or_app. right. left. reflexivity. }
    unfold advance, getNextItemsFrame, frame. cbn [index keys value xml].
    cbn [value_length]. rewrite Hlt, Hx. cbn [fst snd List.fold_right].
    set (next := {| value := VArray items; xml := data;
                    index := Some (S (List.length done)); keys := None |}).
    destruct (Hwx doc data (next :: below)
                (S (List.fold_right (fun x n => S (turns x + n)) O todo
                    + extra))) as [doc1 Hdoc1].
    replace (S (turns x + List.fold_right (fun x n => S (turns x + n)) O todo)
             + extra)%nat
      with (turns x
            + S (List.fold_right (fun x n => S (turns x + n)) O todo + extra))%nat
      by lia.
    rewrite Hdoc1, loop_turn.
    destruct (IH (done ++ [x]) doc1 extra) as [doc2 Hdoc2].
    { rewrite <- List.app_assoc. exact Hitems. }
    exists doc2. rewrite <- Hdoc2.
    rewrite List.length_app, Nat.add_1_r. reflexivity.
Qed.

(** The members of a struct from position [length done] of its keys on. *)
Lemma struct_members_worked_off (o : Obj.t) (ks : list string)
      (below : list Frame) :
  worked VUndefined ->
  List.Forall (fun kv => worked (snd kv)) o ->
  forall (todo done : list string) (doc : Xml.node) (s : Xml.handle)
         (extra : nat),
    ks = done ++ todo ->
    let frame := {| value := VObject o; xml := s;
                    index := Some (List.length done); keys := Some ks |} in
    exists doc',
      loop (List.fold_right
              (fun key n =>
                 S (cost_of (List.map (fun kv => (fst kv, turns (snd kv))) o)
                            key + n)) O todo + extra)
           (fst (advance doc frame below)) (snd (advance doc frame below))
      = loop extra doc' below.
Proof.
  intros Hu Hall todo.
  induction todo as [|key todo IH]; intros done doc s extra Hks frame.
  - exists doc. unfold advance, getNextItemsFrame, frame. cbn [index keys value].
    rewrite Hks, List.app_nil_r, Nat.ltb_irrefl. reflexivity.
  - assert (Hlt : Nat.ltb (List.length done) (List.length ks) = true).
    { apply Nat.ltb_lt. rewrite Hks, List.length_app. simpl. lia. }
    assert (Hkey : List.nth (List.length done) ks "" = key).
    { rewrite Hks, List.app_nth2 by lia. rewrite Nat.sub_diag. reflexivity. }
    unfold advance, getNextItemsFrame, frame. cbn [index keys value xml].
    rewrite Hlt, Hkey.
    destruct (Xml.ele "member" doc s) as [doc1 m].
    destruct (Xml.ele "name" doc1 m) as [doc2 member].
    destruct (Xml.txt key doc2 member) as [doc3 same].
    cbn [fst snd List.fold_right]. rewrite cost_of_property.
    set (next := {| value := VObject o; xml := s;
                    index := Some (S (List.length done)); keys := Some ks |}).
    set (rest := List.fold_right
                   (fun key n =>
                      S (cost_of
                           (List.map (fun kv => (fst kv, turns (snd kv))) o)
                           key + n)) O todo).
    destruct (property_worked_off o key Hu Hall doc3 member (next :: below)
                (S (rest + extra))) as [doc4 Hdoc4].
    replace (S (turns (property (VObject o) key) + rest) + extra)%nat
      with (turns (property (VObject o) key) + S (rest + extra))%nat by lia.
    rewrite Hdoc4, loop_turn.
    destruct (IH (done ++ [key]) doc4 s extra) as [doc5 Hdoc5].
    { rewrite <- List.app_assoc. exact Hks. }
    exists doc5. rewrite <- Hdoc5.
    rewrite List.length_app, Nat.add_1_r. reflexivity.
Qed.

Lemma scalar_worked_off (v : Value) :
  match v with VArray _ | VObject _ => False | _ => True end ->
  worked v.
Proof.
  intros Hscalar doc at_node below extra.
  destruct v; try contradiction;
    (eexists; cbn [turns Nat.add]; rewrite loop_turn;
     unfold Serializer.turn; cbn [index new_frame value xml fst snd];
     reflexivity).
Qed.

Lemma every_value_worked_off (v : Value) : worked v.
Proof.
  induction v using Value_nested_ind;
    try (apply scalar_worked_off; exact I).
  - (* an array *)
    intros doc at_node below extra.
    cbn [turns Nat.add]. rewrite loop_turn.
    unfold Serializer.turn at 1 2. cbn [index new_frame value xml keys].
    destruct (Xml.ele "value" doc at_node) as [doc1 valueNode].
    destruct (Xml.ele "array" doc1 valueNode) as [doc2 a].
    destruct (Xml.ele "data" doc2 a) as [doc3 data].
    apply (array_items_worked_off items data below H0 items [] doc3 extra).
    reflexivity.
  - (* a struct *)
    intros doc at_node below extra.
    cbn [turns Nat.add]. rewrite loop_turn.
    unfold Serializer.turn at 1 2. cbn [index new_frame value xml keys].
    destruct (Xml.ele "value" doc at_node) as [doc1 valueNode].
    destruct (Xml.ele "struct" doc1 valueNode) as [doc2 s].
    apply (struct_members_worked_off o (Obj.keys o) below
             (scalar_worked_off VUndefined I) H0 (Obj.keys o) [] doc2 s extra).
    reflexivity.
Qed.

End Traversal.

(** The iterative traversal ends on every value, however deep: run for
    the turns of the value, the loop of [serializeValue] empties its
    stack and returns the document. *)
Theorem serializeValue_ends `{Host} (builder : Xml.Builder)
        (opts : DateFormatter.DateFormatterOptions)
        (v : Value) (doc : Xml.node) (xml : Xml.handle) :
  exists doc',
    Serializer.serializeValue builder opts v doc xml = Some doc'.
Proof.
  unfold Serializer.serializeValue.
  destruct (every_value_worked_off builder opts v doc xml [] O) as [doc' Hdoc'].
  exists doc'. rewrite Nat.add_0_r in Hdoc'. rewrite Hdoc'. reflexivity.
Qed.

(* ===================================================================== *)
(** * One outcome per document *)
(* ===================================================================== *)

Lemma onDone_pending `{Host} (cb : Deserializer.Callback)
      (st : Deserializer.State) :
  pending cb st ->
  exists o, Deserializer.delivered (Deserializer.onDone st) = [o].
Proof.
  intros (Hcb & Herr & Hdel). unfold Deserializer.onDone. rewrite Herr.
  assert (Hinvoke : forall err r,
    exists o, Deserializer.delivered (Deserializer.invoke err r st) = [o]).
  { intros err r. unfold Deserializer.invoke. rewrite Hcb.
    destruct cb; eexists; simpl; rewrite Hdel; reflexivity. }
  destruct (_ || _); [apply Hinvoke|].
  destruct (Deserializer.responseType st) as [[]|]; apply Hinvoke.
Qed.


(* ===================================================================== *)
(** * Encoded datetimes *)
(* ===================================================================== *)

Lemma append_assoc (a b c : string) : (a +:+ b) +:+ c = a +:+ (b +:+ c).
Proof.
  induction a as [|x a IH]; [reflexivity|].
  change (String x ((a +:+ b) +:+ c) = String x (a +:+ (b +:+ c))).
  rewrite IH. reflexivity.
Qed.

Lemma join_last (l : list string) (z : string) :
  Str.join "" (l ++ [z]) = Str.join "" l +:+ z.
Proof.
  induction l as [|x [|y l] IH]; [reflexivity|reflexivity|].
  change (Str.join "" ((x :: y :: l) ++ [z]))
    with (x +:+ "" +:+ Str.join "" ((y :: l) ++ [z])).
  rewrite IH.
  change (Str.join "" (x :: y :: l)) with (x +:+ "" +:+ Str.join "" (y :: l)).
  rewrite !append_assoc. reflexivity.
Qed.

(** With [local] switched off the encoded text always ends in [Z],
    whatever the other options and the date. *)
Theorem encodeIso8601_utc_suffix `{Host}
        (opts : DateFormatter.DateFormatterOptions) (date : JSDate) :
  DateFormatter.local opts = false ->
  exists body, DateFormatter.encodeIso8601 opts date = body +:+ "Z".
Proof.
  intros Hlocal. unfold DateFormatter.encodeIso8601. rewrite Hlocal.
  match goal with
  | |- exists body, Str.join "" [?a; ?b; ?c; ?d; "Z"] = _ =>
      exists (Str.join "" [a; b; c; d]);
      exact (join_last [a; b; c; d] "Z")
  end.
Qed.

Lemma encodeIso8601_utc_suffix_witness :
  exists body,
    DateFormatter.encodeIso8601 (H := UTC.host)
      {| DateFormatter.colons := true; DateFormatter.hyphens := true;
         DateFormatter.local := false; DateFormatter.ms := true;
         DateFormatter.offset := true |} (Some 1704164645123)
    = body +:+ "Z".
Proof.
  apply (encodeIso8601_utc_suffix (H := UTC.host)
           {| DateFormatter.colons := true; DateFormatter.hyphens := true;
              DateFormatter.local := false; DateFormatter.ms := true;
              DateFormatter.offset := true |} (Some 1704164645123)).
  reflexivity.
Defined.


Example encode_utc_all_options :
  DateFormatter.encodeIso8601 (H := UTC.host)
    {| DateFormatter.colons := true; DateFormatter.hyphens := true;
       DateFormatter.local := false; DateFormatter.ms := true;
       DateFormatter.offset := true |} (Some 1704164645123)
  = "2024-01-02T03:04:05.123Z".
Proof. vm_compute. reflexivity. Qed.

(* ===================================================================== *)
(** * Writing under a node of the document *)
(* ===================================================================== *)

Lemma update_nth_at (f g : Xml.node -> Xml.node) (l : list Xml.node) :
  forall (i : nat) (c : Xml.node),
    List.nth_error l i = Some c -> f c = g c ->
    Xml.update_nth i f l = Xml.update_nth i g l.
Proof.
  induction l as [|x l IH]; intros [|i] c Hnth Hfg; simpl in *;
    try discriminate.
  - inversion Hnth; subst. rewrite Hfg. reflexivity.
  - rewrite (IH i c Hnth Hfg). reflexivity.
Qed.

Lemma update_nth_twice (f g : Xml.node -> Xml.node) (l : list Xml.node) :
  forall i : nat,
    Xml.update_nth i g (Xml.update_nth i f l)
    = Xml.update_nth i (fun c => g (f c)) l.
Proof.
  induction l as [|x l IH]; intros [|i]; simpl; try reflexivity.
  rewrite IH. reflexivity.
Qed.

Lemma nth_error_update_nth (f : Xml.node -> Xml.node) (l : list Xml.node) :
  forall (i : nat) (c : Xml.node),
    List.nth_error l i = Some c ->
    List.nth_error (Xml.update_nth i f l) i = Some (f c).
Proof.
  induction l as [|x l IH]; intros [|i] c Hnth; simpl in *;
    try discriminate.
  - inversion Hnth; subst. reflexivity.
  - apply IH. exact Hnth.
Qed.

Lemma update_nth_last (f : Xml.node -> Xml.node) (l : list Xml.node)
      (x : Xml.node) :
  Xml.update_nth (List.length l) f (l ++ [x]) = l ++ [f x].
Proof. induction l as [|y l IH]; simpl; [reflexivity|]. rewrite IH. reflexivity. Qed.

Lemma nth_error_last (l : list Xml.node) (x : Xml.node) :
  List.nth_error (l ++ [x]) (List.length l) = Some x.
Proof. induction l as [|y l IH]; simpl; [reflexivity|exact IH]. Qed.

(** A handle below a freshly grafted child reads that child. *)
Lemma at_handle_graft (h : Xml.handle) :
  forall (doc : Xml.node) (nm : string) (cs : list Xml.node)
         (x : Xml.node) (p : Xml.handle),
    Xml.at_handle h doc = Some (Xml.Element nm cs) ->
    Xml.at_handle (h ++ List.length cs :: p) (Document.graft h x doc)
    = Xml.at_handle p x.
Proof.
  unfold Document.graft.
  induction h as [|i h IH]; intros doc nm cs x p Hat.
  - simpl in Hat. inversion Hat; subst. simpl.
    rewrite nth_error_last. reflexivity.
  - destruct doc as [dn dcs| |]; simpl in Hat;
      try (destruct i; discriminate Hat).
    destruct (List.nth_error dcs i) as [c|] eqn:Hnth; [|discriminate Hat].
    simpl.
    rewrite (nth_error_update_nth _ dcs i c Hnth).
    apply (IH c nm cs x p Hat).
Qed.

(** An update below a freshly grafted child is an update of that child
    before it is grafted. *)
Lemma update_at_graft (h : Xml.handle) :
  forall (doc : Xml.node) (nm : string) (cs : list Xml.node)
         (x : Xml.node) (p : Xml.handle) (g : Xml.node -> Xml.node),
    Xml.at_handle h doc = Some (Xml.Element nm cs) ->
    Xml.update_at (h ++ List.length cs :: p) g (Document.graft h x doc)
    = Document.graft h (Xml.update_at p g x) doc.
Proof.
  unfold Document.graft.
  induction h as [|i h IH]; intros doc nm cs x p g Hat.
  - simpl in Hat. inversion Hat; subst. simpl.
    rewrite update_nth_last. reflexivity.
  - destruct doc as [dn dcs| |]; simpl in Hat;
      try (destruct i; discriminate Hat).
    destruct (List.nth_error dcs i) as [c|] eqn:Hnth; [|discriminate Hat].
    simpl. f_equal. rewrite update_nth_twice.
    apply (update_nth_at _ _ dcs i c Hnth).
    apply (IH c nm cs x p g Hat).
Qed.

Section Under.

Variables (h : Xml.handle) (doc : Xml.node) (nm : string)
          (cs : list Xml.node).
Hypothesis Hat : Xml.at_handle h doc = Some (Xml.Element nm cs).

Lemma ele_top (name : string) :
  Xml.ele name doc h
  = (Document.graft h (Xml.Element name []) doc, h ++ [List.length cs]).
Proof. unfold Xml.ele, Xml.child_count. rewrite Hat. reflexivity. Qed.

Lemma child_count_under (x : Xml.node) (p : Xml.handle) :
  Xml.child_count (Document.graft h x doc) (h ++ List.length cs :: p)
  = Xml.child_count x p.
Proof.
  unfold Xml.child_count. rewrite (at_handle_graft h doc nm cs x p Hat).
  reflexivity.
Qed.

Lemma ele_under (name : string) (x : Xml.node) (p : Xml.handle) :
  Xml.ele name (Document.graft h x doc) (h ++ List.length cs :: p)
  = (Document.graft h (fst (Xml.ele name x p)) doc,
     h ++ List.length cs :: snd (Xml.ele name x p)).
Proof.
  unfold Xml.ele. rewrite child_count_under.
  rewrite (update_at_graft h doc nm cs x p _ Hat).
  cbn [fst snd]. rewrite <- List.app_assoc. reflexivity.
Qed.

Lemma txt_under (text : string) (x : Xml.node) (p : Xml.handle) :
  Xml.txt text (Document.graft h x doc) (h ++ List.length cs :: p)
  = (Document.graft h (fst (Xml.txt text x p)) doc,
     h ++ List.length cs :: snd (Xml.txt text x p)).
Proof.
  unfold Xml.txt. rewrite (update_at_graft h doc nm cs x p _ Hat).
  reflexivity.
Qed.

Lemma cdata_under (text : string) (x : Xml.node) (p : Xml.handle) :
  Xml.cdata text (Document.graft h x doc) (h ++ List.length cs :: p)
  = (Document.graft h (fst (Xml.cdata text x p)) doc,
     h ++ List.length cs :: snd (Xml.cdata text x p)).
Proof.
  unfold Xml.cdata. rewrite (update_at_graft h doc nm cs x p _ Hat).
  reflexivity.
Qed.

(** An element with one text child, written under the grafted node. *)
Lemma ele_txt_under (name text : string) (x : Xml.node) (p : Xml.handle) :
  (let '(doc1, e) := Xml.ele name (Document.graft h x doc)
                             (h ++ List.length cs :: p) in
   fst (Xml.txt text doc1 e))
  = Document.graft h
      (let '(x1, e) := Xml.ele name x p in fst (Xml.txt text x1 e)) doc.
Proof.
  rewrite ele_under. destruct (Xml.ele name x p) as [x1 e]. cbn [fst snd].
  rewrite txt_under. reflexivity.
Qed.

Lemma ele_cdata_under (name text : string) (x : Xml.node) (p : Xml.handle) :
  (let '(doc1, e) := Xml.ele name (Document.graft h x doc)
                             (h ++ List.length cs :: p) in
   fst (Xml.cdata text doc1 e))
  = Document.graft h
      (let '(x1, e) := Xml.ele name x p in fst (Xml.cdata text x1 e)) doc.
Proof.
  rewrite ele_under. destruct (Xml.ele name x p) as [x1 e]. cbn [fst snd].
  rewrite cdata_under. reflexivity.
Qed.

End Under.

(* ===================================================================== *)
(** * The traversal writes the document of the value *)
(* ===================================================================== *)

Section Written.

Context `{Host}.
Variable builder : Xml.Builder.
Variable opts : DateFormatter.DateFormatterOptions.

Local Abbreviation loop := (Serializer.loop builder opts).
Local Abbreviation value_node := (Document.value_node builder opts).

Local Abbreviation written := (written builder opts).

Lemma node_of_property (o : Obj.t) (key : string) :
  Document.node_of (List.map (fun kv => (fst kv, value_node (snd kv))) o) key
  = value_node (Serializer.property (VObject o) key).
Proof.
  unfold Serializer.property.
  induction o as [|[k v] o IH]; simpl; [reflexivity|].
  destruct (String.eqb k key); [reflexivity|exact IH].
Qed.

Lemma property_written (o : Obj.t) (key : string) :
  written VUndefined ->
  List.Forall (fun kv => written (snd kv)) o ->
  written (Serializer.property (VObject o) key).
Proof.
  intros Hu Hall. unfold Serializer.property.
  induction Hall as [|[k v] o Hv Hall IH]; simpl; [exact Hu|].
  destruct (String.eqb k key); [exact Hv|exact IH].
Qed.

Lemma appendString_alone (s : string) :
  Serializer.appendString builder s (Xml.Element "value" []) []
  = Xml.Element "value"
      [Xml.Element "string" (Document.string_children builder s)].
Proof.
  unfold Serializer.appendString, Document.string_children.
  rewrite length_zero_is_empty.
  destruct (Str.is_empty s); [reflexivity|].
  destruct (Regex.test Serializer.illegalChars s); [reflexivity|].
  cbn [negb].
  destruct (Xml.has_d builder); [reflexivity|].
  destruct (Xml.has_cdata builder); reflexivity.
Qed.

Lemma appendString_under (s : string) (h : Xml.handle) (doc : Xml.node)
      (nm : string) (cs : list Xml.node) (x : Xml.node) (p : Xml.handle) :
  Xml.at_handle h doc = Some (Xml.Element nm cs) ->
  Serializer.appendString builder s (Document.graft h x doc)
                          (h ++ List.length cs :: p)
  = Document.graft h (Serializer.appendString builder s x p) doc.
Proof.
  intros Hat. unfold Serializer.appendString.
  destruct (Nat.eqb (String.length s) 0).
  - rewrite (ele_under h doc nm cs Hat). reflexivity.
  - destruct (negb (Regex.test Serializer.illegalChars s)).
    + destruct (Xml.has_d builder);
        [apply (ele_cdata_under h doc nm cs Hat)|].
      destruct (Xml.has_cdata builder);
        [apply (ele_cdata_under h doc nm cs Hat)|].
      apply (ele_txt_under h doc nm cs Hat).
    + apply (ele_txt_under h doc nm cs Hat).
Qed.

(** The values that are written in one turn. *)
Lemma scalar_written (v : Value) :
  match v with VArray _ | VObject _ => False | _ => True end ->
  written v.
Proof.
  intros Hscalar doc h nm cs below extra Hat.
  destruct v; try contradiction;
    cbn [Serializer.turns Nat.add]; rewrite loop_turn;
    unfold Serializer.turn;
    cbn [Serializer.index Serializer.new_frame Serializer.value Serializer.xml];
    rewrite (ele_top h doc nm cs Hat); cbn [fst snd]; f_equal.
  - (* null *)
    rewrite (ele_under h doc nm cs Hat "nil" (Xml.Element "value" []) []).
    reflexivity.
  - (* boolean *)
    unfold Serializer.appendBoolean.
    rewrite (ele_txt_under h doc nm cs Hat). reflexivity.
  - (* number *)
    unfold Serializer.appendNumber. cbn [Document.value_node].
    destruct (Num.is_integral n);
      rewrite (ele_txt_under h doc nm cs Hat); reflexivity.
  - (* string *)
    rewrite (appendString_under s h doc nm cs _ [] Hat), appendString_alone.
    reflexivity.
  - (* date *)
    unfold Serializer.appendDatetime.
    rewrite (ele_txt_under h doc nm cs Hat). reflexivity.
  - (* buffer *)
    unfold Serializer.appendBuffer.
    rewrite (ele_txt_under h doc nm cs Hat). reflexivity.
  - (* custom type *)
    unfold CustomType.serialize.
    rewrite (ele_txt_under h doc nm cs Hat). reflexivity.
Qed.

(** The items of an array from position [length done] on. *)
Lemma array_items_written (items : list Value) (h : Xml.handle)
      (doc : Xml.node) (nm : string) (cs : list Xml.node)
      (below : list Serializer.Frame) :
  Xml.at_handle h doc = Some (Xml.Element nm cs) ->
  List.Forall written items ->
  let array_doc ds :=
    Document.graft h
      (Xml.Element "value" [Xml.Element "array" [Xml.Element "data" ds]])
      doc in
  forall (todo done : list Value) (extra : nat),
    items = done ++ todo ->
    let frame := {| Serializer.value := VArray items;
                    Serializer.xml := h ++ List.length cs :: [0; 0]%nat;
                    Serializer.index := Some (List.length done);
                    Serializer.keys := None |} in
    loop (List.fold_right (fun x n => S (Serializer.turns x + n)) O todo
          + extra)
         (fst (Serializer.advance (array_doc (List.map value_node done))
                                  frame below))
         (snd (Serializer.advance (array_doc (List.map value_node done))
                                  frame below))
    = loop extra (array_doc (List.map value_node items)) below.
Proof.
  intros Hat Hall array_doc todo.
  induction todo as [|x todo IH]; intros done extra Hitems frame.
  - unfold Serializer.advance, Serializer.getNextItemsFrame, frame.
    cbn [Serializer.index Serializer.keys Serializer.value].
    cbn [Serializer.value_length].
    rewrite Hitems, List.app_nil_r, Nat.ltb_irrefl. reflexivity.
  - assert (Hlt : Nat.ltb (List.length done) (List.length items) = true).
    { apply Nat.ltb_lt. rewrite Hitems, List.length_app. simpl. lia. }
    assert (Hx : Serializer.element (VArray items) (List.length done) = x).
    { unfold Serializer.element. rewrite Hitems, List.app_nth2 by lia.
      rewrite Nat.sub_diag. reflexivity. }
    assert (Hwx : written x).
    { rewrite List.Forall_forall in Hall. apply Hall.
      rewrite Hitems. apply List.in_or_app. right. left. reflexivity. }
    unfold Serializer.advance, Serializer.getNextItemsFrame, frame.
    cbn [Serializer.index Serializer.keys Serializer.value Serializer.xml].
    cbn [Serializer.value_length]. rewrite Hlt, Hx.
    cbn [fst snd List.fold_right].
    set (next := {| Serializer.value := VArray items;
                    Serializer.xml := h ++ List.length cs :: [0; 0]%nat;
                    Serializer.index := Some (S (List.length done));
                    Serializer.keys := None |}).
    set (rest := List.fold_right
                   (fun x n => S (Serializer.turns x + n)) O todo).
    replace (S (Serializer.turns x + rest) + extra)%nat
      with (Serializer.turns x + S (rest + extra))%nat by lia.
    assert (Hdata :
      Xml.at_handle (h ++ List.length cs :: [0; 0]%nat)
                    (array_doc (List.map value_node done))
      = Some (Xml.Element "data" (List.map value_node done))).
    { unfold array_doc. rewrite (at_handle_graft h doc nm cs _ _ Hat).
      reflexivity. }
    rewrite (Hwx _ _ _ _ (next :: below) (S (rest + extra)) Hdata).
    rewrite loop_turn.
    assert (Hdoc :
      Document.graft (h ++ List.length cs :: [0; 0]%nat) (value_node x)
                     (array_doc (List.map value_node done))
      = array_doc (List.map value_node (done ++ [x]))).
    { unfold array_doc, Document.graft at 1.
      rewrite (update_at_graft h doc nm cs _ _ _ Hat).
      rewrite List.map_app. reflexivity. }
    rewrite Hdoc.
    unfold Serializer.turn. cbn [Serializer.index next].
    specialize (IH (done ++ [x]) extra).
    rewrite List.length_app, Nat.add_1_r in IH.
    apply IH. rewrite <- List.app_assoc. exact Hitems.
Qed.

Lemma member_alone (ms : list Xml.node) (key : string) :
  Xml.ele "member" (struct_value ms) [0%nat]
  = (struct_value (ms ++ [Xml.Element "member" []]),
     [0%nat; List.length ms]).
Proof. reflexivity. Qed.

Lemma name_alone (ms : list Xml.node) :
  Xml.ele "name" (struct_value (ms ++ [Xml.Element "member" []]))
          [0%nat; List.length ms]
  = (struct_value (ms ++ [Xml.Element "member" [Xml.Element "name" []]]),
     [0%nat; List.length ms; 0%nat]).
Proof.
  unfold Xml.ele, Xml.child_count, struct_value.
  cbn [Xml.at_handle Xml.children_of List.nth_error Xml.update_at
       Xml.update_nth].
  rewrite nth_error_last, update_nth_last. reflexivity.
Qed.

Lemma key_alone (ms : list Xml.node) (key : string) :
  Xml.txt key
    (struct_value (ms ++ [Xml.Element "member" [Xml.Element "name" []]]))
    [0%nat; List.length ms; 0%nat]
  = (struct_value
       (ms ++ [Xml.Element "member" [Xml.Element "name" [Xml.Text key]]]),
     [0%nat; List.length ms; 0%nat]).
Proof.
  unfold Xml.txt, struct_value.
  cbn [Xml.update_at Xml.update_nth].
  rewrite update_nth_last. reflexivity.
Qed.

Lemma name_handle_alone (ms : list Xml.node) (key : string) :
  Xml.at_handle [0%nat; List.length ms; 0%nat]
    (struct_value
       (ms ++ [Xml.Element "member" [Xml.Element "name" [Xml.Text key]]]))
  = Some (Xml.Element "name" [Xml.Text key]).
Proof.
  unfold struct_value.
  cbn [Xml.at_handle Xml.children_of List.nth_error].
  rewrite nth_error_last. reflexivity.
Qed.

Lemma child_alone (ms : list Xml.node) (key : string) (y : Xml.node) :
  Xml.update_at [0%nat; List.length ms; 0%nat] (Xml.append_child y)
    (struct_value
       (ms ++ [Xml.Element "member" [Xml.Element "name" [Xml.Text key]]]))
  = struct_value (ms ++ [member_node key y]).
Proof.
  unfold struct_value, member_node.
  cbn [Xml.update_at Xml.update_nth].
  rewrite update_nth_last. reflexivity.
Qed.

(** The members of a struct from position [length done] of its keys on. *)
Lemma struct_members_written (o : Obj.t) (ks : list string)
      (h : Xml.handle) (doc : Xml.node) (nm : string) (cs : list Xml.node)
      (below : list Serializer.Frame) :
  Xml.at_handle h doc = Some (Xml.Element nm cs) ->
  written VUndefined ->
  List.Forall (fun kv => written (snd kv)) o ->
  let member key :=
    member_node key (value_node (Serializer.property (VObject o) key)) in
  let struct_doc ms := Document.graft h (struct_value ms) doc in
  forall (todo done : list string) (extra : nat),
    ks = done ++ todo ->
    let frame := {| Serializer.value := VObject o;
                    Serializer.xml := h ++ List.length cs :: [0%nat];
                    Serializer.index := Some (List.length done);
                    Serializer.keys := Some ks |} in
    loop (List.fold_right
            (fun key n =>
               S (Serializer.cost_of
                    (List.map (fun kv => (fst kv, Serializer.turns (snd kv))) o)
                    key + n)) O todo + extra)
         (fst (Serializer.advance
                 (struct_doc (List.map member done)) frame below))
         (snd (Serializer.advance
                 (struct_doc (List.map member done)) frame below))
    = loop extra (struct_doc (List.map member ks)) below.
Proof.
  intros Hat Hu Hall member struct_doc todo.
  induction todo as [|key todo IH]; intros done extra Hks frame.
  - unfold Serializer.advance, Serializer.getNextItemsFrame, frame.
    cbn [Serializer.index Serializer.keys Serializer.value].
    rewrite Hks, List.app_nil_r, Nat.ltb_irrefl. reflexivity.
  - assert (Hlt : Nat.ltb (List.length done) (List.length ks) = true).
    { apply Nat.ltb_lt. rewrite Hks, List.length_app. simpl. lia. }
    assert (Hkey : List.nth (List.length done) ks "" = key).
    { rewrite Hks, List.app_nth2 by lia. rewrite Nat.sub_diag. reflexivity. }
    unfold Serializer.advance, Serializer.getNextItemsFrame, frame.
    cbn [Serializer.index Serializer.keys Serializer.value Serializer.xml].
    rewrite Hlt, Hkey.
    set (ms := List.map member done).
    assert (Hlen : List.length ms = List.length done)
      by apply List.length_map.
    unfold struct_doc at 1 2.
    rewrite (ele_under h doc nm cs Hat "member" (struct_value ms) [0%nat]).
    rewrite member_alone by exact key. cbn [fst snd].
    rewrite (ele_under h doc nm cs Hat "name" _ [0%nat; List.length ms]).
    rewrite name_alone. cbn [fst snd].
    rewrite (txt_under h doc nm cs Hat key _ [0%nat; List.length ms; 0%nat]).
    rewrite key_alone. cbn [fst snd List.fold_right].
    rewrite cost_of_property.
    set (next := {| Serializer.value := VObject o;
                    Serializer.xml := h ++ List.length cs :: [0%nat];
                    Serializer.index := Some (S (List.length done));
                    Serializer.keys := Some ks |}).
    set (rest := List.fold_right
                   (fun key n =>
                      S (Serializer.cost_of
                           (List.map
                              (fun kv => (fst kv, Serializer.turns (snd kv))) o)
                           key + n)) O todo).
    set (child := Serializer.property (VObject o) key).
    replace (S (Serializer.turns child + rest) + extra)%nat
      with (Serializer.turns child + S (rest + extra))%nat by lia.
    assert (Hname :
      Xml.at_handle (h ++ List.length cs :: [0%nat; List.length ms; 0%nat])
        (Document.graft h
           (struct_value
              (ms ++ [Xml.Element "member"
                        [Xml.Element "name" [Xml.Text key]]])) doc)
      = Some (Xml.Element "name" [Xml.Text key])).
    { rewrite (at_handle_graft h doc nm cs _ _ Hat).
      apply name_handle_alone. }
    assert (Hchild : written child)
      by exact (property_written o key Hu Hall).
    rewrite (Hchild _ _ _ _ (next :: below) (S (rest + extra)) Hname).
    rewrite loop_turn.
    assert (Hdoc :
      Document.graft
        (h ++ List.length cs :: [0%nat; List.length ms; 0%nat])
        (value_node child)
        (Document.graft h
           (struct_value
              (ms ++ [Xml.Element "member"
                        [Xml.Element "name" [Xml.Text key]]])) doc)
      = struct_doc (List.map member (done ++ [key]))).
    { unfold struct_doc, Document.graft at 1.
      change (length [Xml.Text key]) with 1%nat.
      rewrite (update_at_graft h doc nm cs _
                 [0%nat; List.length ms; 0%nat] _ Hat).
      rewrite child_alone, List.map_app. reflexivity. }
    change (length [Xml.Text key]) with 1%nat in Hdoc.
    rewrite Hdoc.
    unfold Serializer.turn. cbn [Serializer.index next].
    specialize (IH (done ++ [key]) extra).
    rewrite List.length_app, Nat.add_1_r in IH.
    apply IH. rewrite <- List.app_assoc. exact Hks.
Qed.

Lemma every_value_written (v : Value) : written v.
Proof.
  induction v using Value_nested_ind;
    try (apply scalar_written; exact I).
  - (* an array *)
    intros doc h nm cs below extra Hat.
    cbn [Serializer.turns Nat.add]. rewrite loop_turn.
    unfold Serializer.turn at 1 2.
    cbn [Serializer.index Serializer.new_frame Serializer.value
         Serializer.xml Serializer.keys].
    rewrite (ele_top h doc nm cs Hat "value").
    rewrite (ele_under h doc nm cs Hat "array" (Xml.Element "value" []) []).
    cbn [fst snd].
    change (Xml.ele "array" (Xml.Element "value" []) [])
      with (Xml.Element "value" [Xml.Element "array" []], [0%nat]).
    cbn [fst snd].
    rewrite (ele_under h doc nm cs Hat "data" _ [0%nat]).
    change (Xml.ele "data" (Xml.Element "value" [Xml.Element "array" []])
                    [0%nat])
      with (Xml.Element "value"
              [Xml.Element "array" [Xml.Element "data" []]], [0%nat; 0%nat]).
    cbn [fst snd].
    exact (array_items_written items h doc nm cs below Hat H0 items []
             extra eq_refl).
  - (* a struct *)
    intros doc h nm cs below extra Hat.
    cbn [Serializer.turns Nat.add]. rewrite loop_turn.
    unfold Serializer.turn at 1 2.
    cbn [Serializer.index Serializer.new_frame Serializer.value
         Serializer.xml Serializer.keys].
    rewrite (ele_top h doc nm cs Hat "value").
    rewrite (ele_under h doc nm cs Hat "struct" (Xml.Element "value" []) []).
    cbn [fst snd].
    change (Xml.ele "struct" (Xml.Element "value" []) [])
      with (struct_value [], [0%nat]).
    cbn [fst snd].
    etransitivity.
    { exact (struct_members_written o (Obj.keys o) h doc nm cs below Hat
               (scalar_written VUndefined I) H0 (Obj.keys o) [] extra
               eq_refl). }
    f_equal. f_equal. cbn [Document.value_node]. unfold struct_value.
    do 3 f_equal.
    apply List.map_ext. intros key. unfold member_node.
    rewrite node_of_property. reflexivity.
Qed.

End Written.

Lemma value_written_under `{Host} (builder : Xml.Builder)
      (opts : DateFormatter.DateFormatterOptions)
      (v : Value) (doc : Xml.node) (h : Xml.handle)
      (nm : string) (cs : list Xml.node) :
  Xml.at_handle h doc = Some (Xml.Element nm cs) ->
  Serializer.serializeValue builder opts v doc h
  = Some (Document.graft h (Document.value_node builder opts v) doc).
Proof.
  intros Hat. unfold Serializer.serializeValue.
  pose proof (every_value_written builder opts v doc h nm cs [] O Hat) as Hw.
  rewrite Nat.add_0_r in Hw. rewrite Hw. reflexivity.
Qed.



Lemma serializeParams_writes `{Host} (builder : Xml.Builder)
      (opts : DateFormatter.DateFormatterOptions) (method : string)
      (params : list Value) :
  forall done : list Xml.node,
    Serializer.serializeParams builder opts params
      (call_document method done) [1%nat]
    = Some (call_document method
              (done ++ List.map (param_node builder opts) params)).
Proof.
  induction params as [|p params IH]; intros done.
  - simpl. rewrite List.app_nil_r. reflexivity.
  - cbn [Serializer.serializeParams].
    change (Xml.ele "param" (call_document method done) [1%nat])
      with (call_document method (done ++ [Xml.Element "param" []]),
            [1%nat; List.length done]).
    cbn [fst snd].
    rewrite (value_written_under builder opts p _ [1%nat; List.length done]
               "param" []).
    + assert (Hdoc :
        Document.graft [1%nat; List.length done]
          (Document.value_node builder opts p)
          (call_document method (done ++ [Xml.Element "param" []]))
        = call_document method (done ++ [param_node builder opts p])).
      { unfold Document.graft, call_document, param_node.
        cbn [Xml.update_at Xml.update_nth].
        rewrite update_nth_last. reflexivity. }
      rewrite Hdoc, IH, <- List.app_assoc. reflexivity.
    + unfold call_document.
      cbn [Xml.at_handle Xml.children_of List.nth_error].
      rewrite nth_error_last. reflexivity.
Qed.

Lemma call_written `{Host} (builder : Xml.Builder)
      (opts : DateFormatter.DateFormatterOptions)
      (method : string) (params : list Value) :
  Serializer.serializeMethodCall builder opts method params
  = Some (call_document method (List.map (param_node builder opts) params)).
Proof.
  unfold Serializer.serializeMethodCall.
  exact (serializeParams_writes builder opts method params []).
Qed.

Lemma response_written `{Host} (builder : Xml.Builder)
      (opts : DateFormatter.DateFormatterOptions) (result : Value) :
  Serializer.serializeMethodResponse builder opts result
  = Some (response_document (Document.value_node builder opts result)).
Proof.
  unfold Serializer.serializeMethodResponse.
  change (Xml.create "methodResponse")
    with (Xml.Element "methodResponse" [], @nil nat).
  cbn [fst snd].
  exact (value_written_under builder opts result
           (Xml.Element "methodResponse"
              [Xml.Element "params" [Xml.Element "param" []]])
           [0%nat; 0%nat] "param" [] eq_refl).
Qed.

Lemma fault_written `{Host} (builder : Xml.Builder)
      (opts : DateFormatter.DateFormatterOptions) (fault : Value) :
  Serializer.serializeFault builder opts fault
  = Some (fault_document (Document.value_node builder opts fault)).
Proof.
  unfold Serializer.serializeFault.
  exact (value_written_under builder opts fault
           (Xml.Element "methodResponse" [Xml.Element "fault" []])
           [0%nat] "fault" [] eq_refl).
Qed.


(* ===================================================================== *)
(** * Base64: what is encoded decodes to the same bytes *)
(* ===================================================================== *)

Lemma in_all_bytes (b : Byte.byte) : In b all_bytes.
Proof.
  assert (Hex : List.existsb (Byte.eqb b) all_bytes = true)
    by (destruct b; vm_compute; reflexivity).
  apply List.existsb_exists in Hex as (x & Hin & Heq).
  apply Byte.byte_dec_bl in Heq. subst x. exact Hin.
Qed.

Lemma every_byte (P : Byte.byte -> bool) :
  List.forallb P all_bytes = true -> forall b, P b = true.
Proof.
  intros Hall b. rewrite List.forallb_forall in Hall.
  apply Hall, in_all_bytes.
Qed.

Lemma every_two_bytes (P : Byte.byte -> Byte.byte -> bool) :
  List.forallb (fun a => List.forallb (P a) all_bytes) all_bytes = true ->
  forall a b, P a b = true.
Proof.
  intros Hall a b.
  apply (every_byte (P a)).
  apply (every_byte (fun a => List.forallb (P a) all_bytes) Hall).
Qed.

Lemma sextet1_reads_back a : reads_back (sextet1 a) = true.
Proof. revert a. apply every_byte. vm_compute. reflexivity. Qed.

Lemma sextet2_reads_back a b : reads_back (sextet2 a b) = true.
Proof. revert a b. apply every_two_bytes. vm_compute. reflexivity. Qed.

Lemma sextet3_reads_back b c : reads_back (sextet3 b c) = true.
Proof. revert b c. apply every_two_bytes. vm_compute. reflexivity. Qed.

Lemma sextet4_reads_back c : reads_back (sextet4 c) = true.
Proof. revert c. apply every_byte. vm_compute. reflexivity. Qed.

Lemma first_byte_back a b :
  Base64.byte_of (N.lor (N.shiftl (sextet1 a) 2) (N.shiftr (sextet2 a b) 4))
  = a.
Proof.
  apply Byte.byte_dec_bl. revert a b.
  apply (every_two_bytes
           (fun a b =>
              Byte.eqb
                (Base64.byte_of
                   (N.lor (N.shiftl (sextet1 a) 2) (N.shiftr (sextet2 a b) 4)))
                a)).
  vm_compute. reflexivity.
Qed.

Lemma second_byte_high a b :
  N.land (sextet2 a b) 15 = N.shiftr (Byte.to_N b) 4.
Proof.
  apply N.eqb_eq. revert a b.
  apply (every_two_bytes
           (fun a b =>
              N.eqb (N.land (sextet2 a b) 15) (N.shiftr (Byte.to_N b) 4))).
  vm_compute. reflexivity.
Qed.

Lemma second_byte_low b c :
  N.shiftr (sextet3 b c) 2 = N.land (Byte.to_N b) 15.
Proof.
  apply N.eqb_eq. revert b c.
  apply (every_two_bytes
           (fun b c =>
              N.eqb (N.shiftr (sextet3 b c) 2) (N.land (Byte.to_N b) 15))).
  vm_compute. reflexivity.
Qed.

Lemma nibbles_back b :
  Base64.byte_of
    (N.lor (N.shiftl (N.shiftr (Byte.to_N b) 4) 4) (N.land (Byte.to_N b) 15))
  = b.
Proof.
  apply Byte.byte_dec_bl. revert b.
  apply (every_byte
           (fun b =>
              Byte.eqb
                (Base64.byte_of
                   (N.lor (N.shiftl (N.shiftr (Byte.to_N b) 4) 4)
                          (N.land (Byte.to_N b) 15))) b)).
  vm_compute. reflexivity.
Qed.

Lemma third_byte_high b c :
  N.land (sextet3 b c) 3 = N.shiftr (Byte.to_N c) 6.
Proof.
  apply N.eqb_eq. revert b c.
  apply (every_two_bytes
           (fun b c =>
              N.eqb (N.land (sextet3 b c) 3) (N.shiftr (Byte.to_N c) 6))).
  vm_compute. reflexivity.
Qed.

Lemma third_byte_back c :
  Base64.byte_of (N.lor (N.shiftl (N.shiftr (Byte.to_N c) 6) 6) (sextet4 c))
  = c.
Proof.
  apply Byte.byte_dec_bl. revert c.
  apply (every_byte
           (fun c =>
              Byte.eqb
                (Base64.byte_of
                   (N.lor (N.shiftl (N.shiftr (Byte.to_N c) 6) 6) (sextet4 c)))
                c)).
  vm_compute. reflexivity.
Qed.

Lemma sextets_cons (v : N) (s : string) :
  reads_back v = true ->
  Base64.sextets (String (Base64.enc v) s) = v :: Base64.sextets s.
Proof.
  unfold reads_back. intros Hv. apply andb_true_iff in Hv as [Hne Hun].
  cbn [Base64.sextets].
  destruct (Chr.eqb (Base64.enc v) "="); [discriminate Hne|].
  destruct (Base64.unbase64 (Base64.enc v)) as [w|]; [|discriminate Hun].
  apply N.eqb_eq in Hun. subst w. reflexivity.
Qed.

Lemma decode_one a : Base64.decode (Base64.encode [a]) = [a].
Proof.
  assert (Hcheck : forall a,
    match Base64.decode (Base64.encode [a]) with
    | [x] => Byte.eqb x a
    | _ => false
    end = true).
  { apply every_byte. vm_compute. reflexivity. }
  specialize (Hcheck a).
  destruct (Base64.decode (Base64.encode [a])) as [|x [|y l]];
    try discriminate Hcheck.
  apply Byte.byte_dec_bl in Hcheck. subst x. reflexivity.
Qed.

Lemma decode_two a b : Base64.decode (Base64.encode [a; b]) = [a; b].
Proof.
  assert (Hcheck : forall a b,
    match Base64.decode (Base64.encode [a; b]) with
    | [x; y] => Byte.eqb x a && Byte.eqb y b
    | _ => false
    end = true).
  { apply (every_two_bytes
             (fun a b =>
                match Base64.decode (Base64.encode [a; b]) with
                | [x; y] => Byte.eqb x a && Byte.eqb y b
                | _ => false
                end)).
    vm_compute. reflexivity. }
  specialize (Hcheck a b).
  destruct (Base64.decode (Base64.encode [a; b])) as [|x [|y [|z l]]];
    try discriminate Hcheck.
  apply andb_true_iff in Hcheck as [Hx Hy].
  apply Byte.byte_dec_bl in Hx, Hy. subst x y. reflexivity.
Qed.

Lemma decode_three a b c rest :
  Base64.decode (Base64.encode (a :: b :: c :: rest))
  = a :: b :: c :: Base64.decode (Base64.encode rest).
Proof.
  unfold Base64.decode.
  change (Base64.encode (a :: b :: c :: rest))
    with (String (Base64.enc (sextet1 a))
            (String (Base64.enc (sextet2 a b))
               (String (Base64.enc (sextet3 b c))
                  (String (Base64.enc (sextet4 c)) (Base64.encode rest))))).
  rewrite (sextets_cons _ _ (sextet1_reads_back a)).
  rewrite (sextets_cons _ _ (sextet2_reads_back a b)).
  rewrite (sextets_cons _ _ (sextet3_reads_back b c)).
  rewrite (sextets_cons _ _ (sextet4_reads_back c)).
  cbn [Base64.pack].
  rewrite first_byte_back, second_byte_high, second_byte_low, nibbles_back,
          third_byte_high, third_byte_back.
  reflexivity.
Qed.

Lemma decode_encode (bytes : list Byte.byte) :
  Base64.decode (Base64.encode bytes) = bytes.
Proof.
  assert (Hthree : forall n (bs : list Byte.byte),
    (List.length bs <= n)%nat -> Base64.decode (Base64.encode bs) = bs).
  { induction n as [|n IH]; intros bs Hlen.
    - destruct bs; [reflexivity|simpl in Hlen; lia].
    - destruct bs as [|a [|b [|c rest]]].
      + reflexivity.
      + apply decode_one.
      + apply decode_two.
      + rewrite decode_three, IH; [reflexivity|].
        simpl in Hlen. lia. }
  apply (Hthree (List.length bytes)). lia.
Qed.

(** Decoding the base64 text of a buffer gives the buffer back, whatever
    its length. *)
Theorem base64_round_trip (bytes : list Byte.byte) :
  Base64.decode (Base64.encode bytes) = bytes.
Proof.
  exact (decode_encode bytes).
Qed.

(* ===================================================================== *)
(** * Printed integers *)
(* ===================================================================== *)

Lemma rev_from_append (s : string) : forall acc,
  Num.rev_from acc s = Num.rev_from "" s +:+ acc.
Proof.
  induction s as [|a s IH]; intros acc; cbn [Num.rev_from]; [reflexivity|].
  rewrite (IH (String a acc)), (IH (String a "")).
  rewrite append_assoc. reflexivity.
Qed.

Lemma rev_from_snoc (s : string) (a : ascii) :
  Num.rev_from "" (s +:+ String a "") = String a (Num.rev_from "" s).
Proof.
  induction s as [|b s IH].
  - reflexivity.
  - change (String b s +:+ String a "") with (String b (s +:+ String a "")).
    cbn [Num.rev_from].
    rewrite (rev_from_append (s +:+ String a "")), IH.
    rewrite (rev_from_append s (String b "")). reflexivity.
Qed.

Lemma rev_from_involutive (s : string) :
  Num.rev_from "" (Num.rev_from "" s) = s.
Proof.
  induction s as [|a s IH]; [reflexivity|].
  cbn [Num.rev_from]. rewrite (rev_from_append s (String a "")).
  rewrite rev_from_snoc, IH. reflexivity.
Qed.

Lemma append_length (a b : string) :
  String.length (a +:+ b) = (String.length a + String.length b)%nat.
Proof.
  induction a as [|x a IH]; [reflexivity|].
  change (String x a +:+ b) with (String x (a +:+ b)).
  cbn [String.length]. rewrite IH. reflexivity.
Qed.

Lemma rev_from_length (s : string) :
  String.length (Num.rev_from "" s) = String.length s.
Proof.
  induction s as [|a s IH]; [reflexivity|].
  cbn [Num.rev_from]. rewrite (rev_from_append s (String a "")).
  rewrite append_length, IH. simpl. lia.
Qed.

Lemma zeros_snoc (j : nat) :
  Num.zeros j +:+ "0" = String "0" (Num.zeros j).
Proof.
  induction j as [|j IH]; [reflexivity|].
  cbn [Num.zeros].
  change (String "0" (Num.zeros j) +:+ "0")
    with (String "0" (Num.zeros j +:+ "0")).
  rewrite IH. reflexivity.
Qed.

Lemma rev_from_zeros (j : nat) : Num.rev_from "" (Num.zeros j) = Num.zeros j.
Proof.
  induction j as [|j IH]; [reflexivity|].
  cbn [Num.zeros Num.rev_from].
  rewrite (rev_from_append (Num.zeros j) (String "0" "")), IH.
  apply zeros_snoc.
Qed.

Lemma drop_zeros_split (r : string) :
  exists j, r = Num.zeros j +:+ Num.drop_zeros r.
Proof.
  induction r as [|a r [j IH]].
  - exists O. reflexivity.
  - destruct (Ascii.eqb_spec a "0") as [->|Hne].
    + exists (S j). cbn [Num.drop_zeros Num.zeros].
      change (String "0" (Num.zeros j) +:+ Num.drop_zeros r)
        with (String "0" (Num.zeros j +:+ Num.drop_zeros r)).
      rewrite <- IH. reflexivity.
    + exists O.
      assert (Hd : Num.drop_zeros (String a r) = String a r).
      { destruct a as [[] [] [] [] [] [] [] []]; try reflexivity.
        contradiction Hne. reflexivity. }
      rewrite Hd. reflexivity.
Qed.

Lemma rev_from_concat (a b : string) :
  Num.rev_from "" (a +:+ b) = Num.rev_from "" b +:+ Num.rev_from "" a.
Proof.
  induction a as [|x a IH].
  - change ("" +:+ b) with b. cbn [Num.rev_from].
    induction (Num.rev_from "" b) as [|y s IHs]; [reflexivity|].
    change (String y s +:+ "") with (String y (s +:+ "")).
    rewrite <- IHs. reflexivity.
  - change (String x a +:+ b) with (String x (a +:+ b)).
    cbn [Num.rev_from]. rewrite (rev_from_append (a +:+ b)), IH.
    rewrite (rev_from_append a (String x "")), append_assoc. reflexivity.
Qed.

(** Stripping the trailing zeros and writing them again changes
    nothing. *)
Lemma strip_trailing_zeros_back (ds : string) :
  exists j,
    ds = Num.strip_trailing_zeros ds +:+ Num.zeros j
    /\ String.length ds
       = (String.length (Num.strip_trailing_zeros ds) + j)%nat.
Proof.
  unfold Num.strip_trailing_zeros.
  destruct (drop_zeros_split (Num.rev_from "" ds)) as [j Hj].
  exists j.
  assert (Hds : ds = Num.rev_from "" (Num.drop_zeros (Num.rev_from "" ds))
                     +:+ Num.zeros j).
  { rewrite <- (rev_from_involutive ds) at 1.
    rewrite Hj at 1. rewrite rev_from_concat, rev_from_zeros. reflexivity. }
  split; [exact Hds|].
  rewrite Hds at 1. rewrite append_length.
  assert (Hz : String.length (Num.zeros j) = j)
    by (clear; induction j; simpl; congruence).
  rewrite Hz. reflexivity.
Qed.

Lemma digits_fuel_length (fuel : nat) : forall (n : Z) (k : nat) (acc : string),
  0 <= n < 10 ^ Z.of_nat (S k) ->
  (String.length (Num.digits_fuel fuel n acc) <= S k + String.length acc)%nat.
Proof.
  induction fuel as [|fuel IH]; intros n k acc Hn; cbn [Num.digits_fuel].
  - lia.
  - destruct (Z.ltb_spec n 10) as [Hlt|Hge].
    + simpl. lia.
    + destruct k as [|k].
      * change (10 ^ Z.of_nat 1) with 10 in Hn. lia.
      * specialize (IH (n / 10) k (String (Chr.of_digit (n mod 10)) acc)).
        cbn [String.length] in IH.
        assert (Hq : 0 <= n / 10 < 10 ^ Z.of_nat (S k)).
        { split; [apply Z.div_pos; lia|].
          apply Z.div_lt_upper_bound; [lia|].
          rewrite (Nat2Z.inj_succ (S k)), Z.pow_succ_r in Hn by lia. lia. }
        specialize (IH Hq). lia.
Qed.

(** An integer of at most 21 digits is printed as its decimal numeral. *)
Lemma toString_numeral (z : Z) :
  Z.abs z < 10 ^ 21 ->
  Num.toString (Num.Fin z 0) = numeral z.
Proof.
  intros Hz.
  assert (Hpos : forall m, 0 < m < 10 ^ 21 ->
            Num.positive_toString (Num.digits m) 0 = Num.digits m).
  { intros m Hm. unfold Num.positive_toString.
    destruct (strip_trailing_zeros_back (Num.digits m)) as (j & Hds & Hlen).
    assert (Hl : (String.length (Num.digits m) <= 21)%nat).
    { assert (Hm' : 0 <= m < 10 ^ Z.of_nat 21)
        by (change (Z.of_nat 21) with 21; lia).
      pose proof (digits_fuel_length (S (Z.to_nat (Z.log2 m))) m 20 "" Hm')
        as Hd.
      cbn [String.length] in Hd. unfold Num.digits. lia. }
    set (s := Num.strip_trailing_zeros (Num.digits m)) in *.
    replace (Z.of_nat (String.length s) <=?
             Z.of_nat (String.length (Num.digits m)) - Z.of_nat 0)
      with true by (symmetry; apply Z.leb_le; lia).
    replace (Z.of_nat (String.length (Num.digits m)) - Z.of_nat 0 <=? 21)
      with true by (symmetry; apply Z.leb_le; lia).
    cbn [andb].
    replace (Z.to_nat (Z.of_nat (String.length (Num.digits m)) - Z.of_nat 0
                       - Z.of_nat (String.length s))) with j by lia.
    symmetry. exact Hds. }
  unfold Num.toString, numeral.
  destruct (Z.eqb_spec z 0) as [->|Hnz]; [reflexivity|].
  destruct (Z.ltb_spec z 0) as [Hneg|Hge].
  - rewrite Hpos by lia. reflexivity.
  - rewrite Hpos by lia. reflexivity.
Qed.

(* ===================================================================== *)
(** * Decoding what was encoded *)
(* ===================================================================== *)

Lemma parseInt_numeral (z : Z) : Num.parseInt (numeral z) = Num.of_Z z.
Proof.
  unfold Num.parseInt, numeral.
  destruct (Z.ltb_spec z 0) as [Hneg|Hpos].
  - destruct (digits_spec (- z)) as (Hall & Hne & Hv); [lia|].
    cbn [Num.trim_start]. change (Chr.is_space "-") with false.
    cbn [Num.take_sign]. rewrite (digit_prefix_all _ Hall), Hne, Hv.
    cbn [Num.signed]. unfold Num.of_Z. f_equal. lia.
  - destruct (digits_spec z Hpos) as (Hall & Hne & Hv).
    destruct (Num.digits z) as [|a ds] eqn:E; [discriminate Hne|].
    cbn [Str.all] in Hall. apply andb_true_iff in Hall as [Ha Hds].
    rewrite (trim_start_no_space a ds (digit_not_space a Ha)).
    assert (Hsign : Num.take_sign (String a ds) = (false, String a ds)).
    { destruct a as [[] [] [] [] [] [] [] []]; try reflexivity;
        discriminate Ha. }
    rewrite Hsign.
    rewrite (digit_prefix_all (String a ds))
      by (cbn [Str.all]; rewrite Ha, Hds; reflexivity).
    cbn [Str.is_empty]. rewrite Hv. reflexivity.
Qed.

Lemma numeral_not_empty (z : Z) : Str.is_empty (numeral z) = false.
Proof.
  unfold numeral. destruct (z <? 0); [reflexivity|].
  apply digits_fuel_nonempty.
Qed.

Section Decoding.

Context `{Host}.
Variable builder : Xml.Builder.
Variable opts : DateFormatter.DateFormatterOptions.

Import Deserializer.

Local Abbreviation value_node := (Document.value_node builder opts).

(** A scalar element: the events [evs] between its tags add the chunks
    [d] to the buffer, and closing it on their concatenation pushes
    [v]. *)
Lemma leaf_decoded (tag : string) (evs : list Event) (d : list string)
      (v : Value) (st : State) :
  (tag =? "ARRAY")%string || (tag =? "STRUCT")%string = false ->
  (forall s, feed s evs = set_data (data s ++ d) s) ->
  (forall s, dispatch tag (Str.join "" d) s
             = Normal (set_value false (push v s))) ->
  feed st (Opentag "VALUE" :: Opentag tag
           :: evs ++ [Closetag tag; Closetag "VALUE"])
  = decoded [v] d st.
Proof.
  intros Htag Hevs Hend.
  change (feed st (Opentag "VALUE" :: Opentag tag
                   :: evs ++ [Closetag tag; Closetag "VALUE"]))
    with (feed (onOpentag tag (onOpentag "VALUE" st))
               (evs ++ [Closetag tag; Closetag "VALUE"])).
  assert (Hopen : onOpentag tag (onOpentag "VALUE" st)
                  = set_value (tag =? "VALUE")%string (set_data [] st)).
  { unfold onOpentag at 1. rewrite Htag. reflexivity. }
  rewrite Hopen, feed_app, Hevs.
  change (feed ?s [Closetag tag; Closetag "VALUE"])
    with (onClosetag "VALUE" (onClosetag tag s)).
  unfold onClosetag at 2. cbn [data set_data set_value List.app].
  rewrite Hend. reflexivity.
Qed.

Lemma is_empty_true (s : string) : Str.is_empty s = true -> s = "".
Proof. destruct s; [reflexivity|discriminate]. Qed.

Lemma text_fed (t : string) (s : State) :
  feed s (Sax.events (Xml.Text t))
  = set_data (data s ++ (if Str.is_empty t then [] else [t])) s.
Proof.
  cbn [Sax.events]. destruct (Str.is_empty t); cbn [feed List.fold_left handle].
  - rewrite List.app_nil_r. destruct s; reflexivity.
  - reflexivity.
Qed.

Lemma join_chunk (t : string) :
  Str.join "" (if Str.is_empty t then [] else [t]) = t.
Proof. destruct t; reflexivity. Qed.

(** The events of a [value] element with one child element. *)
Lemma events_value_element (tag : string) (cs : list Xml.node) :
  Sax.events (Xml.Element "value" [Xml.Element tag cs])
  = Opentag "VALUE" :: Opentag (Str.toUpperCase tag)
    :: List.flat_map Sax.events cs
    ++ [Closetag (Str.toUpperCase tag); Closetag "VALUE"].
Proof.
  cbn [Sax.events List.flat_map]. rewrite List.app_nil_r.
  change (Str.toUpperCase "value") with "VALUE".
  cbn [List.app]. rewrite <- List.app_assoc. reflexivity.
Qed.

(** A scalar element with one text child. *)
Lemma text_leaf_decoded (tag t : string) (v : Value) (st : State) :
  (Str.toUpperCase tag =? "ARRAY")%string
  || (Str.toUpperCase tag =? "STRUCT")%string = false ->
  (forall s, dispatch (Str.toUpperCase tag) t s
             = Normal (set_value false (push v s))) ->
  exists d,
    feed st (Sax.events (Xml.Element "value"
                           [Xml.Element tag [Xml.Text t]]))
    = decoded [v] d st.
Proof.
  intros Htag Hend.
  exists (if Str.is_empty t then [] else [t]).
  rewrite events_value_element.
  apply leaf_decoded.
  - exact Htag.
  - intros s. cbn [List.flat_map]. rewrite List.app_nil_r. apply text_fed.
  - intros s. rewrite join_chunk. apply Hend.
Qed.

Lemma string_decoded (str : string) (st : State) :
  exists d,
    feed st (Sax.events (value_node (VString str)))
    = decoded [VString str] d st.
Proof.
  cbn [Document.value_node]. rewrite events_value_element.
  change (Str.toUpperCase "string") with "STRING".
  unfold Document.string_children.
  destruct (Str.is_empty str) eqn:Hempty.
  - apply is_empty_true in Hempty. subst str.
    exists []. apply leaf_decoded; [reflexivity| |reflexivity].
    intros s. cbn [List.flat_map feed List.fold_left].
    rewrite List.app_nil_r. destruct s; reflexivity.
  - exists [str].
    destruct (Regex.test Serializer.illegalChars str);
      [|destruct (Xml.has_d builder || Xml.has_cdata builder)];
      (apply leaf_decoded; [reflexivity| |reflexivity]);
      intros s; cbn [List.flat_map Sax.events]; rewrite ?Hempty;
      reflexivity.
Qed.

Lemma number_decoded (z : Z) (st : State) :
  Z.abs z < 10 ^ 21 ->
  exists d,
    feed st (Sax.events (value_node (VNumber (Num.Fin z 0))))
    = decoded [VNumber (Num.Fin z 0)] d st.
Proof.
  intros Hz. cbn [Document.value_node Num.is_integral].
  rewrite (toString_numeral z Hz).
  apply text_leaf_decoded; [reflexivity|].
  intros s. change (Str.toUpperCase "int") with "INT".
  change (dispatch "INT" (numeral z) s) with (endInt (numeral z) s).
  unfold endInt. rewrite parseInt_numeral. reflexivity.
Qed.

Lemma buffer_decoded (bytes : list Byte.byte) (st : State) :
  exists d,
    feed st (Sax.events (value_node (VBuffer bytes)))
    = decoded [VBuffer bytes] d st.
Proof.
  cbn [Document.value_node].
  apply text_leaf_decoded; [reflexivity|].
  intros s. change (Str.toUpperCase "base64") with "BASE64".
  change (dispatch "BASE64" (Base64.encode bytes) s)
    with (endBase64 (Base64.encode bytes) s).
  unfold endBase64. rewrite decode_encode. reflexivity.
Qed.

Lemma bool_decoded (b : bool) (st : State) :
  exists d,
    feed st (Sax.events (value_node (VBool b))) = decoded [VBool b] d st.
Proof.
  cbn [Document.value_node].
  apply text_leaf_decoded; [reflexivity|].
  intros s. destruct b; reflexivity.
Qed.

Lemma nil_decoded (st : State) :
  exists d, feed st (Sax.events (value_node VNull)) = decoded [VNull] d st.
Proof.
  exists []. cbn [Document.value_node]. rewrite events_value_element.
  apply leaf_decoded; [reflexivity| |reflexivity].
  intros s. cbn [List.flat_map feed List.fold_left].
  rewrite List.app_nil_r. destruct s; reflexivity.
Qed.

(** The items of an array, one after the other, each written by
    [node]. *)
Lemma items_decoded (node : Value -> Xml.node) (items : list Value) :
  List.Forall
    (fun item => forall st, exists d,
         feed st (Sax.events (node item)) = decoded [item] d st)
    items ->
  forall st, value st = false ->
  exists d,
    feed st (List.flat_map Sax.events (List.map node items))
    = decoded items d st.
Proof.
  induction 1 as [|item items Hitem _ IH]; intros st Hvalue.
  - exists (data st). destruct st. cbn in Hvalue. subst.
    unfold decoded. cbn. rewrite List.app_nil_r. reflexivity.
  - cbn [List.map List.flat_map]. rewrite feed_app.
    destruct (Hitem st) as [d1 ->].
    destruct (IH (decoded [item] d1 st) eq_refl) as [d ->].
    exists d. unfold decoded. cbn. rewrite <- List.app_assoc. reflexivity.
Qed.

(** Closing an array whose items were decoded above its mark. *)
Lemma array_closed (items : list Value) (d : list string) (st : State) :
  onClosetag "ARRAY"
    (decoded items d
       (set_marks (marks st ++ [List.length (stack st)]) st))
  = decoded [VArray items] d st.
Proof.
  unfold onClosetag.
  change (dispatch "ARRAY" ?t ?s) with (endArray s).
  unfold endArray, pop_mark. cbn [marks decoded set_marks stack].
  rewrite List.rev_unit, List.rev_involutive.
  unfold decoded. cbn [stack set_marks].
  rewrite List.skipn_app, List.firstn_app, Nat.sub_diag.
  rewrite List.skipn_all, List.firstn_all.
  cbn [List.skipn List.firstn List.app]. rewrite List.app_nil_r.
  reflexivity.
Qed.

Lemma array_decoded (node : Value -> Xml.node) (items : list Value) :
  List.Forall
    (fun item => forall st, exists d,
         feed st (Sax.events (node item)) = decoded [item] d st)
    items ->
  forall st, exists d,
    feed st (Sax.events
               (Xml.Element "value"
                  [Xml.Element "array"
                     [Xml.Element "data" (List.map node items)]]))
    = decoded [VArray items] d st.
Proof.
  intros Hitems st.
  set (st3 := set_value false
                (set_data []
                   (set_marks (marks st ++ [List.length (stack st)]) st))).
  destruct (items_decoded node items Hitems st3 eq_refl) as [d Hd].
  exists d.
  rewrite events_value_element.
  change (Str.toUpperCase "array") with "ARRAY".
  cbn [List.flat_map Sax.events]. rewrite List.app_nil_r.
  change (Str.toUpperCase "data") with "DATA".
  change (feed st (Opentag "VALUE" :: Opentag "ARRAY"
                   :: (Opentag "DATA" :: ?body ++ [Closetag "DATA"])
                   ++ ?rest))
    with (feed st3 ((body ++ [Closetag "DATA"]) ++ rest)).
  rewrite <- List.app_assoc, feed_app, Hd.
  change (feed ?s ([Closetag "DATA"] ++ [Closetag "ARRAY"; Closetag "VALUE"]))
    with (onClosetag "VALUE" (onClosetag "ARRAY" (onClosetag "DATA" s))).
  change (onClosetag "DATA" (decoded items d st3))
    with (decoded items d
            (set_marks (marks st ++ [List.length (stack st)]) st)).
  rewrite array_closed. reflexivity.
Qed.

(** Every value of the fragment is read back from its document, on top of
    whatever the stack holds. *)
Lemma value_decoded (v : Value) :
  comes_back v = true ->
  forall st, exists d,
    feed st (Sax.events (value_node v)) = decoded [v] d st.
Proof.
  induction v as [| |b|n|str|dt|bytes|tag raw|items IH|o IH]
    using Value_nested_ind; intros Hv; try discriminate Hv.
  - apply nil_decoded.
  - apply bool_decoded.
  - destruct n as [m e| |]; try discriminate Hv.
    destruct e; [|discriminate Hv].
    cbn [comes_back] in Hv. apply Z.ltb_lt in Hv.
    intros st. apply number_decoded. exact Hv.
  - apply string_decoded.
  - apply buffer_decoded.
  - intros st.
    change (value_node (VArray items))
      with (Xml.Element "value"
              [Xml.Element "array"
                 [Xml.Element "data" (List.map value_node items)]]).
    apply array_decoded.
    cbn [comes_back] in Hv. rewrite List.forallb_forall in Hv.
    rewrite List.Forall_forall in IH |- *.
    intros item Hin. apply (IH item Hin), Hv, Hin.
Qed.

End Decoding.

Section Envelopes.

Context `{Host}.
Variable builder : Xml.Builder.
Variable opts : DateFormatter.DateFormatterOptions.

Import Deserializer.

Lemma events_response (vn : Xml.node) :
  Sax.events (response_document vn)
  = [Opentag "METHODRESPONSE"; Opentag "PARAMS"; Opentag "PARAM"]
    ++ Sax.events vn
    ++ [Closetag "PARAM"; Closetag "PARAMS"; Closetag "METHODRESPONSE"].
Proof.
  unfold response_document. cbn [Sax.events List.flat_map].
  rewrite !List.app_nil_r.
  change (Str.toUpperCase "methodResponse") with "METHODRESPONSE".
  change (Str.toUpperCase "params") with "PARAMS".
  change (Str.toUpperCase "param") with "PARAM".
  cbn [List.app]. rewrite <- !List.app_assoc. reflexivity.
Qed.

Lemma events_call (method : string) (ps : list Xml.node) :
  Sax.events (call_document method ps)
  = [Opentag "METHODCALL"; Opentag "METHODNAME"]
    ++ (if Str.is_empty method then [] else [Text method])
    ++ [Closetag "METHODNAME"; Opentag "PARAMS"]
    ++ List.flat_map Sax.events ps
    ++ [Closetag "PARAMS"; Closetag "METHODCALL"].
Proof.
  unfold call_document. cbn [Sax.events List.flat_map].
  rewrite !List.app_nil_r.
  change (Str.toUpperCase "methodCall") with "METHODCALL".
  change (Str.toUpperCase "methodName") with "METHODNAME".
  change (Str.toUpperCase "params") with "PARAMS".
  cbn [List.app]. rewrite <- !List.app_assoc. cbn [List.app].
  rewrite <- !List.app_assoc. reflexivity.
Qed.

(** The parameters of a call, one [param] after the other. *)
Lemma params_decoded (params : list Value) :
  List.forallb comes_back params = true ->
  forall st, value st = false ->
  exists d,
    feed st (List.flat_map Sax.events
               (List.map (param_node builder opts) params))
    = decoded params d st.
Proof.
  induction params as [|p params IH]; intros Hall st Hvalue.
  - exists (data st). destruct st. cbn in Hvalue. subst.
    unfold decoded. cbn. rewrite List.app_nil_r. reflexivity.
  - cbn [List.forallb] in Hall. apply andb_true_iff in Hall as [Hp Hall].
    cbn [List.map List.flat_map]. rewrite feed_app.
    unfold param_node at 1. cbn [Sax.events List.flat_map].
    rewrite List.app_nil_r.
    change (Str.toUpperCase "param") with "PARAM".
    change (feed st (Opentag "PARAM" :: ?body ++ [Closetag "PARAM"]))
      with (feed (set_value false (set_data [] st))
                 (body ++ [Closetag "PARAM"])).
    rewrite feed_app.
    destruct (value_decoded builder opts p Hp
                (set_value false (set_data [] st))) as [d1 ->].
    destruct (IH Hall (decoded [p] d1 st) eq_refl) as [d Hd].
    exists d.
    change (feed (decoded [p] d1 (set_value false (set_data [] st)))
                 [Closetag "PARAM"])
      with (decoded [p] d1 st).
    rewrite Hd. unfold decoded. cbn. rewrite <- List.app_assoc.
    reflexivity.
Qed.

End Envelopes.





(* ===================================================================== *)
(** * Text arrives in pieces *)
(* ===================================================================== *)

Lemma append_empty_r (s : string) : s +:+ "" = s.
Proof.
  induction s as [|a s IH]; [reflexivity|].
  change (String a s +:+ "") with (String a (s +:+ "")).
  rewrite IH. reflexivity.
Qed.

Lemma join_cons (x : string) (rest : list string) :
  Str.join "" (x :: rest) = x +:+ Str.join "" rest.
Proof.
  destruct rest as [|y rest].
  - cbn [Str.join]. rewrite append_empty_r. reflexivity.
  - reflexivity.
Qed.

Lemma join_app (d1 d2 : list string) :
  Str.join "" (d1 ++ d2) = Str.join "" d1 +:+ Str.join "" d2.
Proof.
  induction d1 as [|x d1 IH]; [reflexivity|].
  change ((x :: d1) ++ d2) with (x :: (d1 ++ d2)).
  rewrite !join_cons, IH, append_assoc. reflexivity.
Qed.

Section Chunks.

Context `{Host}.

Import Deserializer.

Ltac split_data_handler :=
  repeat match goal with
         | |- context [if ?b then _ else _] => destruct b
         | |- context [match List.rev ?l with _ => _ end] =>
             destruct (List.rev l)
         | |- context [match DateFormatter.decodeIso8601 ?d with _ => _ end] =>
             destruct (DateFormatter.decodeIso8601 d)
         end.

(** No handler of a closing tag reads the buffer of the instance: it
    works on the joined text it is given. *)
Lemma dispatch_data (el t : string) (d : list string) (st : State) :
  dispatch el t (set_data d st)
  = match dispatch el t st with
    | Normal st' => Normal (set_data d st')
    | Throw e => Throw e
    end.
Proof.
  unfold dispatch, endBoolean, endInt, endI8, endDouble, endString, endArray,
    endStruct, endBase64, endDateTime, endValue, endParams, endFault,
    endMethodResponse, endMethodName, endMethodCall, endNil, pop_mark.
  cbn [marks value set_data].
  split_data_handler; reflexivity.
Qed.

Lemma invoke_data err r d st :
  invoke err r (set_data d st) = set_data d (invoke err r st).
Proof.
  unfold invoke. cbn [callback set_data].
  destruct (callback st) as [[]|]; reflexivity.
Qed.

Lemma onError_data msg d st :
  onError msg (set_data d st) = set_data d (onError msg st).
Proof.
  unfold onError. cbn [error set_data].
  destruct (error st); [reflexivity|].
  rewrite <- invoke_data. reflexivity.
Qed.

Lemma onDone_data d st :
  onDone (set_data d st) = set_data d (onDone st).
Proof.
  unfold onDone. cbn [error type marks responseType stack set_data].
  destruct (error st); [reflexivity|].
  destruct (_ || _); [apply invoke_data|].
  destruct (responseType st) as [[]|]; apply invoke_data.
Qed.

Lemma set_data_twice d d' st : set_data d (set_data d' st) = set_data d st.
Proof. reflexivity. Qed.

(** One event, from two states that differ only in how the buffered
    text is cut. *)
Lemma handle_data (ev : Event) (st : State) (d1 d2 : list string) :
  Str.join "" d1 = Str.join "" d2 ->
  exists st' d1' d2',
    handle (set_data d1 st) ev = set_data d1' st'
    /\ handle (set_data d2 st) ev = set_data d2' st'
    /\ Str.join "" d1' = Str.join "" d2'.
Proof.
  intros Hjoin. destruct ev as [name|name|chunk|chunk| |msg]; cbn [handle].
  - exists (onOpentag name st), [], [].
    unfold onOpentag. cbn [marks stack set_data].
    destruct (_ || _); repeat split.
  - unfold onClosetag. cbn [data set_data].
    rewrite <- Hjoin, !dispatch_data.
    destruct (dispatch name (Str.join "" d1) st) as [st'|e].
    + exists st', d1, d2. auto.
    + exists (onError (RError e) st), d1, d2.
      rewrite !onError_data. auto.
  - exists st, (d1 ++ [chunk]), (d2 ++ [chunk]).
    rewrite !join_app, Hjoin. repeat split.
  - exists st, (d1 ++ [chunk]), (d2 ++ [chunk]).
    rewrite !join_app, Hjoin. repeat split.
  - exists (onDone st), d1, d2. rewrite !onDone_data. auto.
  - exists (onError msg st), d1, d2. rewrite !onError_data. auto.
Qed.

Lemma feed_data (evs : list Event) : forall (st : State) (d1 d2 : list string),
  Str.join "" d1 = Str.join "" d2 ->
  delivered (feed (set_data d1 st) evs) = delivered (feed (set_data d2 st) evs).
Proof.
  induction evs as [|ev evs IH]; intros st d1 d2 Hjoin.
  - reflexivity.
  - cbn [feed List.fold_left].
    destruct (handle_data ev st d1 d2 Hjoin) as (st' & d1' & d2' & -> & -> & Hj).
    apply (IH st' d1' d2' Hj).
Qed.

(** A run of text and CDATA events only adds its pieces to the buffer. *)
Lemma chunks_fed (evs : list Event) : forall (t : string) (st : State),
  chunks_text evs = Some t ->
  exists d, feed st evs = set_data (data st ++ d) st /\ Str.join "" d = t.
Proof.
  induction evs as [|ev evs IH]; intros t st Ht.
  - cbn in Ht. injection Ht as <-. exists [].
    rewrite List.app_nil_r. destruct st; auto.
  - destruct ev as [name|name|chunk|chunk| |msg]; cbn in Ht;
      try discriminate Ht;
      destruct (chunks_text evs) as [u|] eqn:Hu; try discriminate Ht;
      injection Ht as <-;
      cbn [feed List.fold_left handle];
      [destruct (IH u (onText chunk st) eq_refl) as (d & Hd & Hj)
      |destruct (IH u (onCDATA chunk st) eq_refl) as (d & Hd & Hj)];
      exists (chunk :: d);
      (split; [|rewrite join_cons, Hj; reflexivity]);
      unfold feed in Hd; rewrite Hd;
      unfold onText, onCDATA; cbn [data set_data];
      rewrite <- List.app_assoc; reflexivity.
Qed.

End Chunks.

(** How the tokenizer cuts a text into text and CDATA events makes no
    difference: two runs of such events with the same concatenated text,
    between the same events before and after, lead to the same calls of
    the callback. *)
Theorem text_in_pieces `{Host} (st : Deserializer.State)
        (before run1 run2 after : list Deserializer.Event) (t : string) :
  chunks_text run1 = Some t ->
  chunks_text run2 = Some t ->
  Deserializer.delivered (Deserializer.feed st (before ++ run1 ++ after))
  = Deserializer.delivered (Deserializer.feed st (before ++ run2 ++ after)).
Proof.
  intros H1 H2. rewrite !feed_app.
  destruct (chunks_fed run1 t (Deserializer.feed st before) H1)
    as (d1 & -> & Hj1).
  destruct (chunks_fed run2 t (Deserializer.feed st before) H2)
    as (d2 & -> & Hj2).
  apply feed_data. rewrite !join_app, Hj1, Hj2. reflexivity.
Qed.

Lemma text_in_pieces_witness :
  Deserializer.delivered
    (Deserializer.feed (H := UTC.host)
       (Deserializer.set_callback (Some Deserializer.ResponseCallback)
          Deserializer.init)
       ([Deserializer.Opentag "METHODRESPONSE"; Deserializer.Opentag "PARAMS";
         Deserializer.Opentag "VALUE"; Deserializer.Opentag "INT"]
        ++ [Deserializer.Text "4"; Deserializer.Cdata ""; Deserializer.Text "2"]
        ++ [Deserializer.Closetag "INT"; Deserializer.Closetag "VALUE";
            Deserializer.Closetag "PARAMS";
            Deserializer.Closetag "METHODRESPONSE"; Deserializer.End]))
  = Deserializer.delivered
      (Deserializer.feed (H := UTC.host)
         (Deserializer.set_callback (Some Deserializer.ResponseCallback)
            Deserializer.init)
         ([Deserializer.Opentag "METHODRESPONSE"; Deserializer.Opentag "PARAMS";
           Deserializer.Opentag "VALUE"; Deserializer.Opentag "INT"]
          ++ [Deserializer.Text "42"]
          ++ [Deserializer.Closetag "INT"; Deserializer.Closetag "VALUE";
              Deserializer.Closetag "PARAMS";
              Deserializer.Closetag "METHODRESPONSE"; Deserializer.End])).
Proof.
  apply (text_in_pieces (H := UTC.host)) with (t := "42"); reflexivity.
Defined.

(* ===================================================================== *)
(** * Structs whose members hold a name and a value *)
(* ===================================================================== *)

Lemma set_fresh (o : Obj.t) (k : string) (v : Value) :
  List.existsb (String.eqb k) (List.map fst o) = false ->
  Obj.set o k v = o ++ [(k, v)].
Proof.
  induction o as [|[k' v'] o IH]; intros Hfresh; [reflexivity|].
  cbn [List.map fst List.existsb] in Hfresh.
  apply orb_false_iff in Hfresh as [Hk Ho].
  cbn [Obj.set]. rewrite String.eqb_sym, Hk, (IH Ho). reflexivity.
Qed.

Lemma existsb_app_false (k : string) (l1 l2 : list string) :
  List.existsb (String.eqb k) (l1 ++ l2) = false ->
  List.existsb (String.eqb k) l1 = false
  /\ List.existsb (String.eqb k) l2 = false.
Proof. rewrite List.existsb_app. apply orb_false_iff. Qed.

Lemma distinct_app_cons (l1 : list string) (k : string) (l2 : list string) :
  distinct (l1 ++ k :: l2) = true ->
  List.existsb (String.eqb k) l1 = false
  /\ distinct ((l1 ++ [k]) ++ l2) = true.
Proof.
  induction l1 as [|x l1 IH]; cbn [List.app distinct List.existsb].
  - intros Hd. split; [reflexivity|exact Hd].
  - intros Hd. apply andb_true_iff in Hd as [Hx Hd].
    destruct (IH Hd) as [Hk Hd'].
    apply negb_true_iff in Hx.
    destruct (existsb_app_false x l1 (k :: l2) Hx) as [Hx1 Hx2].
    cbn [List.existsb] in Hx2. apply orb_false_iff in Hx2 as [Hxk Hx2].
    split.
    + rewrite String.eqb_sym, Hxk. exact Hk.
    + rewrite Hd', <- List.app_assoc. cbn [List.app]. rewrite Hx.
      reflexivity.
Qed.

(** The loop of [endStruct] on members of distinct names keeps them as
    they come. *)
Lemma struct_of_entries `{Host} (o : Obj.t) : forall acc : Obj.t,
  distinct (List.map fst (acc ++ o)) = true ->
  Deserializer.struct_of (entries o) acc = acc ++ o.
Proof.
  induction o as [|[k v] o IH]; intros acc Hd.
  - cbn. rewrite List.app_nil_r. reflexivity.
  - change (entries ((k, v) :: o)) with (VString k :: v :: entries o).
    cbn [Deserializer.struct_of].
    change (ToString (VString k)) with k.
    rewrite List.map_app in Hd. cbn [List.map fst] in Hd.
    destruct (distinct_app_cons _ _ _ Hd) as [Hfresh Hd'].
    rewrite (set_fresh acc k v Hfresh).
    rewrite IH.
    + rewrite <- List.app_assoc. reflexivity.
    + rewrite !List.map_app. exact Hd'.
Qed.

Section Members.

Context `{Host}.
Variable builder : Xml.Builder.
Variable opts : DateFormatter.DateFormatterOptions.

Import Deserializer.

Local Abbreviation layout := (member_layout builder opts).

Local Abbreviation member_node :=
  (fun kv : string * Value =>
     Xml.Element "member"
       [Xml.Element "name" [Xml.Text (fst kv)]; layout (snd kv)]).

(** Closing a struct whose entries were decoded above its mark. *)
Lemma struct_closed (items : list Value) (d : list string) (st : State) :
  onClosetag "STRUCT"
    (decoded items d
       (set_marks (marks st ++ [List.length (stack st)]) st))
  = decoded [VObject (struct_of items [])] d st.
Proof.
  unfold onClosetag.
  change (dispatch "STRUCT" ?t ?s) with (endStruct s).
  unfold endStruct, pop_mark. cbn [marks decoded set_marks stack].
  rewrite List.rev_unit, List.rev_involutive.
  unfold decoded. cbn [stack set_marks].
  rewrite List.skipn_app, List.firstn_app, Nat.sub_diag.
  rewrite List.skipn_all, List.firstn_all.
  cbn [List.skipn List.firstn List.app]. rewrite List.app_nil_r.
  reflexivity.
Qed.

(** One member: its name is pushed, then its value. *)
Lemma member_decoded (k : string) (v : Value) (st : State) :
  (forall s, exists d, feed s (Sax.events (layout v)) = decoded [v] d s) ->
  exists d,
    feed st (Sax.events (member_node (k, v)))
    = decoded [VString k; v] d st.
Proof.
  intros Hv.
  cbn [Sax.events List.flat_map fst snd]. rewrite !List.app_nil_r.
  change (Str.toUpperCase "member") with "MEMBER".
  change (Str.toUpperCase "name") with "NAME".
  set (named := set_value false
                  (push (VString k)
                     (set_data (if Str.is_empty k then [] else [k])
                        (set_value false st)))).
  assert (Hname :
    feed st (Opentag "MEMBER"
             :: (Opentag "NAME"
                 :: (if Str.is_empty k then [] else [Text k])
                 ++ [Closetag "NAME"]))
    = named).
  { unfold named. destruct k; reflexivity. }
  destruct (Hv named) as [d Hd]. exists d.
  change (feed st (Opentag "MEMBER" :: ?a ++ ?b))
    with (feed st ((Opentag "MEMBER" :: a) ++ b)).
  rewrite feed_app.
  change (Opentag "MEMBER"
          :: (Opentag "NAME" :: (if Str.is_empty k then [] else [Text k])
              ++ [Closetag "NAME"])
             ++ Sax.events (layout v))
    with ((Opentag "MEMBER"
           :: (Opentag "NAME" :: (if Str.is_empty k then [] else [Text k])
               ++ [Closetag "NAME"]))
          ++ Sax.events (layout v)).
  rewrite feed_app, Hname, Hd.
  unfold named, decoded. cbn. rewrite <- List.app_assoc. reflexivity.
Qed.

Lemma members_decoded (o : Obj.t) :
  List.Forall
    (fun kv => forall s, exists d,
         feed s (Sax.events (layout (snd kv))) = decoded [snd kv] d s)
    o ->
  forall st, value st = false ->
  exists d,
    feed st (List.flat_map Sax.events (List.map member_node o))
    = decoded (entries o) d st.
Proof.
  induction 1 as [|[k v] o Hkv _ IH]; intros st Hvalue.
  - exists (data st). destruct st. cbn in Hvalue. subst.
    unfold decoded. cbn. rewrite List.app_nil_r. reflexivity.
  - cbn [List.map List.flat_map]. rewrite feed_app.
    destruct (member_decoded k v st Hkv) as [d1 ->].
    destruct (IH (decoded [VString k; v] d1 st) eq_refl) as [d ->].
    exists d. unfold decoded, entries. cbn. rewrite <- List.app_assoc.
    reflexivity.
Qed.

(** Every value of the fragment is read back from the document in which
    members hold a name and a value. *)
Lemma layout_decoded (v : Value) :
  read_back v = true ->
  forall st, exists d,
    feed st (Sax.events (layout v)) = decoded [v] d st.
Proof.
  induction v as [| |b|n|str|dt|bytes|tag raw|items IH|o IH]
    using Value_nested_ind; intros Hv; try discriminate Hv.
  - apply nil_decoded.
  - apply bool_decoded.
  - destruct n as [m e| |]; try discriminate Hv.
    destruct e; [|discriminate Hv].
    cbn [read_back] in Hv. apply Z.ltb_lt in Hv.
    intros st. apply number_decoded. exact Hv.
  - apply string_decoded.
  - apply buffer_decoded.
  - intros st.
    change (layout (VArray items))
      with (Xml.Element "value"
              [Xml.Element "array"
                 [Xml.Element "data" (List.map layout items)]]).
    apply array_decoded.
    cbn [read_back] in Hv. rewrite List.forallb_forall in Hv.
    rewrite List.Forall_forall in IH |- *.
    intros item Hin. apply (IH item Hin), Hv, Hin.
  - intros st.
    cbn [read_back] in Hv. apply andb_true_iff in Hv as [Hnames Hv].
    rewrite List.forallb_forall in Hv.
    assert (Hmembers : List.Forall
              (fun kv => forall s, exists d,
                   feed s (Sax.events (layout (snd kv)))
                   = decoded [snd kv] d s) o).
    { rewrite List.Forall_forall in IH |- *.
      intros kv Hin. apply (IH kv Hin), Hv, Hin. }
    set (st2 := set_value false
                  (set_data []
                     (set_marks (marks st ++ [List.length (stack st)]) st))).
    destruct (members_decoded o Hmembers st2 eq_refl) as [d Hd].
    exists d.
    change (layout (VObject o))
      with (Xml.Element "value"
              [Xml.Element "struct" (List.map member_node o)]).
    rewrite events_value_element.
    change (Str.toUpperCase "struct") with "STRUCT".
    change (feed st (Opentag "VALUE" :: Opentag "STRUCT" :: ?body ++ ?rest))
      with (feed st2 (body ++ rest)).
    rewrite feed_app, Hd.
    change (feed ?s [Closetag "STRUCT"; Closetag "VALUE"])
      with (onClosetag "VALUE" (onClosetag "STRUCT" s)).
    change (decoded (entries o) d st2)
      with (decoded (entries o) d
              (set_marks (marks st ++ [List.length (stack st)]) st)).
    rewrite struct_closed, (struct_of_entries o []) by exact Hnames.
    reflexivity.
Qed.

End Members.

Lemma events_fault (vn : Xml.node) :
  Sax.events (fault_document vn)
  = [Deserializer.Opentag "METHODRESPONSE"; Deserializer.Opentag "FAULT"]
    ++ Sax.events vn
    ++ [Deserializer.Closetag "FAULT";
        Deserializer.Closetag "METHODRESPONSE"].
Proof.
  unfold fault_document. cbn [Sax.events List.flat_map].
  rewrite !List.app_nil_r.
  change (Str.toUpperCase "methodResponse") with "METHODRESPONSE".
  change (Str.toUpperCase "fault") with "FAULT".
  cbn [List.app]. rewrite <- !List.app_assoc. reflexivity.
Qed.





(* ===================================================================== *)
(** * No result without the envelope *)
(* ===================================================================== *)

Section Envelope.

Context `{Host}.

Import Deserializer.

Lemma envelope_closed_more o seen ev :
  envelope_closed o seen -> envelope_closed o (seen ++ [ev]).
Proof.
  destruct o; cbn [envelope_closed]; rewrite ?List.in_app_iff; tauto.
Qed.

(** A closing tag changes the fields of the envelope only if it is the
    tag of that field. *)
Lemma dispatch_envelope el d st st' :
  dispatch el d st = Normal st' ->
  delivered st' = delivered st
  /\ (type st' = type st
      \/ (type st' = Some methodresponse /\ el = "METHODRESPONSE")
      \/ (type st' = Some methodcall /\ el = "METHODCALL"))
  /\ (responseType st' = responseType st
      \/ responseType st' = Some fault
      \/ el = "PARAMS")
  /\ (methodname st' = methodname st \/ el = "METHODNAME").
Proof.
  unfold dispatch.
  repeat match goal with
         | |- context [String.eqb el ?s] =>
             destruct (String.eqb_spec el s) as [->|?]
         end;
    cbn [orb];
    unfold endBoolean, endInt, endI8, endDouble, endString, endArray,
      endStruct, endBase64, endDateTime, endValue, endParams, endFault,
      endMethodResponse, endMethodName, endMethodCall, endNil, pop_mark;
    repeat match goal with
           | |- context [if ?b then _ else _] => destruct b
           | |- context [match List.rev ?l with _ => _ end] =>
               destruct (List.rev l)
           | |- context [match DateFormatter.decodeIso8601 ?t with _ => _ end] =>
               destruct (DateFormatter.decodeIso8601 t)
           end;
    intros E; inversion E; subst; cbn; auto 10.
Qed.

Lemma invoke_envelope err r st :
  type (invoke err r st) = type st
  /\ responseType (invoke err r st) = responseType st
  /\ methodname (invoke err r st) = methodname st.
Proof.
  unfold invoke. destruct (callback st) as [[]|]; repeat split.
Qed.

Lemma invoke_error_envelope seen e r st :
  envelope_seen seen st -> envelope_seen seen (invoke (Some e) r st).
Proof.
  intros (Ht1 & Ht2 & Hr & Hm & Hd).
  destruct (invoke_envelope (Some e) r st) as (Et & Er & Em).
  unfold envelope_seen. rewrite Et, Er, Em.
  repeat split; auto.
  intros o. unfold invoke.
  destruct (callback st) as [[]|]; cbn [deliver delivered responseCallback
                                         callCallback];
    rewrite ?List.in_app_iff; intros Hin; auto;
    destruct Hin as [Hin|[<-|[]]]; auto; exact I.
Qed.

Lemma envelope_seen_more seen ev st :
  envelope_seen seen st -> envelope_seen (seen ++ [ev]) st.
Proof.
  intros (Ht1 & Ht2 & Hr & Hm & Hd).
  unfold envelope_seen. rewrite ?List.in_app_iff.
  repeat split; auto using envelope_closed_more.
Qed.

(** One event keeps the record. *)
Lemma handle_envelope seen ev st :
  envelope_seen seen st -> envelope_seen (seen ++ [ev]) (handle st ev).
Proof.
  intros Hseen.
  pose proof (envelope_seen_more seen ev st Hseen) as Hmore.
  destruct ev as [name|name|chunk|chunk| |msg]; cbn [handle].
  - unfold onOpentag. destruct (_ || _); exact Hmore.
  - unfold onClosetag.
    destruct (dispatch name (Str.join "" (data st)) st) as [st'|e] eqn:Hd.
    + destruct (dispatch_envelope _ _ _ _ Hd) as (Ed & Et & Er & Em).
      destruct Hmore as (Ht1 & Ht2 & Hr & Hm & Hdel).
      unfold envelope_seen. rewrite Ed.
      repeat split; auto.
      * intros E. destruct Et as [Et|[[Et ->]|[Et ->]]].
        -- apply Ht1. congruence.
        -- apply List.in_app_iff. right. left. reflexivity.
        -- congruence.
      * intros E. destruct Et as [Et|[[Et ->]|[Et ->]]].
        -- apply Ht2. congruence.
        -- congruence.
        -- apply List.in_app_iff. right. left. reflexivity.
      * intros E. destruct Er as [Er|[Er| ->]].
        -- apply Hr. congruence.
        -- congruence.
        -- apply List.in_app_iff. right. left. reflexivity.
      * intros E. destruct Em as [Em| ->].
        -- apply Hm. congruence.
        -- apply List.in_app_iff. right. left. reflexivity.
    + unfold onError. destruct (error st); [exact Hmore|].
      apply invoke_error_envelope. exact Hmore.
  - exact Hmore.
  - exact Hmore.
  - unfold onDone. destruct (error st); [exact Hmore|].
    destruct (_ || _); [apply invoke_error_envelope; exact Hmore|].
    destruct (responseType st) as [[]|] eqn:Er;
      try (apply invoke_error_envelope; exact Hmore).
    + (* params *)
      destruct Hmore as (Ht1 & Ht2 & Hr & Hm & Hdel).
      destruct (invoke_envelope None (stack st) st) as (Et & Er' & Em).
      unfold envelope_seen. rewrite Et, Er', Em.
      repeat split; auto.
      intros o. unfold invoke.
      destruct (callback st) as [[]|]; cbn [deliver delivered];
        rewrite ?List.in_app_iff; intros Hin; auto;
        destruct Hin as [Hin|[<-|[]]]; auto.
      * unfold responseCallback. destruct (Nat.ltb _ _); [exact I|].
        destruct (type st) as [[]|] eqn:Etype; try exact I.
        rewrite Er. cbn [envelope_closed].
        repeat split; [apply Ht1; reflexivity|apply Hr; exact Er|].
        apply List.in_app_iff. right. left. reflexivity.
      * unfold callCallback.
        destruct (type st) as [[]|] eqn:Etype; try exact I.
        destruct (methodname st) as [name|] eqn:Ename; [|exact I].
        destruct (Str.is_empty name) eqn:Eempty; [exact I|].
        cbn [envelope_closed].
        repeat split; [apply Ht2; reflexivity|apply Hm; discriminate| |].
        -- apply List.in_app_iff. right. left. reflexivity.
        -- intros ->. discriminate Eempty.
    + (* no response type *)
      destruct Hmore as (Ht1 & Ht2 & Hr & Hm & Hdel).
      destruct (invoke_envelope None (stack st) st) as (Et & Er' & Em).
      unfold envelope_seen. rewrite Et, Er', Em.
      repeat split; auto.
      intros o. unfold invoke.
      destruct (callback st) as [[]|]; cbn [deliver delivered];
        rewrite ?List.in_app_iff; intros Hin; auto;
        destruct Hin as [Hin|[<-|[]]]; auto.
      * unfold responseCallback. destruct (Nat.ltb _ _); [exact I|].
        destruct (type st) as [[]|] eqn:Etype; try exact I.
        rewrite Er. exact I.
      * unfold callCallback.
        destruct (type st) as [[]|] eqn:Etype; try exact I.
        destruct (methodname st) as [name|] eqn:Ename; [|exact I].
        destruct (Str.is_empty name) eqn:Eempty; [exact I|].
        cbn [envelope_closed].
        repeat split; [apply Ht2; reflexivity|apply Hm; discriminate| |].
        -- apply List.in_app_iff. right. left. reflexivity.
        -- intros ->. discriminate Eempty.
  - unfold onError. destruct (error st); [exact Hmore|].
    apply invoke_error_envelope. exact Hmore.
Qed.

Lemma feed_envelope evs : forall seen st,
  envelope_seen seen st -> envelope_seen (seen ++ evs) (feed st evs).
Proof.
  induction evs as [|ev evs IH]; intros seen st Hseen.
  - rewrite List.app_nil_r. exact Hseen.
  - cbn [feed List.fold_left].
    change (seen ++ ev :: evs) with (seen ++ [ev] ++ evs).
    rewrite List.app_assoc.
    apply (IH (seen ++ [ev]) (handle st ev)).
    apply handle_envelope. exact Hseen.
Qed.

End Envelope.

(** Neither entry point reports a result for a stream that does not close
    its envelope: a response is handed over only after the closing tags
    of [methodResponse] and [params] and the end of the stream, a call
    only after those of [methodCall] and [methodName] and the end of the
    stream, and never with an empty method name. *)
Theorem no_result_without_envelope `{Host} (cb : Deserializer.Callback)
        (evs : list Deserializer.Event) (o : Deserializer.Outcome) :
  In o (Deserializer.delivered
          (Deserializer.feed
             (Deserializer.set_callback (Some cb) Deserializer.init) evs)) ->
  envelope_closed o evs.
Proof.
  intros Hin.
  assert (Hinit : envelope_seen []
            (Deserializer.set_callback (Some cb) Deserializer.init)).
  { unfold envelope_seen. cbn. repeat split; try discriminate.
    - intros E. contradiction E. reflexivity.
    - intros o' []. }
  destruct (feed_envelope evs [] _ Hinit) as (_ & _ & _ & _ & Hdel).
  apply Hdel. exact Hin.
Qed.

Lemma no_result_without_envelope_witness :
  envelope_closed (Deserializer.Call "ping" [VString "x"])
    [Deserializer.Opentag "METHODCALL"; Deserializer.Opentag "METHODNAME";
     Deserializer.Text "ping"; Deserializer.Closetag "METHODNAME";
     Deserializer.Opentag "STRING"; Deserializer.Text "x";
     Deserializer.Closetag "STRING"; Deserializer.Closetag "METHODCALL";
     Deserializer.End].
Proof.
  apply (no_result_without_envelope (H := UTC.host) Deserializer.CallCallback).
  vm_compute. left. reflexivity.
Defined.

(* ===================================================================== *)
(** * Faults written by the serializer *)
(* ===================================================================== *)

Lemma numeral_head (z : Z) :
  exists a rest, numeral z = String a rest
                 /\ (a = "-"%char \/ Chr.is_digit a = true).
Proof.
  unfold numeral. destruct (Z.ltb_spec z 0) as [Hneg|Hpos].
  - eexists _, _. split; [reflexivity|]. left. reflexivity.
  - destruct (digits_spec z Hpos) as (Hall & Hne & _).
    destruct (Num.digits z) as [|a rest]; [discriminate Hne|].
    exists a, rest. split; [reflexivity|]. right.
    cbn [Str.all] in Hall. apply andb_true_iff in Hall. apply Hall.
Qed.

Lemma numeral_not_fault_member (z : Z) :
  (numeral z =? "faultCode")%string = false
  /\ (numeral z =? "faultString")%string = false.
Proof.
  destruct (numeral_head z) as (a & rest & -> & Ha).
  assert (Hf : Ascii.eqb a "f" = false).
  { destruct Ha as [->|Ha]; [reflexivity|].
    destruct (Ascii.eqb_spec a "f") as [->|]; [discriminate Ha|reflexivity]. }
  split; cbn [String.eqb]; rewrite Hf; reflexivity.
Qed.

Section ServedFault.

Context `{Host}.
Variable builder : Xml.Builder.
Variable opts : DateFormatter.DateFormatterOptions.

Import Deserializer.

Local Abbreviation value_node := (Document.value_node builder opts).

Lemma number_text_decoded (z : Z) (st : State) :
  Z.abs z < 10 ^ 21 ->
  exists d,
    feed st (Sax.events (value_node (VNumber (Num.Fin z 0))))
    = decoded [VNumber (Num.Fin z 0)] d st
    /\ Str.join "" d = numeral z.
Proof.
  intros Hz. exists [numeral z]. split; [|reflexivity].
  cbn [Document.value_node Num.is_integral].
  rewrite (toString_numeral z Hz), events_value_element.
  change (Str.toUpperCase "int") with "INT".
  apply leaf_decoded; [reflexivity| |].
  - intros s. cbn [List.flat_map Sax.events].
    rewrite numeral_not_empty. reflexivity.
  - intros s. cbn [Str.join].
    change (dispatch "INT" (numeral z) s) with (endInt (numeral z) s).
    unfold endInt. rewrite parseInt_numeral. reflexivity.
Qed.

Lemma string_text_decoded (str : string) (st : State) :
  exists d,
    feed st (Sax.events (value_node (VString str)))
    = decoded [VString str] d st
    /\ Str.join "" d = str.
Proof.
  cbn [Document.value_node]. rewrite events_value_element.
  change (Str.toUpperCase "string") with "STRING".
  unfold Document.string_children.
  destruct (Str.is_empty str) eqn:Hempty.
  - apply is_empty_true in Hempty. subst str.
    exists []. split; [|reflexivity].
    apply leaf_decoded; [reflexivity| |reflexivity].
    intros s. cbn [List.flat_map feed List.fold_left].
    rewrite List.app_nil_r. destruct s; reflexivity.
  - exists [str]. split; [|reflexivity].
    destruct (Regex.test Serializer.illegalChars str);
      [|destruct (Xml.has_d builder || Xml.has_cdata builder)];
      (apply leaf_decoded; [reflexivity| |reflexivity]);
      intros s; cbn [List.flat_map Sax.events]; rewrite ?Hempty;
      reflexivity.
Qed.

(** A member as the serializer writes it: the value inside the [name]
    element.  The value is pushed first; the name that is pushed is the
    text left in the buffer by the value. *)
Lemma nested_member_decoded (key t : string) (v : Value) :
  (forall s, exists d,
      feed s (Sax.events (value_node v)) = decoded [v] d s
      /\ Str.join "" d = t) ->
  forall st, exists d,
    feed st (Sax.events
               (Xml.Element "member"
                  [Xml.Element "name" [Xml.Text key; value_node v]]))
    = decoded [v; VString t] d st.
Proof.
  intros Hv st.
  cbn [Sax.events List.flat_map]. rewrite !List.app_nil_r.
  change (Str.toUpperCase "member") with "MEMBER".
  change (Str.toUpperCase "name") with "NAME".
  set (keyed := set_data (if Str.is_empty key then [] else [key])
                  (set_value false st)).
  destruct (Hv keyed) as (d & Hd & Hjoin). exists d.
  assert (Hkey :
    feed st (Opentag "MEMBER" :: Opentag "NAME"
             :: (if Str.is_empty key then [] else [Text key]))
    = keyed).
  { unfold keyed. destruct key; reflexivity. }
  cbn [List.app]. rewrite <- !List.app_assoc.
  change (feed st (Opentag "MEMBER" :: Opentag "NAME" :: ?k ++ ?rest))
    with (feed st ((Opentag "MEMBER" :: Opentag "NAME" :: k) ++ rest)).
  rewrite feed_app, Hkey, feed_app, Hd.
  change (feed ?s ([Closetag "NAME"] ++ [Closetag "MEMBER"]))
    with (onClosetag "MEMBER" (onClosetag "NAME" s)).
  unfold onClosetag at 2. cbn [data decoded]. rewrite Hjoin.
  change (dispatch "NAME" t ?x)
    with (Normal (set_value false (push (VString t) x))).
  cbv beta iota.
  change (onClosetag "MEMBER" ?x) with x.
  unfold keyed, decoded, push, set_value, set_stack, set_data.
  cbn [type responseType stack marks data methodname value callback error
       delivered].
  rewrite <- List.app_assoc. reflexivity.
Qed.

Lemma decoded_twice (us vs : list Value) (d1 d2 : list string) (st : State) :
  decoded vs d2 (decoded us d1 st) = decoded (us ++ vs) d2 st.
Proof.
  unfold decoded. cbn [type responseType stack marks data methodname value
                       callback error delivered].
  rewrite <- List.app_assoc. reflexivity.
Qed.

(** The struct of a fault, as the serializer writes and the deserializer
    reads it: each member is named by the text of its own value. *)
Lemma served_fault_struct (c : Z) (s : string) (st : State) :
  Z.abs c < 10 ^ 21 ->
  exists d,
    feed st (Sax.events
               (value_node (VObject [("faultCode", VNumber (Num.Fin c 0));
                                     ("faultString", VString s)])))
    = decoded [VObject (Obj.set [(numeral c, VString (numeral c))]
                          s (VString s))] d st.
Proof.
  intros Hc.
  change (value_node (VObject [("faultCode", VNumber (Num.Fin c 0));
                               ("faultString", VString s)]))
    with (Xml.Element "value"
            [Xml.Element "struct"
               [Xml.Element "member"
                  [Xml.Element "name"
                     [Xml.Text "faultCode";
                      value_node (VNumber (Num.Fin c 0))]];
                Xml.Element "member"
                  [Xml.Element "name"
                     [Xml.Text "faultString"; value_node (VString s)]]]]).
  rewrite events_value_element.
  change (Str.toUpperCase "struct") with "STRUCT".
  set (st2 := set_value false
                (set_data []
                   (set_marks (marks st ++ [List.length (stack st)]) st))).
  destruct (nested_member_decoded "faultCode" (numeral c)
              (VNumber (Num.Fin c 0))
              (fun s0 => number_text_decoded c s0 Hc) st2) as [d1 Hd1].
  destruct (nested_member_decoded "faultString" s (VString s)
              (string_text_decoded s)
              (decoded [VNumber (Num.Fin c 0); VString (numeral c)] d1 st2))
    as [d2 Hd2].
  exists d2.
  change (feed st (Opentag "VALUE" :: Opentag "STRUCT" :: ?body ++ ?rest))
    with (feed st2 (body ++ rest)).
  cbn [List.flat_map]. rewrite List.app_nil_r.
  rewrite !feed_app, Hd1, Hd2.
  change (feed ?x [Closetag "STRUCT"; Closetag "VALUE"])
    with (onClosetag "VALUE" (onClosetag "STRUCT" x)).
  rewrite decoded_twice.
  change (decoded ?vs d2 st2)
    with (decoded vs d2
            (set_marks (marks st ++ [List.length (stack st)]) st)).
  rewrite struct_closed.
  cbn [List.app struct_of]. 
  change (ToString (VNumber (Num.Fin c 0))) with (Num.toString (Num.Fin c 0)).
  rewrite (toString_numeral c Hc).
  reflexivity.
Qed.

End ServedFault.




(* ===================================================================== *)
(** * Datetimes: decoding what was encoded *)
(* ===================================================================== *)

Lemma all_from_spec (p : Z -> bool) (count : nat) : forall z x,
  all_from count z p = true -> z <= x < z + Z.of_nat count -> p x = true.
Proof.
  induction count as [|k IH]; intros z x Hall Hx.
  - lia.
  - cbn [all_from] in Hall. apply andb_true_iff in Hall as [Hz Hrest].
    destruct (Z.eq_dec x z) as [->|Hne]; [exact Hz|].
    apply (IH (z + 1)); [exact Hrest|lia].
Qed.

Lemma every_day_of_era :
  all_from (Z.to_nat 146097) 0 (fun doe => in_calendar (month_day_of doe))
  = true.
Proof. vm_compute. reflexivity. Qed.

Lemma search_some input r s c :
  Regex.match_at input r s = Some c -> Regex.search input r s = Some c.
Proof. intros E. destruct s; cbn [Regex.search]; rewrite E; reflexivity. Qed.

Lemma run_opt_some input r s c k res :
  Regex.run input r s c
    (fun s' c' => if Nat.eqb (String.length s') (String.length s) then None
                  else k s' c') = Some res ->
  Regex.run input (Regex.Opt r) s c k = Some res.
Proof. intros E. rewrite run_opt, E. reflexivity. Qed.

Lemma run_opt_none input r s c k :
  Regex.run input r s c
    (fun s' c' => if Nat.eqb (String.length s') (String.length s) then None
                  else k s' c') = None ->
  Regex.run input (Regex.Opt r) s c k = k s c.
Proof. intros E. rewrite run_opt, E. reflexivity. Qed.

Lemma run_alt_some input r1 r2 s c k res :
  Regex.run input r1 s c k = Some res ->
  Regex.run input (Regex.Alt r1 r2) s c k = Some res.
Proof. intros E. cbn [Regex.run]. rewrite E. reflexivity. Qed.

Lemma run_group input n r s c k :
  Regex.run input (Regex.Group n r) s c k
  = Regex.run input r s c (fun s' c' =>
      k s' ((n, String.substring 0 (String.length s - String.length s') s)
            :: c')).
Proof. reflexivity. Qed.

Lemma run_cls input p a s c k :
  Regex.run input (Regex.Cls p) (String a s) c k
  = if p a then k s c else None.
Proof. reflexivity. Qed.

Lemma run_lit_cons input x a s c k :
  Regex.run input (Regex.Lit x) (String a s) c k
  = if Chr.eqb a x then k s c else None.
Proof. reflexivity. Qed.

Lemma run_plus input p a s c k :
  Regex.run input (Regex.Plus p) (String a s) c k
  = if p a then Regex.star p s (fun s'' => k s'' c) else None.
Proof. reflexivity. Qed.

Lemma star_more p a s k res :
  p a = true -> Regex.star p s k = Some res ->
  Regex.star p (String a s) k = Some res.
Proof. intros Hp E. cbn [Regex.star]. rewrite Hp, E. reflexivity. Qed.

Lemma star_stop p a s k :
  p a = false -> Regex.star p (String a s) k = k (String a s).
Proof. intros Hp. cbn [Regex.star]. rewrite Hp. reflexivity. Qed.

Ltac decide_test :=
  lazymatch goal with
  | |- (if ?b then _ else _) = _ =>
      first
        [ match goal with H : b = _ |- _ => rewrite H end
        | let v := eval vm_compute in b in
          lazymatch v with
          | true => change b with true
          | false => change b with false
          end ];
      cbv beta iota
  end.

Lemma run_alt_second input r1 r2 s c k :
  Regex.run input r1 s c k = None ->
  Regex.run input (Regex.Alt r1 r2) s c k = Regex.run input r2 s c k.
Proof. intros E. cbn [Regex.run]. rewrite E. reflexivity. Qed.

Lemma run_alt_none input r1 r2 s c k :
  Regex.run input r1 s c k = None ->
  Regex.run input r2 s c k = None ->
  Regex.run input (Regex.Alt r1 r2) s c k = None.
Proof. intros E1 E2. cbn [Regex.run]. rewrite E1, E2. reflexivity. Qed.

Ltac regex_none :=
  lazymatch goal with
  | |- Regex.run _ (Regex.Seq _ _) _ _ _ = None => rewrite run_seq; regex_none
  | |- Regex.run _ (Regex.Group _ _) _ _ _ = None =>
      rewrite run_group; regex_none
  | |- Regex.run _ (Regex.Lit _) (String _ _) _ _ = None =>
      rewrite run_lit_cons; decide_test; try reflexivity; regex_none
  | |- Regex.run _ (Regex.Cls _) (String _ _) _ _ = None =>
      rewrite run_cls; decide_test; try reflexivity; regex_none
  | |- Regex.run _ (Regex.Lit _) EmptyString _ _ = None => reflexivity
  | |- Regex.run _ (Regex.Cls _) EmptyString _ _ = None => reflexivity
  | |- Regex.run _ (Regex.Alt _ _) _ _ _ = None =>
      apply run_alt_none; regex_none
  | |- None = None => reflexivity
  end.

Ltac regex_go :=
  lazymatch goal with
  | |- Regex.run _ (Regex.Seq _ _) _ _ _ = _ => rewrite run_seq; regex_go
  | |- Regex.run _ (Regex.Group _ _) _ _ _ = _ => rewrite run_group; regex_go
  | |- Regex.run _ (Regex.Cls _) (String _ _) _ _ = _ =>
      rewrite run_cls; decide_test; regex_go
  | |- Regex.run _ (Regex.Lit _) (String _ _) _ _ = _ =>
      rewrite run_lit_cons; decide_test; regex_go
  | |- Regex.run _ (Regex.Plus _) (String _ _) _ _ = _ =>
      rewrite run_plus; decide_test; regex_go
  | |- Regex.run _ (Regex.Opt _) _ _ _ = _ =>
      first [ rewrite run_opt_none by regex_none; cbv beta; regex_go
            | apply run_opt_some; regex_go ]
  | |- Regex.run _ (Regex.Alt _ _) _ _ _ = _ =>
      first [ rewrite run_alt_second by regex_none; regex_go
            | apply run_alt_some; regex_go ]
  | |- Regex.star _ (String ?a _) _ = _ =>
      first [ apply star_more;
              [first [assumption | vm_compute; reflexivity] | regex_go]
            | rewrite star_stop by (vm_compute; reflexivity);
              cbv beta; regex_go ]
  | |- Regex.star _ EmptyString _ = _ =>
      cbn [Regex.star]; cbv beta; regex_go
  | |- (if Nat.eqb _ _ then _ else _) = _ => decide_test; regex_go
  | |- Some _ = Some _ => reflexivity
  end.

Lemma digit_not_punctuation (a : ascii) :
  Chr.is_digit a = true ->
  Chr.eqb a "-" = false /\ Chr.eqb a ":" = false.
Proof.
  intros Ha.
  destruct a as [[] [] [] [] [] [] [] []]; try discriminate Ha; split;
    reflexivity.
Qed.

Section Shapes.
Context `{Host}.

Ltac digits_of parts Hparts :=
  destruct parts as [|? [|? [|? [|? [|? [|? [|? [|]]]]]]]];
    try discriminate Hparts;
  cbn [seven_parts] in Hparts;
  repeat (let E := fresh "E" in apply andb_true_iff in Hparts as [Hparts E]);
  repeat match goal with
         | E : four_digits ?s = true |- _ =>
             is_var s; destruct s as [|? [|? [|? [|? [|]]]]];
             try discriminate E; cbn [four_digits] in E
         | E : three_digits ?s = true |- _ =>
             is_var s; destruct s as [|? [|? [|? [|]]]];
             try discriminate E; cbn [three_digits] in E
         | E : two_digits ?s = true |- _ =>
             is_var s; destruct s as [|? [|? [|]]];
             try discriminate E; cbn [two_digits] in E
         end.

Ltac digit_hyps :=
  repeat match goal with
         | E : _ && _ = true |- _ => apply andb_true_iff in E as [? ?]
         end;
  repeat match goal with
         | E : Chr.is_digit ?a = true |- _ =>
             lazymatch goal with
             | _ : Chr.eqb a "-" = false |- _ => fail
             | _ => pose proof (digit_not_punctuation a E) as [? ?]
             end
         end.

Ltac decode_shape :=
  unfold DateFormatter.decodeIso8601;
  match goal with
  | |- match Regex.exec ?r ?t with _ => _ end = inl (Date_parse ?rhs) =>
      let t' := eval cbv [Str.join String.append List.nth] in t in
      change t with t';
      let E := fresh "E" in
      assert (E : exists c, Regex.exec r t' = Some c
                            /\ DateFormatter.isoText c = rhs);
      [ eexists; split;
        [ unfold Regex.exec; apply search_some; unfold Regex.match_at;
          cbv [DateFormatter.ISO8601 Regex.seq Regex.times];
          regex_go
        | reflexivity ]
      | destruct E as (? & -> & ->); reflexivity ]
  end.

(** The text that [encodeIso8601] writes for seven parts, whatever the
    punctuation, followed by a zone designator: the pattern takes it
    apart, and the Date constructor is handed the punctuated text and
    that designator. *)
Lemma zoned_text_decoded (hy co fr : bool) (parts : list string)
      (zone : string) :
  seven_parts parts = true ->
  designator zone = true ->
  let p i := List.nth i parts "" in
  DateFormatter.decodeIso8601
    (Str.join ""
       [Str.join (if hy then "-" else "") [p 0%nat; p 1%nat; p 2%nat];
        "T";
        Str.join (if co then ":" else "") [p 3%nat; p 4%nat; p 5%nat];
        (if fr then "." +:+ p 6%nat else "");
        zone])
  = inl (Date_parse (wall_clock parts fr +:+ zone)).
Proof.
  intros Hparts Hzone p. unfold wall_clock. subst p. cbv zeta.
  digits_of parts Hparts.
  apply orb_true_iff in Hzone as [Hzone|Hzone].
  - (* Z *)
    apply String.eqb_eq in Hzone. subst zone.
    digit_hyps.
    destruct hy, co, fr; decode_shape.
  - (* a signed offset *)
    destruct zone as [|sg [|za [|zb [|col [|zc [|zd [|]]]]]]];
      try discriminate Hzone.
    repeat (let E := fresh "E" in apply andb_true_iff in Hzone as [Hzone E]).
    assert (Hsg : sg = "+"%char \/ sg = "-"%char).
    { destruct sg as [[] [] [] [] [] [] [] []]; try discriminate Hzone; auto. }
    assert (Hcol : col = ":"%char).
    { destruct col as [[] [] [] [] [] [] [] []];
        match goal with E : Chr.eqb _ ":" = true |- _ =>
          try discriminate E end; reflexivity. }
    subst col.
    destruct Hsg as [-> | ->]; digit_hyps; destruct hy, co, fr; decode_shape.
Qed.

(** The same text without a designator: the offset of the current time
    is appended. *)
Lemma unzoned_text_decoded (hy co fr : bool) (parts : list string) :
  seven_parts parts = true ->
  let p i := List.nth i parts "" in
  DateFormatter.decodeIso8601
    (Str.join ""
       [Str.join (if hy then "-" else "") [p 0%nat; p 1%nat; p 2%nat];
        "T";
        Str.join (if co then ":" else "") [p 3%nat; p 4%nat; p 5%nat];
        (if fr then "." +:+ p 6%nat else "");
        ""])
  = inl (Date_parse
           (wall_clock parts fr
            +:+ DateFormatter.formatCurrentOffset (Some (Some now)))).
Proof.
  intros Hparts p. unfold wall_clock. subst p. cbv zeta.
  digits_of parts Hparts. digit_hyps.
  destruct hy, co, fr; decode_shape.
Qed.

End Shapes.

Lemma civil_month_day (z0 : Z) :
  exists y m d, Cal.civil_from_days z0 = (y, m, d)
                /\ 1 <= m <= 12 /\ 1 <= d <= 31.
Proof.
  unfold Cal.civil_from_days.
  set (z := z0 + 719468).
  set (doe := z - z / 146097 * 146097).
  assert (Hdoe : 0 <= doe < 0 + Z.of_nat (Z.to_nat 146097)).
  { unfold doe. pose proof (Z.mod_pos_bound z 146097 ltac:(lia)) as Hm.
    rewrite Z.mod_eq in Hm by lia. lia. }
  pose proof (all_from_spec _ _ 0 doe every_day_of_era Hdoe) as Hok.
  cbv beta in Hok. unfold in_calendar, month_day_of in Hok.
  cbn [fst snd] in Hok.
  repeat (apply andb_true_iff in Hok as [Hok ?]).
  eexists _, _, _. split; [reflexivity|]. lia.
Qed.

Lemma fields_shape (t : Z) :
  exists y m d hh mm ss ms,
    Cal.fields t = [y; m; d; hh; mm; ss; ms]
    /\ 1 <= m <= 12 /\ 1 <= d <= 31
    /\ 0 <= hh < 24 /\ 0 <= mm < 60 /\ 0 <= ss < 60 /\ 0 <= ms < 1000.
Proof.
  unfold Cal.fields.
  destruct (civil_month_day (t / Cal.msPerDay)) as (y & m & d & -> & Hm & Hd).
  pose proof (Z.mod_pos_bound t Cal.msPerDay ltac:(reflexivity)) as Hr.
  set (r := t mod Cal.msPerDay) in *. unfold Cal.msPerDay in Hr.
  eexists y, m, d, _, _, _, _. split; [reflexivity|].
  repeat split; try lia;
    try (apply Z.div_pos; lia);
    try (apply Z.div_lt_upper_bound; lia);
    try (apply Z.mod_pos_bound; lia).
Qed.

Lemma pad_two (n : Z) :
  0 <= n < 100 ->
  two_digits (DateFormatter.zeroPad (Num.of_Z n) 2) = true.
Proof.
  intros Hn.
  assert (Hall : all_from 100 0
            (fun n => two_digits (DateFormatter.zeroPad (Num.of_Z n) 2)) = true)
    by (vm_compute; reflexivity).
  apply (all_from_spec _ _ 0 n Hall). lia.
Qed.

Lemma pad_three (n : Z) :
  0 <= n < 1000 ->
  three_digits (DateFormatter.zeroPad (Num.of_Z n) 3) = true.
Proof.
  intros Hn.
  assert (Hall : all_from 1000 0
            (fun n => three_digits (DateFormatter.zeroPad (Num.of_Z n) 3)) = true)
    by (vm_compute; reflexivity).
  apply (all_from_spec _ _ 0 n Hall). lia.
Qed.

Lemma year_four (y : Z) :
  1000 <= y <= 9999 -> four_digits (Num.toString (Num.of_Z y)) = true.
Proof.
  intros Hy.
  assert (Hall : all_from (Z.to_nat 9000) 1000
            (fun y => four_digits (Num.toString (Num.of_Z y))) = true)
    by (vm_compute; reflexivity).
  apply (all_from_spec _ _ 1000 y Hall).
  rewrite Z2Nat.id by lia. lia.
Qed.

(** The parts written for a time value with a four-digit year. *)
Lemma padded_parts_shape (u : Z) :
  1000 <= List.nth 0 (Cal.fields u) 0 <= 9999 ->
  seven_parts (DateFormatter.padded_parts (List.map Some (Cal.fields u)))
  = true.
Proof.
  intros Hyear.
  destruct (fields_shape u)
    as (y & m & d & hh & mm & ss & ms & Efields
        & Hm & Hd & Hhh & Hmm & Hss & Hms).
  rewrite Efields in Hyear |- *. cbn [List.nth] in Hyear.
  unfold DateFormatter.padded_parts, DateFormatter.part.
  cbn [List.map List.nth DateFormatter.number_of seven_parts].
  rewrite (year_four y Hyear), !pad_two, (pad_three ms Hms) by lia.
  reflexivity.
Qed.

Lemma offset_designator `{Host} (t : Z) :
  Z.abs (timezoneOffset t) < 1440 ->
  designator (DateFormatter.formatCurrentOffset (Some (Some t))) = true.
Proof.
  intros Hoff. unfold DateFormatter.formatCurrentOffset.
  cbn [DateFormatter.getTimezoneOffset].
  set (o := timezoneOffset t) in *.
  destruct (Z.eqb_spec o 0) as [|Hnz]; [reflexivity|].
  assert (Hh : 0 <= Z.abs (o / 60) < 100).
  { split; [apply Z.abs_nonneg|].
    assert (-24 <= o / 60 < 25); [|lia].
    split; [apply Z.div_le_lower_bound; lia|apply Z.div_lt_upper_bound; lia]. }
  assert (Hm : 0 <= Z.abs (Z.rem o 60) < 100).
  { split; [apply Z.abs_nonneg|].
    pose proof (Z.rem_bound_abs o 60 ltac:(lia)). lia. }
  pose proof (pad_two _ Hh) as Eh. pose proof (pad_two _ Hm) as Em.
  destruct (DateFormatter.zeroPad (Num.of_Z (Z.abs (o / 60))) 2)
    as [|a [|b [|]]]; try discriminate Eh.
  destruct (DateFormatter.zeroPad (Num.of_Z (Z.abs (Z.rem o 60))) 2)
    as [|c [|d [|]]]; try discriminate Em.
  cbn [two_digits] in Eh, Em.
  apply andb_true_iff in Eh as [Ea Eb]. apply andb_true_iff in Em as [Ec Ed].
  destruct (o <? 0); cbv [String.append designator String.eqb];
    cbn [DateFormatter.is_sign]; rewrite Ea, Eb, Ec, Ed; reflexivity.
Qed.

Lemma encoding_decoded `{Host}
        (opts : DateFormatter.DateFormatterOptions) (t : Z) :
  1000 <= List.nth 0
            (Cal.fields (if DateFormatter.local opts
                         then t - timezoneOffset t * 60000 else t)) 0
       <= 9999 ->
  Z.abs (timezoneOffset t) < 1440 ->
  DateFormatter.decodeIso8601 (DateFormatter.encodeIso8601 opts (Some t))
  = inl (Date_parse
           (wall_clock
              (if DateFormatter.local opts
               then DateFormatter.getLocalDateParts (Some t)
               else DateFormatter.getUTCDateParts (Some t))
              (DateFormatter.ms opts)
            +:+ (if DateFormatter.local opts
                 then DateFormatter.formatCurrentOffset
                        (Some (Some (if DateFormatter.offset opts
                                     then t else now)))
                 else "Z"))).
Proof.
  intros Hyear Hoff.
  unfold DateFormatter.encodeIso8601.
  destruct (DateFormatter.local opts).
  - assert (Hparts : seven_parts (DateFormatter.getLocalDateParts (Some t))
                     = true).
    { unfold DateFormatter.getLocalDateParts, DateFormatter.getters.
      apply padded_parts_shape. exact Hyear. }
    destruct (DateFormatter.offset opts).
    + apply (zoned_text_decoded _ _ _ _ _ Hparts (offset_designator t Hoff)).
    + apply (unzoned_text_decoded _ _ _ _ Hparts).
  - assert (Hparts : seven_parts (DateFormatter.getUTCDateParts (Some t))
                     = true).
    { unfold DateFormatter.getUTCDateParts, DateFormatter.getters.
      rewrite Z.sub_0_r. apply padded_parts_shape. exact Hyear. }
    apply (zoned_text_decoded _ _ _ _ "Z" Hparts eq_refl).
Qed.

(** What comes back from an encoded date: for every setting of the
    options, a date with a four-digit year, and an offset of less than a
    day, [decodeIso8601] of the text of [encodeIso8601] constructs the
    Date from the punctuated text of the parts that were written (local
    or UTC), with [000] for milliseconds that were not written, followed
    by [Z] for UTC parts, by the offset of the date itself when the
    offset was written, and by the offset of the current time
    otherwise. *)
Theorem decode_of_encoding `{Host}
        (opts : DateFormatter.DateFormatterOptions) (t : Z) :
  1000 <= List.nth 0
            (Cal.fields (if DateFormatter.local opts
                         then t - timezoneOffset t * 60000 else t)) 0
       <= 9999 ->
  Z.abs (timezoneOffset t) < 1440 ->
  DateFormatter.decodeIso8601 (DateFormatter.encodeIso8601 opts (Some t))
  = inl (Date_parse
           (wall_clock
              (if DateFormatter.local opts
               then DateFormatter.getLocalDateParts (Some t)
               else DateFormatter.getUTCDateParts (Some t))
              (DateFormatter.ms opts)
            +:+ (if DateFormatter.local opts
                 then DateFormatter.formatCurrentOffset
                        (Some (Some (if DateFormatter.offset opts
                                     then t else now)))
                 else "Z"))).
Proof.
  exact (encoding_decoded opts t).
Qed.

Lemma decode_of_encoding_witness :
  DateFormatter.decodeIso8601 (H := Kolkata.host)
    (DateFormatter.encodeIso8601 (H := Kolkata.host)
       {| DateFormatter.colons := false; DateFormatter.hyphens := true;
          DateFormatter.local := true; DateFormatter.ms := false;
          DateFormatter.offset := true |}
       (Some 1704164645678))
  = inl (Date_parse (Host := Kolkata.host) "2024-01-02T08:34:05.000+06:30").
Proof.
  rewrite (decode_of_encoding (H := Kolkata.host)
             {| DateFormatter.colons := false; DateFormatter.hyphens := true;
                DateFormatter.local := true; DateFormatter.ms := false;
                DateFormatter.offset := true |}
             1704164645678).
  - reflexivity.
  - vm_compute. split; discriminate.
  - vm_compute. reflexivity.
Defined.

(* ===================================================================== *)
(** * Integers too long to be printed in full *)
(* ===================================================================== *)

(** A digit string is below the power of ten of its length. *)
Lemma digits_value_bound (s : string) :
  Str.all Chr.is_digit s = true ->
  0 <= Num.digits_value s < 10 ^ Z.of_nat (String.length s).
Proof.
  induction s as [|a s IH]; intros Hall.
  - cbn. lia.
  - cbn [Str.all] in Hall. apply andb_true_iff in Hall as [Ha Hs].
    rewrite digits_value_cons. cbn [String.length].
    rewrite Nat2Z.inj_succ, Z.pow_succ_r by lia.
    specialize (IH Hs).
    assert (Hd : 0 <= Chr.digit_value a <= 9).
    { destruct a as [[] [] [] [] [] [] [] []]; try discriminate Ha;
        vm_compute; split; discriminate. }
    nia.
Qed.

(** The first digit written for a positive integer is not zero. *)
Lemma digits_fuel_head (fuel : nat) : forall (n : Z) (acc : string),
  1 <= n < 2 ^ Z.of_nat fuel ->
  exists a rest, Num.digits_fuel fuel n acc = String a rest
                 /\ Chr.is_digit a = true /\ 1 <= Chr.digit_value a.
Proof.
  induction fuel as [|fuel IH]; intros n acc Hn.
  - change (2 ^ Z.of_nat 0) with 1 in Hn. lia.
  - cbn [Num.digits_fuel]. destruct (Z.ltb_spec n 10) as [Hlt|Hge].
    + exists (Chr.of_digit (n mod 10)), acc.
      rewrite Z.mod_small by lia.
      destruct (digit_char n ltac:(lia)) as (Hd & Hv & _).
      rewrite Hv. repeat split; [exact Hd|lia].
    + apply IH. split.
      * apply Z.div_le_lower_bound; lia.
      * apply Z.div_lt_upper_bound; [lia|].
        rewrite Nat2Z.inj_succ, Z.pow_succ_r in Hn by lia. lia.
Qed.

Lemma digits_head (n : Z) :
  1 <= n ->
  exists a rest, Num.digits n = String a rest
                 /\ Chr.is_digit a = true /\ 1 <= Chr.digit_value a.
Proof.
  intros Hn. unfold Num.digits. apply digits_fuel_head.
  split; [exact Hn|].
  rewrite Nat2Z.inj_succ, Z2Nat.id by apply Z.log2_nonneg.
  apply Z.log2_spec. lia.
Qed.

Lemma zeros_head (j : nat) (a : ascii) (rest : string) :
  Num.zeros j = String a rest -> a = "0"%char.
Proof. destruct j; [discriminate|]. cbn. congruence. Qed.

(** What is left of a digit string that does not start with a zero when
    its trailing zeros are stripped starts with the same digit. *)
Lemma strip_trailing_zeros_head (a : ascii) (rest : string) :
  a <> "0"%char ->
  exists rest', Num.strip_trailing_zeros (String a rest) = String a rest'.
Proof.
  intros Ha.
  destruct (strip_trailing_zeros_back (String a rest)) as (j & Hds & _).
  destruct (Num.strip_trailing_zeros (String a rest)) as [|b s'].
  - change ("" +:+ Num.zeros j) with (Num.zeros j) in Hds.
    symmetry in Hds. apply zeros_head in Hds. contradiction.
  - change (String b s' +:+ Num.zeros j)
      with (String b (s' +:+ Num.zeros j)) in Hds.
    injection Hds as -> _. exists s'. reflexivity.
Qed.

(** A positive integer of more than 21 digits is printed with an
    exponent: its first digit, then a point or the letter e. *)
Lemma positive_toString_large (m : Z) :
  10 ^ 21 <= m ->
  exists a b rest,
    Num.positive_toString (Num.digits m) 0 = String a (String b rest)
    /\ Chr.is_digit a = true /\ 1 <= Chr.digit_value a
    /\ Chr.is_digit b = false.
Proof.
  intros Hm.
  destruct (digits_spec m ltac:(lia)) as (Hall & _ & Hv).
  pose proof (digits_value_bound _ Hall) as Hb. rewrite Hv in Hb.
  assert (Hlen : 21 < Z.of_nat (String.length (Num.digits m))).
  { destruct (Z.lt_ge_cases 21 (Z.of_nat (String.length (Num.digits m))))
      as [|Hle]; [assumption|].
    assert (10 ^ Z.of_nat (String.length (Num.digits m)) <= 10 ^ 21)
      by (apply Z.pow_le_mono_r; lia).
    lia. }
  destruct (digits_head m ltac:(lia)) as (a & rest & Hd & Ha & Hva).
  assert (Hnz : a <> "0"%char).
  { intros ->. change (Chr.digit_value "0") with 0 in Hva. lia. }
  unfold Num.positive_toString. cbv zeta. rewrite Hd in *.
  destruct (strip_trailing_zeros_head a rest Hnz) as [rest' ->].
  set (n := Z.of_nat (String.length (String a rest)) - Z.of_nat 0) in *.
  assert (Hn : 21 < n) by (unfold n; lia).
  assert (H21 : (n <=? 21) = false) by (apply Z.leb_gt; lia).
  assert (H0 : (n <=? 0) = false) by (apply Z.leb_gt; lia).
  remember (Z.of_nat (String.length (String a rest')) =? 1) as one eqn:Hk.
  destruct one.
  - (* one digit, then e *)
    assert (rest' = "").
    { symmetry in Hk. apply Z.eqb_eq in Hk. destruct rest'; [reflexivity|].
      cbn [String.length] in Hk. lia. }
    subst rest'.
    exists a, "e"%char. eexists.
    rewrite H21, H0, !andb_false_r.
    split; [reflexivity|]. repeat split; auto.
  - exists a, "."%char. eexists.
    rewrite H21, H0, !andb_false_r.
    replace (Num.take 1 (String a rest')) with (String a "")
      by (unfold Num.take; cbn [String.substring]; destruct rest';
          reflexivity).
    split; [reflexivity|]. repeat split; auto.
Qed.

Lemma parseInt_leading (neg : bool) (a b : ascii) (rest : string) :
  Chr.is_digit a = true -> Chr.is_digit b = false ->
  Num.parseInt ((if neg then "-" else "") +:+ String a (String b rest))
  = Num.Fin (Num.signed neg (Chr.digit_value a)) 0.
Proof.
  intros Ha Hb. unfold Num.parseInt.
  assert (Hbody : Num.take_sign (Num.trim_start
                    ((if neg then "-" else "") +:+ String a (String b rest)))
                  = (neg, String a (String b rest))).
  { destruct neg.
    - reflexivity.
    - change ("" +:+ String a (String b rest)) with (String a (String b rest)).
      rewrite (trim_start_no_space a _ (digit_not_space a Ha)).
      destruct a as [[] [] [] [] [] [] [] []]; try reflexivity;
        discriminate Ha. }
  rewrite Hbody. cbn [Num.digit_prefix]. rewrite Ha, Hb.
  cbn [Str.is_empty]. unfold Num.digits_value. cbn [Num.digits_value_from].
  f_equal.
Qed.

(** An integer of more than 21 digits is printed so that [parseInt] reads
    one digit of it. *)
Lemma large_integer_text (z : Z) :
  10 ^ 21 <= Z.abs z ->
  exists d, 1 <= d <= 9
    /\ Num.parseInt (Num.toString (Num.Fin z 0))
       = Num.Fin (if z <? 0 then - d else d) 0
    /\ Str.is_empty (Num.toString (Num.Fin z 0)) = false.
Proof.
  intros Hz. unfold Num.toString.
  destruct (Z.eqb_spec z 0) as [->|Hnz]; [cbn in Hz; lia|].
  destruct (Z.ltb_spec z 0) as [Hneg|Hpos].
  - destruct (positive_toString_large (- z) ltac:(lia))
      as (a & b & rest & -> & Ha & Hva & Hb).
    exists (Chr.digit_value a).
    assert (Hd : Chr.digit_value a <= 9).
    { destruct a as [[] [] [] [] [] [] [] []]; try discriminate Ha;
        vm_compute; discriminate. }
    split; [lia|]. split; [|reflexivity].
    apply (parseInt_leading true a b rest Ha Hb).
  - destruct (positive_toString_large z ltac:(lia))
      as (a & b & rest & -> & Ha & Hva & Hb).
    exists (Chr.digit_value a).
    assert (Hd : Chr.digit_value a <= 9).
    { destruct a as [[] [] [] [] [] [] [] []]; try discriminate Ha;
        vm_compute; discriminate. }
    split; [lia|]. split; [|reflexivity].
    apply (parseInt_leading false a b rest Ha Hb).
Qed.

(** An integer of 22 digits or more does not come back: it is written
    with an exponent, of which [INT] reads the first digit. *)
Theorem large_integer_read_as_digit `{Host} (builder : Xml.Builder)
        (opts : DateFormatter.DateFormatterOptions) (z : Z) :
  10 ^ 21 <= Z.abs z ->
  exists d, 1 <= d <= 9
    /\ response_round_trip builder opts (VNumber (Num.Fin z 0))
       = Some [Deserializer.Response
                 (VNumber (Num.Fin (if z <? 0 then - d else d) 0))].
Proof.
  intros Hz.
  destruct (large_integer_text z Hz) as (d & Hd & Hparse & Hne).
  exists d. split; [exact Hd|].
  unfold response_round_trip. rewrite response_written. f_equal.
  unfold Deserializer.deserializeMethodResponse, Sax.document.
  rewrite events_response, <- !List.app_assoc, !feed_app.
  cbn [Document.value_node Num.is_integral].
  destruct (text_leaf_decoded "int" (Num.toString (Num.Fin z 0))
              (VNumber (Num.Fin (if z <? 0 then - d else d) 0))
              (Deserializer.feed
                 (Deserializer.set_callback
                    (Some Deserializer.ResponseCallback) Deserializer.init)
                 [Deserializer.Opentag "METHODRESPONSE";
                  Deserializer.Opentag "PARAMS";
                  Deserializer.Opentag "PARAM"]) eq_refl) as [dd ->].
  - intros s. change (Str.toUpperCase "int") with "INT".
    change (Deserializer.dispatch "INT" ?t s) with (Deserializer.endInt t s).
    unfold Deserializer.endInt. rewrite Hparse. reflexivity.
  - reflexivity.
Qed.

Lemma large_integer_read_as_digit_witness :
  exists d, 1 <= d <= 9
    /\ response_round_trip (H := UTC.host) Xml.xmlbuilder
         DateFormatter.DEFAULT_OPTIONS (VNumber (Num.Fin (- 10 ^ 21) 0))
       = Some [Deserializer.Response
                 (VNumber (Num.Fin (if - 10 ^ 21 <? 0 then - d else d) 0))].
Proof.
  apply (large_integer_read_as_digit (H := UTC.host)). vm_compute.
  discriminate.
Defined.

(* ===================================================================== *)
(** * Dates among the values *)
(* ===================================================================== *)

(** A date comes back as the Date that [decodeIso8601] constructs from
    the text [encodeIso8601] wrote for it under the options of the
    formatter: decoding the response calls the callback once, with the
    Date of the punctuated text of the parts written and the zone
    designator that belongs to the options. *)
Theorem date_read_back `{Host} (builder : Xml.Builder)
        (opts : DateFormatter.DateFormatterOptions) (t : Z) :
  1000 <= List.nth 0
            (Cal.fields (if DateFormatter.local opts
                         then t - timezoneOffset t * 60000 else t)) 0
       <= 9999 ->
  Z.abs (timezoneOffset t) < 1440 ->
  response_round_trip builder opts (VDate (Some t))
  = Some [Deserializer.Response
            (VDate
               (Date_parse
                  (wall_clock
                     (if DateFormatter.local opts
                      then DateFormatter.getLocalDateParts (Some t)
                      else DateFormatter.getUTCDateParts (Some t))
                     (DateFormatter.ms opts)
                   +:+ (if DateFormatter.local opts
                        then DateFormatter.formatCurrentOffset
                               (Some (Some (if DateFormatter.offset opts
                                            then t else now)))
                        else "Z"))))].
Proof.
  intros Hyear Hoff.
  unfold response_round_trip. rewrite response_written. f_equal.
  unfold Deserializer.deserializeMethodResponse, Sax.document.
  rewrite events_response, <- !List.app_assoc, !feed_app.
  cbn [Document.value_node].
  destruct (text_leaf_decoded "dateTime.iso8601"
              (DateFormatter.encodeIso8601 opts (Some t))
              (VDate
                 (Date_parse
                    (wall_clock
                       (if DateFormatter.local opts
                        then DateFormatter.getLocalDateParts (Some t)
                        else DateFormatter.getUTCDateParts (Some t))
                       (DateFormatter.ms opts)
                     +:+ (if DateFormatter.local opts
                          then DateFormatter.formatCurrentOffset
                                 (Some (Some (if DateFormatter.offset opts
                                              then t else now)))
                          else "Z"))))
              (Deserializer.feed
                 (Deserializer.set_callback
                    (Some Deserializer.ResponseCallback) Deserializer.init)
                 [Deserializer.Opentag "METHODRESPONSE";
                  Deserializer.Opentag "PARAMS";
                  Deserializer.Opentag "PARAM"]) eq_refl) as [d ->].
  - intros s.
    change (Str.toUpperCase "dateTime.iso8601") with "DATETIME.ISO8601".
    change (Deserializer.dispatch "DATETIME.ISO8601" ?x s)
      with (Deserializer.endDateTime x s).
    unfold Deserializer.endDateTime.
    rewrite (encoding_decoded opts t Hyear Hoff). reflexivity.
  - reflexivity.
Qed.

Lemma date_read_back_witness :
  response_round_trip (H := UTC.host) Xml.xmlbuilder
    DateFormatter.DEFAULT_OPTIONS (VDate (Some 1704164645678))
  = Some [Deserializer.Response (VDate (Some 1704164645000))].
Proof.
  rewrite (date_read_back (H := UTC.host) Xml.xmlbuilder
             DateFormatter.DEFAULT_OPTIONS 1704164645678).
  - vm_compute. reflexivity.
  - vm_compute. split; discriminate.
  - vm_compute. reflexivity.
Defined.

(* ===================================================================== *)
(** * Numbers with decimals *)
(* ===================================================================== *)

Lemma all_append (p : ascii -> bool) (u v : string) :
  Str.all p (u +:+ v) = Str.all p u && Str.all p v.
Proof.
  induction u as [|a u IH]; [reflexivity|].
  change (String a u +:+ v) with (String a (u +:+ v)).
  cbn [Str.all]. rewrite IH, andb_assoc. reflexivity.
Qed.

Lemma digit_prefix_append (u v : string) :
  Str.all Chr.is_digit u = true ->
  Num.digit_prefix (u +:+ v) = u +:+ Num.digit_prefix v.
Proof.
  induction u as [|a u IH]; intros Hu; [reflexivity|].
  cbn [Str.all] in Hu. apply andb_true_iff in Hu as [Ha Hu].
  change (String a u +:+ v) with (String a (u +:+ v)).
  cbn [Num.digit_prefix]. rewrite Ha, (IH Hu). reflexivity.
Qed.

Lemma drop_append (u v : string) :
  Num.drop (String.length u) (u +:+ v) = v.
Proof.
  induction u as [|a u IH].
  - destruct v; reflexivity.
  - change (String a u +:+ v) with (String a (u +:+ v)).
    cbn [String.length Num.drop]. exact IH.
Qed.

Lemma take_drop (n : nat) : forall s : string,
  Num.take n s +:+ Num.drop n s = s.
Proof.
  unfold Num.take.
  induction n as [|n IH]; intros s.
  - destruct s; reflexivity.
  - destruct s as [|a s]; [reflexivity|].
    cbn [String.substring Num.drop].
    change (String a (String.substring 0 n s) +:+ Num.drop n s)
      with (String a (String.substring 0 n s +:+ Num.drop n s)).
    rewrite IH. reflexivity.
Qed.

Lemma take_length (n : nat) : forall s : string,
  (n <= String.length s)%nat -> String.length (Num.take n s) = n.
Proof.
  unfold Num.take.
  induction n as [|n IH]; intros s Hn.
  - destruct s; reflexivity.
  - destruct s as [|a s]; [cbn in Hn; lia|].
    cbn [String.substring String.length]. rewrite IH; [reflexivity|].
    cbn [String.length] in Hn. lia.
Qed.

Lemma digits_value_append (u v : string) :
  Num.digits_value (u +:+ v)
  = Num.digits_value u * 10 ^ Z.of_nat (String.length v) + Num.digits_value v.
Proof.
  induction u as [|a u IH].
  - change ("" +:+ v) with v. change (Num.digits_value "") with 0. lia.
  - change (String a u +:+ v) with (String a (u +:+ v)).
    rewrite !digits_value_cons, IH, append_length, Nat2Z.inj_add,
      Z.pow_add_r by lia.
    ring.
Qed.

Lemma zeros_facts (j : nat) :
  Str.all Chr.is_digit (Num.zeros j) = true
  /\ Num.digits_value (Num.zeros j) = 0
  /\ String.length (Num.zeros j) = j.
Proof.
  induction j as [|j (Ha & Hv & Hl)]; [repeat split|].
  cbn [Num.zeros Str.all String.length]. rewrite Ha, Hl.
  repeat split. rewrite digits_value_cons, Hv.
  change (Chr.digit_value "0") with 0. lia.
Qed.

(** The digits of an integer that is not a multiple of ten have no
    trailing zero to strip. *)
Lemma strip_trailing_zeros_none (a : Z) :
  0 < a -> a mod 10 <> 0 ->
  Num.strip_trailing_zeros (Num.digits a) = Num.digits a.
Proof.
  intros Ha Hmod.
  destruct (digits_spec a ltac:(lia)) as (Hall & _ & Hv).
  destruct (strip_trailing_zeros_back (Num.digits a)) as (j & Hds & _).
  destruct j as [|j].
  - cbn [Num.zeros] in Hds. rewrite append_empty_r in Hds. congruence.
  - exfalso. apply Hmod.
    rewrite <- Hv, Hds, digits_value_append.
    destruct (zeros_facts (S j)) as (_ & -> & ->).
    rewrite Z.add_0_r, Nat2Z.inj_succ, Z.pow_succ_r by lia.
    rewrite Z.mul_comm, <- Z.mul_assoc, Z.mul_comm.
    apply Z.mod_mul. lia.
Qed.

Lemma strip_not_multiple (e : nat) (m : Z) :
  m mod 10 <> 0 -> (0 < e)%nat -> Num.strip e m = Num.Fin m e.
Proof.
  intros Hm He. destruct e as [|e]; [lia|].
  cbn [Num.strip]. destruct (Z.eqb_spec (m mod 10) 0); [contradiction|].
  reflexivity.
Qed.

Lemma digit_head_facts (a : ascii) :
  Chr.is_digit a = true ->
  Chr.is_space a = false
  /\ (forall r, Num.take_sign (String a r) = (false, String a r))
  /\ (forall r, Str.starts_with "Infinity" (String a r) = false).
Proof.
  intros Ha. split; [apply digit_not_space; exact Ha|].
  destruct a as [[] [] [] [] [] [] [] []]; try discriminate Ha;
    split; intros r; reflexivity.
Qed.

Lemma signed_text (neg : bool) (a : ascii) (r : string) :
  Chr.is_digit a = true ->
  Num.take_sign (Num.trim_start ((if neg then "-" else "") +:+ String a r))
  = (neg, String a r).
Proof.
  intros Ha. destruct (digit_head_facts a Ha) as (Hsp & Hsign & _).
  destruct neg.
  - reflexivity.
  - change ("" +:+ String a r) with (String a r).
    rewrite (trim_start_no_space a r Hsp). apply Hsign.
Qed.

Lemma exponent_read (x : Z) :
  (let '(eneg, r') := Num.take_sign
                        ((if x <? 0 then "-" else "+")
                         +:+ Num.digits (Z.abs x)) in
   let ed := Num.digit_prefix r' in
   if Str.is_empty ed then 0 else Num.signed eneg (Num.digits_value ed))
  = x.
Proof.
  destruct (digits_spec (Z.abs x) (Z.abs_nonneg x)) as (Hall & Hne & Hv).
  destruct (Z.ltb_spec x 0) as [Hneg|Hpos].
  - change (Num.take_sign ("-" +:+ Num.digits (Z.abs x)))
      with (true, Num.digits (Z.abs x)).
    cbv beta iota zeta. rewrite (digit_prefix_all _ Hall), Hne, Hv.
    cbn [Num.signed]. lia.
  - change (Num.take_sign ("+" +:+ Num.digits (Z.abs x)))
      with (false, Num.digits (Z.abs x)).
    cbv beta iota zeta. rewrite (digit_prefix_all _ Hall), Hne, Hv.
    cbn [Num.signed]. lia.
Qed.

(** [parseFloat] on a decimal literal: digits, then a point and digits
    or nothing, then an exponent or nothing. *)
Lemma parseFloat_parts (neg : bool) (ip : string) (fp : option string)
      (x : option Z) :
  Str.all Chr.is_digit ip = true ->
  Str.is_empty ip = false ->
  Str.all Chr.is_digit (DateFormatter.joined fp) = true ->
  Num.parseFloat
    ((if neg then "-" else "")
     +:+ ip
     +:+ match fp with Some f => "." +:+ f | None => "" end
     +:+ match x with Some x => exponent_text x | None => "" end)
  = Num.scaled
      (Num.signed neg (Num.digits_value (ip +:+ DateFormatter.joined fp)))
      (match x with Some x => x | None => 0 end
       - Z.of_nat (String.length (DateFormatter.joined fp))).
Proof.
  intros Hip Hne Hfp.
  destruct ip as [|a ip']; [discriminate Hne|].
  pose proof Hip as Hip0. cbn [Str.all] in Hip0.
  apply andb_true_iff in Hip0 as [Ha _].
  destruct (digit_head_facts a Ha) as (_ & _ & Hinf).
  unfold Num.parseFloat.
  set (rest := match fp with Some f => "." +:+ f | None => "" end
               +:+ match x with Some x => exponent_text x | None => "" end).
  change (String a ip' +:+ rest) with (String a (ip' +:+ rest)).
  rewrite (signed_text neg a (ip' +:+ rest) Ha), Hinf.
  change (String a (ip' +:+ rest)) with (String a ip' +:+ rest).
  assert (Hrest : Num.digit_prefix rest = "").
  { unfold rest. destruct fp as [f|]; [reflexivity|].
    destruct x as [x|]; reflexivity. }
  rewrite (digit_prefix_append _ rest Hip), Hrest, append_empty_r.
  rewrite drop_append.
  assert (Hex : forall r2,
    r2 = match x with Some x => exponent_text x | None => "" end ->
    match r2 with
    | String c r =>
        if Chr.eqb c "e" || Chr.eqb c "E"
        then
          let '(eneg, r') := Num.take_sign r in
          let ed := Num.digit_prefix r' in
          if Str.is_empty ed then 0 else Num.signed eneg (Num.digits_value ed)
        else 0
    | EmptyString => 0
    end = match x with Some x => x | None => 0 end).
  { intros r2 ->. destruct x as [x|]; [|reflexivity].
    unfold exponent_text.
    change ("e" +:+ (if x <? 0 then "-" else "+") +:+ Num.digits (Z.abs x))
      with (String "e" ((if x <? 0 then "-" else "+")
                        +:+ Num.digits (Z.abs x))).
    cbv iota. change (Chr.eqb "e" "e" || Chr.eqb "e" "E") with true.
    cbv iota. apply exponent_read. }
  destruct fp as [f|].
  - cbn [DateFormatter.joined] in *.
    unfold rest.
    change (("." +:+ f) +:+ ?t) with (String "." (f +:+ t)).
    cbv iota beta.
    assert (Ht : Num.digit_prefix
                   match x with Some x => exponent_text x | None => "" end
                 = "")
      by (destruct x; reflexivity).
    rewrite (digit_prefix_append f _ Hfp), Ht, append_empty_r, drop_append.
    cbn [Str.is_empty andb].
    rewrite (Hex _ eq_refl). reflexivity.
  - cbn [DateFormatter.joined] in *.
    unfold rest. change ("" +:+ ?t) with t.
    destruct x as [x|].
    + pose proof (Hex _ eq_refl) as Hx. cbv beta in Hx.
      unfold exponent_text in *.
      change ("e" +:+ (if x <? 0 then "-" else "+") +:+ Num.digits (Z.abs x))
        with (String "e" ((if x <? 0 then "-" else "+")
                          +:+ Num.digits (Z.abs x))) in *.
      cbv iota beta. cbn [Str.is_empty andb].
      rewrite Hx, append_empty_r. reflexivity.
    + cbv iota beta. cbn [Str.is_empty andb].
      rewrite append_empty_r. reflexivity.
Qed.

Lemma take_drop_digits (n : nat) (ds : string) :
  Str.all Chr.is_digit ds = true -> (n <= String.length ds)%nat ->
  Str.all Chr.is_digit (Num.take n ds) = true
  /\ Str.all Chr.is_digit (Num.drop n ds) = true
  /\ String.length (Num.take n ds) = n
  /\ String.length (Num.drop n ds) = (String.length ds - n)%nat.
Proof.
  intros Hall Hn.
  pose proof (take_drop n ds) as Hsplit.
  pose proof (take_length n ds Hn) as Hlen.
  rewrite <- Hsplit, all_append in Hall.
  apply andb_true_iff in Hall as [Ht Hd].
  repeat split; auto.
  pose proof (f_equal String.length Hsplit) as Hl.
  rewrite append_length in Hl. lia.
Qed.

(** The text of a positive number with decimals: a decimal literal whose
    digits are those of the number and whose exponent, less the number of
    digits after the point, is minus the number of decimals. *)
Lemma positive_toString_literal (a : Z) (e : nat) :
  0 < a -> a mod 10 <> 0 -> (0 < e)%nat ->
  exists (ip : string) (fp : option string) (x : option Z),
    Num.positive_toString (Num.digits a) e
    = ip +:+ match fp with Some f => "." +:+ f | None => "" end
         +:+ match x with Some x => exponent_text x | None => "" end
    /\ Str.all Chr.is_digit ip = true
    /\ Str.is_empty ip = false
    /\ Str.all Chr.is_digit (DateFormatter.joined fp) = true
    /\ Num.digits_value (ip +:+ DateFormatter.joined fp) = a
    /\ match x with Some x => x | None => 0 end
       - Z.of_nat (String.length (DateFormatter.joined fp))
       = - Z.of_nat e.
Proof.
  intros Ha Hmod He.
  destruct (digits_spec a ltac:(lia)) as (Hall & Hne & Hv).
  unfold Num.positive_toString. cbv zeta.
  rewrite (strip_trailing_zeros_none a Ha Hmod).
  set (ds := Num.digits a) in *.
  set (k := String.length ds).
  assert (Hk : (0 < k)%nat).
  { unfold k. destruct ds; [discriminate Hne|cbn; lia]. }
  set (n := Z.of_nat k - Z.of_nat e).
  assert (H1 : (Z.of_nat k <=? n) = false) by (apply Z.leb_gt; lia).
  rewrite H1. cbn [andb].
  destruct ((0 <? n) && (n <=? 21)) eqn:H2.
  - (* digits, a point, digits *)
    apply andb_true_iff in H2 as [Hpos _]. apply Z.ltb_lt in Hpos.
    destruct (take_drop_digits (Z.to_nat n) ds Hall ltac:(lia))
      as (Ht & Hd & Hlt & Hld).
    exists (Num.take (Z.to_nat n) ds), (Some (Num.drop (Z.to_nat n) ds)), None.
    cbn [DateFormatter.joined].
    repeat split; auto.
    + rewrite append_empty_r. reflexivity.
    + destruct (Num.take (Z.to_nat n) ds); [cbn in Hlt; lia|reflexivity].
    + rewrite take_drop. exact Hv.
    + rewrite Hld. fold k. lia.
  - destruct ((-6 <? n) && (n <=? 0)) eqn:H3.
    + (* zero, a point, zeros, digits *)
      apply andb_true_iff in H3 as [_ Hle]. apply Z.leb_le in Hle.
      destruct (zeros_facts (Z.to_nat (- n))) as (Hz & Hzv & Hzl).
      exists "0"%string, (Some (Num.zeros (Z.to_nat (- n)) +:+ ds)), None.
      cbn [DateFormatter.joined].
      repeat split; auto.
      * rewrite append_empty_r. reflexivity.
      * rewrite all_append, Hz, Hall. reflexivity.
      * rewrite !digits_value_append, Hzv, Hv.
        change (Num.digits_value "0") with 0. lia.
      * rewrite append_length, Hzl. fold k. lia.
    + (* an exponent *)
      assert (Hn : n <= 0 \/ 21 < n).
      { apply andb_false_iff in H2 as [H2|H2];
          [apply Z.ltb_ge in H2|apply Z.leb_gt in H2]; lia. }
      destruct (Z.eqb_spec (Z.of_nat k) 1) as [Hone|Hmore].
      * exists ds, None, (Some (n - 1)).
        cbn [DateFormatter.joined String.length].
        repeat split; auto.
        -- rewrite append_empty_r. exact Hv.
        -- lia.
      * destruct (take_drop_digits 1 ds Hall ltac:(lia))
          as (Ht & Hd & Hlt & Hld).
        exists (Num.take 1 ds), (Some (Num.drop 1 ds)), (Some (n - 1)).
        cbn [DateFormatter.joined].
        repeat split; auto.
        -- destruct (Num.take 1 ds); [cbn in Hlt; lia|reflexivity].
        -- rewrite take_drop. exact Hv.
        -- rewrite Hld. fold k. lia.
Qed.

(** A number with decimals is read back from its text. *)
Lemma parseFloat_toString (m : Z) (e : nat) :
  m mod 10 <> 0 -> (0 < e)%nat ->
  Num.parseFloat (Num.toString (Num.Fin m e)) = Num.Fin m e.
Proof.
  intros Hmod He. unfold Num.toString.
  destruct (Z.eqb_spec m 0) as [->|Hnz]; [contradiction Hmod; reflexivity|].
  assert (Hparse : forall (neg : bool) (a : Z),
    0 < a -> a mod 10 <> 0 ->
    Num.parseFloat ((if neg then "-" else "")
                    +:+ Num.positive_toString (Num.digits a) e)
    = Num.Fin (Num.signed neg a) e).
  { intros neg a Ha Hma.
    destruct (positive_toString_literal a e Ha Hma He)
      as (ip & fp & x & -> & Hip & Hne & Hfp & Hv & Hx).
    rewrite (parseFloat_parts neg ip fp x Hip Hne Hfp), Hv, Hx.
    unfold Num.scaled.
    replace (0 <=? - Z.of_nat e) with false by (symmetry; apply Z.leb_gt; lia).
    rewrite Z.opp_involutive, Nat2Z.id.
    apply strip_not_multiple; [|exact He].
    destruct neg; cbn [Num.signed]; [|exact Hma].
    intros E. apply Hma. apply Z.mod_opp_l_z in E; [|lia].
    rewrite Z.opp_involutive in E. exact E. }
  destruct (Z.ltb_spec m 0) as [Hneg|Hpos].
  - rewrite (Hparse true (- m)); [cbn [Num.signed]; f_equal; lia|lia|].
    intros E. apply Hmod. apply Z.mod_opp_l_z in E; [|lia].
    rewrite Z.opp_involutive in E. exact E.
  - change (Num.positive_toString (Num.digits m) e)
      with ("" +:+ Num.positive_toString (Num.digits m) e).
    rewrite (Hparse false m); [reflexivity|lia|exact Hmod].
Qed.

(** A number with decimals comes back: written as [double], with the
    digits and the exponent the host prints, it is read by [parseFloat]
    as the same number. *)
Theorem double_comes_back `{Host} (builder : Xml.Builder)
        (opts : DateFormatter.DateFormatterOptions) (m : Z) (e : nat) :
  m mod 10 <> 0 -> (0 < e)%nat ->
  response_round_trip builder opts (VNumber (Num.Fin m e))
  = Some [Deserializer.Response (VNumber (Num.Fin m e))].
Proof.
  intros Hmod He.
  unfold response_round_trip. rewrite response_written. f_equal.
  unfold Deserializer.deserializeMethodResponse, Sax.document.
  rewrite events_response, <- !List.app_assoc, !feed_app.
  assert (Hkind : Num.is_integral (Num.Fin m e) = false)
    by (destruct e; [lia|reflexivity]).
  cbn [Document.value_node]. rewrite Hkind.
  destruct (text_leaf_decoded "double" (Num.toString (Num.Fin m e))
              (VNumber (Num.Fin m e))
              (Deserializer.feed
                 (Deserializer.set_callback
                    (Some Deserializer.ResponseCallback) Deserializer.init)
                 [Deserializer.Opentag "METHODRESPONSE";
                  Deserializer.Opentag "PARAMS";
                  Deserializer.Opentag "PARAM"]) eq_refl) as [d ->].
  - intros s. change (Str.toUpperCase "double") with "DOUBLE".
    change (Deserializer.dispatch "DOUBLE" ?t s)
      with (Deserializer.endDouble t s).
    unfold Deserializer.endDouble.
    rewrite (parseFloat_toString m e Hmod He). reflexivity.
  - reflexivity.
Qed.

Lemma double_comes_back_witness :
  response_round_trip (H := UTC.host) Xml.xmlbuilder
    DateFormatter.DEFAULT_OPTIONS (VNumber (Num.Fin (-15) 8))
  = Some [Deserializer.Response (VNumber (Num.Fin (-15) 8))].
Proof.
  apply (double_comes_back (H := UTC.host)).
  - vm_compute. discriminate.
  - lia.
Defined.

(* ===================================================================== *)
(** * The cookie jar *)
(* ===================================================================== *)

Lemma own_put_same (l : list (string * Cookies.CookieRecord)) name c :
  Cookies.own (Cookies.put l name c) name = Some c.
Proof.
  induction l as [|[k c'] l IH]; cbn [Cookies.put Cookies.own].
  - rewrite String.eqb_refl. reflexivity.
  - destruct (String.eqb k name) eqn:E; cbn [Cookies.own]; rewrite E; auto.
Qed.

Lemma own_put_other (l : list (string * Cookies.CookieRecord)) name c other :
  String.eqb name other = false ->
  Cookies.own (Cookies.put l name c) other = Cookies.own l other.
Proof.
  intros Hne.
  induction l as [|[k c'] l IH]; cbn [Cookies.put Cookies.own].
  - rewrite Hne. reflexivity.
  - destruct (String.eqb k name) eqn:E; cbn [Cookies.own].
    + apply String.eqb_eq in E. subst k. rewrite Hne. reflexivity.
    + destruct (String.eqb k other); auto.
Qed.

Lemma own_filter (l : list (string * Cookies.CookieRecord))
      (p : string -> bool) name :
  Cookies.own (List.filter (fun kc => p (fst kc)) l) name
  = if p name then Cookies.own l name else None.
Proof.
  induction l as [|[k c] l IH]; cbn [List.filter Cookies.own fst].
  - destruct (p name); reflexivity.
  - destruct (String.eqb k name) eqn:E.
    + apply String.eqb_eq in E. subst k.
      destruct (p name) eqn:P; [|exact IH || (rewrite IH; reflexivity)].
      cbn [Cookies.own]. rewrite String.eqb_refl. reflexivity.
    + destruct (p k); [cbn [Cookies.own]; rewrite E|]; exact IH.
Qed.

Lemma own_names (l : list (string * Cookies.CookieRecord)) name :
  List.existsb (String.eqb name) (List.map fst l)
  = match Cookies.own l name with Some _ => true | None => false end.
Proof.
  induction l as [|[k c] l IH]; [reflexivity|].
  cbn [List.map fst List.existsb Cookies.own].
  rewrite (String.eqb_sym name k).
  destruct (String.eqb k name); [reflexivity|exact IH].
Qed.

Lemma names_put (l : list (string * Cookies.CookieRecord)) name c :
  List.map fst (Cookies.put l name c)
  = if List.existsb (String.eqb name) (List.map fst l)
    then List.map fst l else List.map fst l ++ [name].
Proof.
  induction l as [|[k c'] l IH]; [reflexivity|].
  cbn [Cookies.put List.map fst List.existsb].
  rewrite (String.eqb_sym name k).
  destruct (String.eqb k name) eqn:E; cbn [orb List.map fst].
  - reflexivity.
  - rewrite IH. destruct (List.existsb _ _); reflexivity.
Qed.

Lemma existsb_snoc (k : string) (l : list string) (x : string) :
  List.existsb (String.eqb k) (l ++ [x])
  = List.existsb (String.eqb k) l || String.eqb k x.
Proof.
  rewrite List.existsb_app. cbn [List.existsb]. rewrite orb_false_r.
  reflexivity.
Qed.

Lemma distinct_snoc (l : list string) (x : string) :
  distinct l = true -> List.existsb (String.eqb x) l = false ->
  distinct (l ++ [x]) = true.
Proof.
  induction l as [|k l IH]; intros Hd Hx; [reflexivity|].
  cbn [distinct List.app List.existsb] in *.
  apply andb_true_iff in Hd as [Hk Hd].
  apply orb_false_iff in Hx as [Hxk Hx].
  rewrite existsb_snoc, (String.eqb_sym k x), Hxk, orb_false_r, Hk.
  exact (IH Hd Hx).
Qed.

Lemma existsb_filter_false (k : string) (p : string -> bool)
      (l : list string) :
  List.existsb (String.eqb k) l = false ->
  List.existsb (String.eqb k) (List.filter p l) = false.
Proof.
  induction l as [|x l IH]; [reflexivity|].
  cbn [List.existsb List.filter]. intros Hx.
  apply orb_false_iff in Hx as [Hkx Hx].
  destruct (p x); cbn [List.existsb]; [rewrite Hkx|]; exact (IH Hx).
Qed.

Lemma distinct_filter (p : string -> bool) (l : list string) :
  distinct l = true -> distinct (List.filter p l) = true.
Proof.
  induction l as [|x l IH]; [reflexivity|].
  cbn [distinct List.filter]. intros Hd.
  apply andb_true_iff in Hd as [Hx Hd]. apply negb_true_iff in Hx.
  destruct (p x); [|exact (IH Hd)].
  cbn [distinct]. rewrite (existsb_filter_false x p l Hx). exact (IH Hd).
Qed.

Lemma names_filter (p : string -> bool)
      (l : list (string * Cookies.CookieRecord)) :
  List.map fst (List.filter (fun kc => p (fst kc)) l)
  = List.filter p (List.map fst l).
Proof.
  induction l as [|[k c] l IH]; [reflexivity|].
  cbn [List.filter List.map fst].
  destruct (p k); cbn [List.map fst]; rewrite IH; reflexivity.
Qed.

(** ** The shape of the jar is kept *)

Lemma well_formed_assign name c jar :
  Cookies.well_formed jar = true ->
  Cookies.well_formed (Cookies.assign name c jar) = true.
Proof.
  unfold Cookies.well_formed, Cookies.names, Cookies.assign.
  intros Hw. destruct (String.eqb name "__proto__") eqn:E;
    cbn [Cookies.cookies]; [exact Hw|].
  apply andb_true_iff in Hw as [Hd Hp]. apply negb_true_iff in Hp.
  rewrite names_put.
  destruct (List.existsb (String.eqb name) _) eqn:Hin.
  - rewrite Hd, Hp. reflexivity.
  - rewrite (distinct_snoc _ _ Hd Hin), existsb_snoc, Hp.
    rewrite (String.eqb_sym "__proto__" name), E. reflexivity.
Qed.

Lemma well_formed_delete name jar :
  Cookies.well_formed jar = true ->
  Cookies.well_formed (Cookies.delete name jar) = true.
Proof.
  unfold Cookies.well_formed, Cookies.names, Cookies.delete.
  cbn [Cookies.cookies]. intros Hw.
  apply andb_true_iff in Hw as [Hd Hp]. apply negb_true_iff in Hp.
  rewrite (names_filter (fun k => negb (String.eqb k name))).
  rewrite (distinct_filter _ _ Hd), (existsb_filter_false _ _ _ Hp).
  reflexivity.
Qed.

Section JarFacts.
Variable clock : nat -> Z.

Lemma well_formed_check name cookie jar :
  Cookies.well_formed jar = true ->
  Cookies.well_formed (snd (Cookies.checkNotExpired clock name cookie jar))
  = true.
Proof.
  intros Hw. unfold Cookies.checkNotExpired.
  destruct (negb (Cookies.truthy _)); [exact Hw|].
  destruct (Cookies.expires_of _) as [e|]; [|exact Hw].
  destruct (Cookies.past _ e); [|exact Hw].
  apply well_formed_delete. exact Hw.
Qed.

Lemma well_formed_set name v options jar :
  Cookies.well_formed jar = true ->
  Cookies.well_formed (Cookies.set clock name v options jar) = true.
Proof.
  intros Hw. unfold Cookies.set.
  pose proof (well_formed_check name
                (Some (Cookies.record_of v options)) jar Hw) as Hc.
  destruct (Cookies.checkNotExpired clock name _ jar) as [ok jar1].
  cbn [snd] in Hc. destruct ok; [|exact Hc].
  apply well_formed_assign. exact Hc.
Qed.

Lemma well_formed_get name jar :
  Cookies.well_formed jar = true ->
  Cookies.well_formed (snd (Cookies.get clock name jar)) = true.
Proof.
  intros Hw. unfold Cookies.get.
  destruct (Cookies.truthy _); [|exact Hw].
  pose proof (well_formed_check name None jar Hw) as Hc.
  destruct (Cookies.checkNotExpired clock name None jar) as [ok jar1].
  destruct ok; exact Hc.
Qed.

Lemma well_formed_unexpired ns : forall jar,
  Cookies.well_formed jar = true ->
  Cookies.well_formed (snd (Cookies.unexpired clock ns jar)) = true.
Proof.
  induction ns as [|n ns IH]; intros jar Hw; [exact Hw|].
  cbn [Cookies.unexpired].
  pose proof (well_formed_check n None jar Hw) as Hc.
  destruct (Cookies.checkNotExpired clock n None jar) as [ok jar1].
  cbn [snd] in Hc. specialize (IH jar1 Hc).
  destruct (Cookies.unexpired clock ns jar1) as [kept jar2]. exact IH.
Qed.

Lemma well_formed_toString jar :
  Cookies.well_formed jar = true ->
  Cookies.well_formed (snd (Cookies.toString clock jar)) = true.
Proof.
  intros Hw. unfold Cookies.toString.
  pose proof (well_formed_unexpired (Cookies.keys (Cookies.cookies jar))
                jar Hw) as Hu.
  destruct (Cookies.unexpired clock _ jar) as [kept jar1]. exact Hu.
Qed.

Lemma well_formed_parseOne `{Host} c jar :
  Cookies.well_formed jar = true ->
  Cookies.well_formed (Cookies.parseOne clock c jar) = true.
Proof.
  intros Hw. unfold Cookies.parseOne.
  destruct (Str.is_empty c); [exact Hw|].
  destruct (Cookies.split ";" c) as [|nv parts]; [exact Hw|].
  destruct (Str.is_empty nv); [exact Hw|].
  destruct (match Cookies.cut "=" nv with Some _ => _ | None => _ end)
    as [name value].
  apply well_formed_set. exact Hw.
Qed.

Lemma well_formed_parseResponse `{Host} h jar :
  Cookies.well_formed jar = true ->
  Cookies.well_formed (Cookies.parseResponse clock h jar) = true.
Proof.
  intros Hw. destruct h as [|s|l]; cbn [Cookies.parseResponse].
  - exact Hw.
  - destruct (Str.is_empty s); [exact Hw|].
    apply well_formed_parseOne. exact Hw.
  - revert jar Hw. induction l as [|c l IH]; intros jar Hw; [exact Hw|].
    cbn [List.fold_left]. apply IH. apply well_formed_parseOne. exact Hw.
Qed.

End JarFacts.

Lemma own_proto jar :
  Cookies.well_formed jar = true ->
  Cookies.own (Cookies.cookies jar) "__proto__" = None.
Proof.
  unfold Cookies.well_formed, Cookies.names. intros Hw.
  apply andb_true_iff in Hw as [_ Hp]. apply negb_true_iff in Hp.
  rewrite own_names in Hp.
  destruct (Cookies.own _ _); [discriminate|reflexivity].
Qed.

(** What [set] builds. *)
Lemma lookup_assign name c jar :
  Cookies.well_formed jar = true ->
  Cookies.lookup (Cookies.assign name c jar) name = Cookies.ARecord c.
Proof.
  intros Hw. unfold Cookies.assign.
  destruct (String.eqb name "__proto__") eqn:E.
  - apply String.eqb_eq in E. subst name.
    unfold Cookies.lookup. cbn [Cookies.cookies Cookies.prototype].
    rewrite (own_proto jar Hw). reflexivity.
  - unfold Cookies.lookup. cbn [Cookies.cookies Cookies.prototype].
    rewrite own_put_same. reflexivity.
Qed.

Section SetAndGet.
Variable clock : nat -> Z.

Lemma check_given name c jar :
  Cookies.checkNotExpired clock name (Some c) jar
  = if Cookies.fresh_at (clock (Cookies.reads jar)) (Cookies.expires c)
    then (true, Cookies.tick jar)
    else (false, Cookies.delete name (Cookies.tick jar)).
Proof.
  unfold Cookies.checkNotExpired, Cookies.fresh_at.
  cbn [Cookies.truthy negb Cookies.expires_of].
  destruct (Cookies.expires c) as [e|]; [|reflexivity].
  destruct (Cookies.past _ e); reflexivity.
Qed.

Lemma check_stored name c jar :
  Cookies.lookup jar name = Cookies.ARecord c ->
  Cookies.checkNotExpired clock name None jar
  = if Cookies.fresh_at (clock (Cookies.reads jar)) (Cookies.expires c)
    then (true, Cookies.tick jar)
    else (false, Cookies.delete name (Cookies.tick jar)).
Proof.
  intros Hl. unfold Cookies.checkNotExpired, Cookies.fresh_at.
  rewrite Hl. cbn [Cookies.truthy negb Cookies.expires_of].
  destruct (Cookies.expires c) as [e|]; [|reflexivity].
  destruct (Cookies.past _ e); reflexivity.
Qed.

Lemma set_cases name v options jar :
  Cookies.set clock name v options jar
  = if Cookies.fresh_at (clock (Cookies.reads jar)) (Cookies.expiry options)
    then Cookies.assign name (Cookies.record_of v options) (Cookies.tick jar)
    else Cookies.delete name (Cookies.tick jar).
Proof.
  unfold Cookies.set. rewrite check_given.
  replace (Cookies.expires (Cookies.record_of v options))
    with (Cookies.expiry options) by (destruct options; reflexivity).
  destruct (Cookies.fresh_at _ _); reflexivity.
Qed.

Lemma get_stored name c jar :
  Cookies.lookup jar name = Cookies.ARecord c ->
  Cookies.get clock name jar
  = if Cookies.fresh_at (clock (Cookies.reads jar)) (Cookies.expires c)
    then (Cookies.Text (Cookies.value c), Cookies.tick jar)
    else (Cookies.Null, Cookies.delete name (Cookies.tick jar)).
Proof.
  intros Hl. unfold Cookies.get. rewrite (check_stored name c jar Hl), Hl.
  cbn [Cookies.truthy].
  destruct (Cookies.fresh_at _ _); [|reflexivity].
  change (Cookies.lookup (Cookies.tick jar) name)
    with (Cookies.lookup jar name).
  rewrite Hl. reflexivity.
Qed.

End SetAndGet.

(** A cookie that was set is read back until it expires: when the date
    of expiry given to [set] is absent, invalid or not before the time
    [set] reads, a following [get] of the same name returns the value if
    the date has not passed at the time [get] reads, and [null] if it
    has.  This holds for every name, also one that plain objects
    inherit. *)
Theorem set_then_get (clock : nat -> Z) (name v : string)
        (options : option Cookies.Options) (jar : Cookies.Jar) :
  Cookies.well_formed jar = true ->
  Cookies.fresh_at (clock (Cookies.reads jar)) (Cookies.expiry options)
  = true ->
  fst (Cookies.get clock name (Cookies.set clock name v options jar))
  = if Cookies.fresh_at (clock (S (Cookies.reads jar)))
         (Cookies.expiry options)
    then Cookies.Text v else Cookies.Null.
Proof.
  intros Hw Hset. rewrite set_cases, Hset.
  rewrite (get_stored clock name (Cookies.record_of v options)).
  - replace (Cookies.expires (Cookies.record_of v options))
      with (Cookies.expiry options) by (destruct options; reflexivity).
    replace (Cookies.reads (Cookies.assign name (Cookies.record_of v options)
                              (Cookies.tick jar)))
      with (S (Cookies.reads jar))
      by (unfold Cookies.assign; destruct (String.eqb _ _); reflexivity).
    destruct (Cookies.fresh_at (clock (S (Cookies.reads jar))) _);
      [|reflexivity].
    destruct options; reflexivity.
  - apply lookup_assign. exact Hw.
Qed.

Lemma set_then_get_witness :
  fst (Cookies.get (Cookies.every_second 0) "toString"
         (Cookies.set (Cookies.every_second 0) "toString" "abc"
            (Some {| Cookies.o_secure := None;
                     Cookies.o_expires := Some (Some 2500);
                     Cookies.o_new := None |})
            (Cookies.set (Cookies.every_second 0) "sid" "old" None
               Cookies.create)))
  = Cookies.Text "abc".
Proof.
  refine (set_then_get (Cookies.every_second 0) "toString" "abc"
            (Some {| Cookies.o_secure := None;
                     Cookies.o_expires := Some (Some 2500);
                     Cookies.o_new := None |})
            (Cookies.set (Cookies.every_second 0) "sid" "old" None
               Cookies.create) _ _);
    reflexivity.
Defined.

(** Setting one cookie leaves every other name as it was: whether [set]
    stores the cookie or, its date having passed, deletes the one of
    that name, [this.cookies[other]] is the same before and after for
    every other name.  The name [__proto__] is excluded: setting it
    replaces the prototype of [this.cookies]. *)
Theorem set_keeps_others (clock : nat -> Z) (name v : string)
        (options : option Cookies.Options) (jar : Cookies.Jar)
        (other : string) :
  String.eqb name "__proto__" = false ->
  String.eqb name other = false ->
  Cookies.lookup (Cookies.set clock name v options jar) other
  = Cookies.lookup jar other.
Proof.
  intros Hproto Hne. rewrite set_cases.
  destruct (Cookies.fresh_at _ _).
  - unfold Cookies.assign. rewrite Hproto. unfold Cookies.lookup.
    cbn [Cookies.cookies Cookies.prototype Cookies.tick].
    rewrite (own_put_other _ _ _ _ Hne). reflexivity.
  - unfold Cookies.delete, Cookies.lookup.
    cbn [Cookies.cookies Cookies.prototype Cookies.tick].
    rewrite (own_filter _ (fun k => negb (String.eqb k name))).
    rewrite (String.eqb_sym other name), Hne. reflexivity.
Qed.

Lemma set_keeps_others_witness :
  Cookies.lookup
    (Cookies.set (Cookies.every_second 0) "b" "2"
       (Some {| Cookies.o_secure := None;
                Cookies.o_expires := Some (Some (-1));
                Cookies.o_new := None |})
       (Cookies.set (Cookies.every_second 0) "a" "1" None Cookies.create))
    "a"
  = Cookies.lookup
      (Cookies.set (Cookies.every_second 0) "a" "1" None Cookies.create) "a".
Proof.
  refine (set_keeps_others (Cookies.every_second 0) "b" "2" _ _ "a" _ _);
    reflexivity.
Defined.

(** A name that was never set: in a jar whose prototype is still
    [Object.prototype], [get] of a name that is not an own property
    returns [null], except for [__proto__] and the names of the functions
    that every object inherits ([constructor], [toString], [valueOf],
    ...), for which it returns [undefined]. *)
Theorem get_missing (clock : nat -> Z) (name : string)
        (jar : Cookies.Jar) :
  Cookies.prototype jar = Cookies.ObjectPrototype ->
  Cookies.own (Cookies.cookies jar) name = None ->
  fst (Cookies.get clock name jar)
  = if String.eqb name "__proto__"
       || List.existsb (String.eqb name) Cookies.inherited_functions
    then Cookies.NoValue else Cookies.Null.
Proof.
  intros Hp Ho.
  assert (Hl : Cookies.lookup jar name
               = Cookies.from_Object_prototype Cookies.TheObjectPrototype
                   name)
    by (unfold Cookies.lookup; rewrite Ho, Hp; reflexivity).
  unfold Cookies.get, Cookies.checkNotExpired. rewrite Hl.
  unfold Cookies.from_Object_prototype.
  destruct (String.eqb name "__proto__") eqn:E;
    [|destruct (List.existsb _ _) eqn:F];
    cbn [orb Cookies.truthy negb Cookies.expires_of fst];
    try reflexivity;
    change (Cookies.lookup (Cookies.tick jar) name)
      with (Cookies.lookup jar name);
    rewrite Hl; unfold Cookies.from_Object_prototype; rewrite E, ?F;
    reflexivity.
Qed.

(** ** The order of [Object.keys] *)

Lemma insert_index_Forall (P : Z * string -> Prop) i k l :
  P (i, k) -> List.Forall P l -> List.Forall P (Obj.insert_index i k l).
Proof.
  intros Hik Hl. induction Hl as [|[j k'] l Hj Hl IH];
    cbn [Obj.insert_index]; [repeat constructor; exact Hik|].
  destruct (i <? j); repeat constructor; assumption.
Qed.

Lemma insert_index_ascending i k l :
  Cookies.ascending l -> Cookies.ascending (Obj.insert_index i k l).
Proof.
  induction l as [|[j k'] l IH]; cbn [Obj.insert_index Cookies.ascending].
  - intros _. split; [constructor|exact I].
  - intros [Hj Hl]. destruct (Z.ltb_spec i j) as [Hlt|Hge];
      cbn [Cookies.ascending fst].
    + split; [|split; assumption].
      constructor; [cbn [fst]; lia|].
      eapply List.Forall_impl; [|exact Hj].
      intros [x kx]. cbn [fst]. lia.
    + split; [|exact (IH Hl)].
      apply insert_index_Forall; [cbn [fst]; lia|exact Hj].
Qed.

Lemma index_keys_ascending (o : Obj.t) : Cookies.ascending (Obj.index_keys o).
Proof.
  induction o as [|[k v] o IH]; cbn [Obj.index_keys]; [exact I|].
  destruct (Obj.array_index k); [apply insert_index_ascending|]; exact IH.
Qed.

Lemma insert_index_front i k l :
  List.Forall (fun jk => i < fst jk) l ->
  Obj.insert_index i k l = (i, k) :: l.
Proof.
  destruct 1 as [|[j k'] l Hj _]; [reflexivity|].
  cbn [Obj.insert_index]. cbn [fst] in Hj.
  destruct (Z.ltb_spec i j); [reflexivity|lia].
Qed.

Lemma Forall_filter_bool {A} (P : A -> Prop) (q : A -> bool) (l : list A) :
  List.Forall P l -> List.Forall P (List.filter q l).
Proof.
  induction 1 as [|x l Hx Hl IH]; cbn [List.filter]; [constructor|].
  destruct (q x); [constructor|]; assumption.
Qed.

Lemma insert_index_filter (q : Z * string -> bool) i k l :
  Cookies.ascending l ->
  List.filter q (Obj.insert_index i k l)
  = if q (i, k) then Obj.insert_index i k (List.filter q l)
    else List.filter q l.
Proof.
  induction l as [|[j k'] l IH].
  - intros _. cbn. destruct (q (i, k)); reflexivity.
  - intros [Hj Hl]. cbn [Obj.insert_index].
    destruct (Z.ltb_spec i j) as [Hlt|Hge].
    + cbn [List.filter]. destruct (q (i, k)) eqn:Q; [|reflexivity].
      destruct (q (j, k')) eqn:Q'.
      * cbn [Obj.insert_index].
        destruct (Z.ltb_spec i j); [reflexivity|lia].
      * rewrite insert_index_front; [reflexivity|].
        apply Forall_filter_bool.
        eapply List.Forall_impl; [|exact Hj].
        intros [x kx]. cbn [fst]. lia.
    + cbn [List.filter]. rewrite (IH Hl).
      destruct (q (j, k')), (q (i, k)); cbn [Obj.insert_index];
        try reflexivity.
      destruct (Z.ltb_spec i j); [lia|reflexivity].
Qed.

Lemma index_keys_filter (p : string -> bool)
      (l : list (string * Cookies.CookieRecord)) :
  Obj.index_keys (List.map Cookies.own_property (List.filter (fun kc => p (fst kc)) l))
  = List.filter (fun ik => p (snd ik))
      (Obj.index_keys (List.map Cookies.own_property l)).
Proof.
  induction l as [|[k c] l IH]; [reflexivity|].
  cbn [List.filter List.map fst]. unfold Cookies.own_property at 2. cbn [fst].
  cbn [Obj.index_keys].
  destruct (Obj.array_index k) as [i|] eqn:A.
  - rewrite (insert_index_filter _ i k _ (index_keys_ascending _)). cbn [snd].
    destruct (p k); [|exact IH].
    cbn [List.map]. unfold Cookies.own_property at 1. cbn [fst Obj.index_keys].
    rewrite A, IH. reflexivity.
  - destruct (p k); [|exact IH].
    cbn [List.map]. unfold Cookies.own_property at 1. cbn [fst Obj.index_keys].
    rewrite A. exact IH.
Qed.

Lemma name_keys_filter (p : string -> bool)
      (l : list (string * Cookies.CookieRecord)) :
  Obj.name_keys (List.map Cookies.own_property (List.filter (fun kc => p (fst kc)) l))
  = List.filter p (Obj.name_keys (List.map Cookies.own_property l)).
Proof.
  induction l as [|[k c] l IH]; [reflexivity|].
  cbn [List.filter List.map fst]. unfold Cookies.own_property at 2. cbn [fst].
  cbn [Obj.name_keys].
  destruct (Obj.array_index k) as [i|] eqn:A.
  - destruct (p k); [|exact IH].
    cbn [List.map]. unfold Cookies.own_property at 1. cbn [fst Obj.name_keys].
    rewrite A. exact IH.
  - cbn [List.filter]. destruct (p k); [|exact IH].
    cbn [List.map]. unfold Cookies.own_property at 1. cbn [fst Obj.name_keys].
    rewrite A, IH. reflexivity.
Qed.

Lemma map_snd_filter (p : string -> bool) (l : list (Z * string)) :
  List.map snd (List.filter (fun ik => p (snd ik)) l)
  = List.filter p (List.map snd l).
Proof.
  induction l as [|[i k] l IH]; [reflexivity|].
  cbn [List.filter List.map snd].
  destruct (p k); cbn [List.map snd]; rewrite IH; reflexivity.
Qed.

(** Deleting properties does not reorder the remaining keys. *)
Lemma keys_filter (p : string -> bool)
      (l : list (string * Cookies.CookieRecord)) :
  Cookies.keys (List.filter (fun kc => p (fst kc)) l)
  = List.filter p (Cookies.keys l).
Proof.
  unfold Cookies.keys, Obj.keys.
  rewrite index_keys_filter, name_keys_filter, map_snd_filter.
  rewrite List.filter_app. reflexivity.
Qed.

Lemma insert_index_permutation i k l :
  Permutation (List.map snd (Obj.insert_index i k l)) (k :: List.map snd l).
Proof.
  induction l as [|[j k'] l IH]; cbn [Obj.insert_index List.map snd];
    [reflexivity|].
  destruct (i <? j); cbn [List.map snd]; [reflexivity|].
  rewrite IH. apply perm_swap.
Qed.

(** [Object.keys] lists every own name once. *)
Lemma keys_permutation (l : list (string * Cookies.CookieRecord)) :
  Permutation (Cookies.keys l) (List.map fst l).
Proof.
  unfold Cookies.keys, Obj.keys.
  induction l as [|[k c] l IH]; [reflexivity|].
  cbn [List.map fst]. unfold Cookies.own_property at 1 3. cbn [fst].
  cbn [Obj.index_keys Obj.name_keys].
  destruct (Obj.array_index k).
  - rewrite insert_index_permutation. cbn [List.app].
    apply perm_skip. exact IH.
  - rewrite <- Permutation_middle. apply perm_skip. exact IH.
Qed.

Lemma distinct_NoDup (l : list string) : distinct l = true -> List.NoDup l.
Proof.
  induction l as [|k l IH]; cbn [distinct]; intros Hd; [constructor|].
  apply andb_true_iff in Hd as [Hk Hd]. apply negb_true_iff in Hk.
  constructor; [|exact (IH Hd)].
  intros Hin.
  assert (List.existsb (String.eqb k) l = true)
    by (apply List.existsb_exists; exists k; split;
        [exact Hin|apply String.eqb_refl]).
  congruence.
Qed.

Lemma not_in_existsb (n : string) (l : list string) :
  ~ List.In n l -> List.existsb (String.eqb n) l = false.
Proof.
  intros Hn. destruct (List.existsb _ l) eqn:E; [|reflexivity].
  apply List.existsb_exists in E as (x & Hx & Ex).
  apply String.eqb_eq in Ex. subst x. contradiction.
Qed.

(** ** The cookies that are sent *)

Lemma without_cons n gone l :
  Cookies.without gone (List.filter (fun kc => negb (String.eqb (fst kc) n)) l)
  = Cookies.without (n :: gone) l.
Proof.
  unfold Cookies.without, Cookies.absent. induction l as [|[k c] l IH]; [reflexivity|].
  cbn [List.filter fst List.existsb].
  destruct (String.eqb k n); cbn [negb orb List.filter fst]; [exact IH|].
  destruct (negb _); rewrite IH; reflexivity.
Qed.

Lemma without_nil l : Cookies.without [] l = l.
Proof.
  unfold Cookies.without, Cookies.absent. induction l as [|kc l IH]; [reflexivity|].
  cbn [List.filter List.existsb negb]. f_equal. exact IH.
Qed.

Lemma own_some_in (l : list (string * Cookies.CookieRecord)) n :
  List.In n (List.map fst l) -> exists c, Cookies.own l n = Some c.
Proof.
  intros Hin. pose proof (own_names l n) as E.
  destruct (Cookies.own l n) as [c|]; [exists c; reflexivity|].
  assert (List.existsb (String.eqb n) (List.map fst l) = true)
    by (apply List.existsb_exists; exists n; split;
        [exact Hin|apply String.eqb_refl]).
  congruence.
Qed.

Lemma own_in_names (l : list (string * Cookies.CookieRecord)) n c :
  Cookies.own l n = Some c -> List.In n (List.map fst l).
Proof.
  intros Ho. pose proof (own_names l n) as E. rewrite Ho in E.
  apply List.existsb_exists in E as (x & Hx & Ex).
  apply String.eqb_eq in Ex. subst x. exact Hx.
Qed.

Lemma eqb_not_in (n m : string) (ns : list string) :
  ~ List.In n ns -> List.In m ns -> String.eqb m n = false.
Proof.
  intros Hn Hm. apply String.eqb_neq. intros ->. contradiction.
Qed.

Section Sent.
Variable clock : nat -> Z.

(** The filter of [toString] on names that are in the jar: [gone] are the
    names deleted on the way. *)
Lemma unexpired_spec (ns : list string) : forall jar,
  List.NoDup ns ->
  (forall n, List.In n ns -> List.In n (Cookies.names jar)) ->
  exists gone,
    Cookies.unexpired clock ns jar
    = (List.filter (Cookies.absent gone) ns,
       {| Cookies.cookies := Cookies.without gone (Cookies.cookies jar);
          Cookies.prototype := Cookies.prototype jar;
          Cookies.reads := (Cookies.reads jar + List.length ns)%nat |})
    /\ (forall n, List.In n gone -> List.In n ns)
    /\ (forall i n c,
          List.nth_error ns i = Some n ->
          Cookies.own (Cookies.cookies jar) n = Some c ->
          Cookies.absent gone n
          = Cookies.fresh_at (clock (Cookies.reads jar + i)%nat)
              (Cookies.expires c)).
Proof.
  induction ns as [|n ns IH]; intros jar Hnd Hin.
  - exists []. split; [|split].
    + cbn [Cookies.unexpired List.filter List.length].
      rewrite without_nil, Nat.add_0_r. destruct jar; reflexivity.
    + intros n [].
    + intros [|i] n c; discriminate.
  - inversion Hnd as [|? ? Hn Hnd']; subst.
    destruct (own_some_in (Cookies.cookies jar) n) as [c Hc];
      [apply Hin; left; reflexivity|].
    assert (Hl : Cookies.lookup jar n = Cookies.ARecord c)
      by (unfold Cookies.lookup; rewrite Hc; reflexivity).
    cbn [Cookies.unexpired]. rewrite (check_stored clock n c jar Hl).
    destruct (Cookies.fresh_at (clock (Cookies.reads jar)) (Cookies.expires c))
      eqn:Hfresh.
    + destruct (IH (Cookies.tick jar) Hnd') as (gone & Hun & Hsub & Htime).
      { intros m Hm. apply Hin. right. exact Hm. }
      exists gone. rewrite Hun.
      assert (Hng : Cookies.absent gone n = true).
      { unfold Cookies.absent. rewrite not_in_existsb; [reflexivity|].
        intros Hg. apply Hn, Hsub, Hg. }
      split; [|split].
      * cbn [List.filter]. rewrite Hng.
        cbn [Cookies.tick Cookies.cookies Cookies.prototype Cookies.reads
             List.length].
        rewrite Nat.add_succ_r. reflexivity.
      * intros m Hm. right. exact (Hsub m Hm).
      * intros [|i] m c' Hi Hm.
        -- cbn [List.nth_error] in Hi. injection Hi as <-.
           rewrite Hc in Hm. injection Hm as <-.
           rewrite Nat.add_0_r, Hng, Hfresh. reflexivity.
        -- cbn [List.nth_error] in Hi.
           rewrite (Htime i m c' Hi Hm).
           cbn [Cookies.tick Cookies.reads]. rewrite Nat.add_succ_r.
           reflexivity.
    + assert (Hother : forall m, List.In m ns ->
                Cookies.own (Cookies.cookies
                               (Cookies.delete n (Cookies.tick jar))) m
                = Cookies.own (Cookies.cookies jar) m).
      { intros m Hm. cbn [Cookies.delete Cookies.tick Cookies.cookies].
        rewrite (own_filter _ (fun k => negb (String.eqb k n))).
        rewrite (eqb_not_in n m ns Hn Hm). reflexivity. }
      destruct (IH (Cookies.delete n (Cookies.tick jar)) Hnd')
        as (gone & Hun & Hsub & Htime).
      { intros m Hm.
        destruct (own_some_in (Cookies.cookies jar) m) as [c' Hc'];
          [apply Hin; right; exact Hm|].
        apply (own_in_names _ m c'). rewrite (Hother m Hm). exact Hc'. }
      exists (n :: gone). rewrite Hun.
      assert (Hg : forall m, List.In m ns ->
                Cookies.absent (n :: gone) m = Cookies.absent gone m).
      { intros m Hm. unfold Cookies.absent. cbn [List.existsb].
        rewrite (eqb_not_in n m ns Hn Hm). reflexivity. }
      split; [|split].
      * cbn [List.filter]. unfold Cookies.absent at 2. cbn [List.existsb].
        rewrite String.eqb_refl. cbn [orb negb].
        rewrite (List.filter_ext_in _ _ ns Hg).
        cbn [Cookies.delete Cookies.tick Cookies.cookies Cookies.prototype
             Cookies.reads List.length].
        rewrite without_cons, Nat.add_succ_r. reflexivity.
      * intros m [<-|Hm]; [left; reflexivity|right; exact (Hsub m Hm)].
      * intros [|i] m c' Hi Hm.
        -- cbn [List.nth_error] in Hi. injection Hi as <-.
           rewrite Hc in Hm. injection Hm as <-.
           rewrite Nat.add_0_r, Hfresh. unfold Cookies.absent. cbn [List.existsb].
           rewrite String.eqb_refl. reflexivity.
        -- cbn [List.nth_error] in Hi.
           assert (Hmi : List.In m ns) by (eapply List.nth_error_In; eauto).
           rewrite (Hg m Hmi).
           rewrite (Htime i m c' Hi); [|rewrite (Hother m Hmi); exact Hm].
           cbn [Cookies.delete Cookies.tick Cookies.reads].
           rewrite Nat.add_succ_r. reflexivity.
Qed.

Lemma pair_texts_own jar (ns : list string) :
  (forall n, List.In n ns -> List.In n (Cookies.names jar)) ->
  Cookies.pair_texts jar ns
  = Some (List.flat_map
            (fun n => match Cookies.own (Cookies.cookies jar) n with
                      | Some c => [n +:+ "=" +:+ Cookies.value c]
                      | None => []
                      end) ns).
Proof.
  induction ns as [|n ns IH]; intros Hin; [reflexivity|].
  cbn [Cookies.pair_texts List.flat_map].
  destruct (own_some_in (Cookies.cookies jar) n) as [c Hc];
    [apply Hin; left; reflexivity|].
  unfold Cookies.lookup. rewrite Hc. cbn [Cookies.value_of].
  rewrite IH; [reflexivity|].
  intros m Hm. apply Hin. right. exact Hm.
Qed.

Lemma keys_names jar n :
  List.In n (Cookies.keys (Cookies.cookies jar)) <->
  List.In n (Cookies.names jar).
Proof.
  split; apply Permutation_in;
    [|symmetry]; apply keys_permutation.
Qed.

(** What [toString] returns and what it leaves in the jar. *)
Lemma toString_spec jar :
  Cookies.well_formed jar = true ->
  exists gone,
    Cookies.toString clock jar
    = (Some (Cookies.header_text
               {| Cookies.cookies := Cookies.without gone (Cookies.cookies jar);
                  Cookies.prototype := Cookies.prototype jar;
                  Cookies.reads :=
                    (Cookies.reads jar
                     + List.length (Cookies.keys (Cookies.cookies jar)))%nat
               |}),
       {| Cookies.cookies := Cookies.without gone (Cookies.cookies jar);
          Cookies.prototype := Cookies.prototype jar;
          Cookies.reads :=
            (Cookies.reads jar
             + List.length (Cookies.keys (Cookies.cookies jar)))%nat |})
    /\ (forall i n c,
          List.nth_error (Cookies.keys (Cookies.cookies jar)) i = Some n ->
          Cookies.own (Cookies.cookies jar) n = Some c ->
          Cookies.absent gone n
          = Cookies.fresh_at (clock (Cookies.reads jar + i)%nat)
              (Cookies.expires c)).
Proof.
  intros Hw.
  assert (Hd : List.NoDup (Cookies.keys (Cookies.cookies jar))).
  { apply (Permutation_NoDup
             (Permutation_sym (keys_permutation (Cookies.cookies jar)))).
    apply distinct_NoDup. unfold Cookies.well_formed in Hw.
    apply andb_true_iff in Hw as [Hw _]. exact Hw. }
  destruct (unexpired_spec (Cookies.keys (Cookies.cookies jar)) jar Hd)
    as (gone & Hun & _ & Htime).
  { intros n. apply keys_names. }
  exists gone. split; [|exact Htime].
  unfold Cookies.toString. rewrite Hun. f_equal.
  unfold Cookies.header_text. cbn [Cookies.cookies].
  unfold Cookies.without at 3. rewrite (keys_filter (Cookies.absent gone)).
  rewrite pair_texts_own.
  - cbn [Cookies.cookies option_map].
    destruct (List.filter _ _); reflexivity.
  - intros n Hn. apply keys_names. cbn [Cookies.cookies].
    unfold Cookies.without. rewrite (keys_filter (Cookies.absent gone)). exact Hn.
Qed.

End Sent.

Lemma get_missing_witness :
  fst (Cookies.get (Cookies.every_second 0) "constructor" Cookies.create)
  = Cookies.NoValue.
Proof.
  refine (get_missing (Cookies.every_second 0) "constructor"
            Cookies.create _ _);
    reflexivity.
Defined.

(** [toString] sends the cookies it leaves in the jar and never throws:
    on a jar with distinct own names, the text returned is [name=value]
    for every cookie left, in the order of [Object.keys], joined by
    semicolons (the empty text when none is left); the cookies left are
    those of the jar before, in their order, but for the expired ones;
    and each cookie of the jar was checked against one of the clock
    readings taken during the call, staying exactly if its date of
    expiry is absent, invalid or not before that reading. *)
Theorem toString_lists_jar (clock : nat -> Z) (jar : Cookies.Jar) :
  Cookies.well_formed jar = true ->
  let jar1 := snd (Cookies.toString clock jar) in
  fst (Cookies.toString clock jar) = Some (Cookies.header_text jar1)
  /\ Cookies.cookies jar1
     = List.filter
         (fun kc => match Cookies.own (Cookies.cookies jar1) (fst kc) with
                    | Some _ => true
                    | None => false
                    end) (Cookies.cookies jar)
  /\ forall n c,
       Cookies.own (Cookies.cookies jar) n = Some c ->
       exists i,
         (i < List.length (Cookies.cookies jar))%nat
         /\ Cookies.own (Cookies.cookies jar1) n
            = if Cookies.fresh_at (clock (Cookies.reads jar + i)%nat)
                   (Cookies.expires c)
              then Some c else None.
Proof.
  intros Hw. destruct (toString_spec clock jar Hw) as (gone & -> & Htime).
  cbn [fst snd Cookies.cookies]. split; [reflexivity|]. split.
  - unfold Cookies.without at 1. apply List.filter_ext_in. intros [k c] Hk.
    cbn [fst]. unfold Cookies.without.
    rewrite (own_filter _ (Cookies.absent gone)).
    destruct (Cookies.absent gone k); [|reflexivity].
    destruct (own_some_in (Cookies.cookies jar) k) as [c' ->];
      [|reflexivity].
    apply List.in_map_iff. exists (k, c). split; [reflexivity|exact Hk].
  - intros n c Hc.
    assert (Hn : List.In n (Cookies.keys (Cookies.cookies jar)))
      by (apply keys_names; exact (own_in_names _ n c Hc)).
    apply List.In_nth_error in Hn as [i Hi].
    exists i. split.
    + rewrite <- (List.length_map fst (Cookies.cookies jar)).
      rewrite <- (Permutation_length (keys_permutation (Cookies.cookies jar))).
      apply List.nth_error_Some. rewrite Hi. discriminate.
    + unfold Cookies.without. rewrite (own_filter _ (Cookies.absent gone)).
      rewrite (Htime i n c Hi Hc), Hc. reflexivity.
Qed.

Lemma toString_lists_jar_witness :
  fst (Cookies.toString (Cookies.every_second 0)
         (Cookies.set (Cookies.every_second 0) "b" "2"
            (Some {| Cookies.o_secure := None;
                     Cookies.o_expires := Some (Some 2500);
                     Cookies.o_new := None |})
            (Cookies.set (Cookies.every_second 0) "a" "1" None
               Cookies.create)))
  = Some "a=1".
Proof.
  refine (proj1 (toString_lists_jar (Cookies.every_second 0)
                   (Cookies.set (Cookies.every_second 0) "b" "2"
                      (Some {| Cookies.o_secure := None;
                               Cookies.o_expires := Some (Some 2500);
                               Cookies.o_new := None |})
                      (Cookies.set (Cookies.every_second 0) "a" "1" None
                         Cookies.create)) _)).
  reflexivity.
Defined.

(** ** Cookie strings *)

Lemma split_free (sep : ascii) (s : string) :
  Cookies.free_of sep s = true -> Cookies.split sep s = [s].
Proof.
  unfold Cookies.free_of.
  induction s as [|a s IH]; cbn [Str.all Cookies.split]; [reflexivity|].
  intros Hs. apply andb_true_iff in Hs as [Ha Hs].
  apply negb_true_iff in Ha. rewrite Ha, (IH Hs). reflexivity.
Qed.

Lemma split_append (sep : ascii) (a b : string) :
  Cookies.free_of sep a = true ->
  Cookies.split sep (a +:+ String sep b) = a :: Cookies.split sep b.
Proof.
  unfold Cookies.free_of.
  induction a as [|x a IH]; cbn [Str.all]; intros Ha.
  - change ("" +:+ String sep b) with (String sep b).
    cbn [Cookies.split]. unfold Chr.eqb. rewrite Ascii.eqb_refl.
    reflexivity.
  - apply andb_true_iff in Ha as [Hx Ha]. apply negb_true_iff in Hx.
    change (String x a +:+ String sep b) with (String x (a +:+ String sep b)).
    cbn [Cookies.split]. rewrite Hx, (IH Ha). reflexivity.
Qed.

(** Splitting what was joined. *)
Lemma split_join (sep : ascii) (x : string) (l : list string) :
  List.forallb (Cookies.free_of sep) (x :: l) = true ->
  Cookies.split sep (Str.join (String sep "") (x :: l)) = x :: l.
Proof.
  revert x. induction l as [|y l IH]; intros x Hl;
    cbn [List.forallb] in Hl; apply andb_true_iff in Hl as [Hx Hl].
  - cbn [Str.join]. apply split_free. exact Hx.
  - change (Str.join (String sep "") (x :: y :: l))
      with (x +:+ String sep (Str.join (String sep "") (y :: l))).
    rewrite (split_append sep x _ Hx), (IH y Hl). reflexivity.
Qed.

Lemma cut_append (c : ascii) (a b : string) :
  Cookies.free_of c a = true ->
  Cookies.cut c (a +:+ String c b) = Some (a, b).
Proof.
  unfold Cookies.free_of.
  induction a as [|x a IH]; cbn [Str.all]; intros Ha.
  - change ("" +:+ String c b) with (String c b).
    cbn [Cookies.cut]. unfold Chr.eqb. rewrite Ascii.eqb_refl. reflexivity.
  - apply andb_true_iff in Ha as [Hx Ha]. apply negb_true_iff in Hx.
    change (String x a +:+ String c b) with (String x (a +:+ String c b)).
    cbn [Cookies.cut]. rewrite Hx, (IH Ha). reflexivity.
Qed.

Lemma free_of_append (c : ascii) (a b : string) :
  Cookies.free_of c (a +:+ b)
  = Cookies.free_of c a && Cookies.free_of c b.
Proof.
  unfold Cookies.free_of. induction a as [|x a IH]; [reflexivity|].
  change (String x a +:+ b) with (String x (a +:+ b)).
  cbn [Str.all]. rewrite IH, andb_assoc. reflexivity.
Qed.

Lemma pair_not_empty (a b : string) :
  Str.is_empty (a +:+ String "=" b) = false.
Proof. destruct a; reflexivity. Qed.

Lemma join_not_empty (sep x : string) (l : list string) :
  Str.is_empty x = false -> Str.is_empty (Str.join sep (x :: l)) = false.
Proof.
  destruct x as [|a x]; [discriminate|]. intros _.
  destruct l; reflexivity.
Qed.

Section Received.
Context `{Host}.
Variable clock : nat -> Z.

(** A cookie string [name=value] followed by attributes is handed to
    [set] with the trimmed name and value and the date of the last
    [expires] attribute that is a date. *)
Lemma parseOne_pair (name value : string) (attrs : list string) jar :
  Cookies.free_of ";" name = true -> Cookies.free_of "=" name = true ->
  Cookies.free_of ";" value = true ->
  List.forallb (Cookies.free_of ";") attrs = true ->
  Cookies.parseOne clock
    (Str.join ";" ((name +:+ "=" +:+ value) :: attrs)) jar
  = Cookies.set clock (Cookies.trim name) (Cookies.trim value)
      (Some (Cookies.attributes attrs)) jar.
Proof.
  intros Hn1 Hn2 Hv Ha. unfold Cookies.parseOne.
  change (name +:+ "=" +:+ value) with (name +:+ String "=" value).
  rewrite (join_not_empty ";" _ attrs (pair_not_empty name value)).
  rewrite (split_join ";").
  - rewrite pair_not_empty, (cut_append "=" name value Hn2). reflexivity.
  - cbn [List.forallb]. rewrite Ha, free_of_append, Hn1.
    unfold Cookies.free_of at 1. cbn [Str.all].
    fold (Cookies.free_of ";" value). rewrite Hv. reflexivity.
Qed.

Lemma parseResponse_pair (name value : string) (attrs : list string) jar :
  Cookies.free_of ";" name = true -> Cookies.free_of "=" name = true ->
  Cookies.free_of ";" value = true ->
  List.forallb (Cookies.free_of ";") attrs = true ->
  Cookies.parseResponse clock
    (Cookies.Single (Str.join ";" ((name +:+ "=" +:+ value) :: attrs))) jar
  = Cookies.set clock (Cookies.trim name) (Cookies.trim value)
      (Some (Cookies.attributes attrs)) jar.
Proof.
  intros Hn1 Hn2 Hv Ha. cbn [Cookies.parseResponse].
  rewrite (parseOne_pair name value attrs jar Hn1 Hn2 Hv Ha).
  change (name +:+ "=" +:+ value) with (name +:+ String "=" value).
  rewrite (join_not_empty ";" _ attrs (pair_not_empty name value)).
  reflexivity.
Qed.

End Received.

Lemma keys_one (n : string) (c : Cookies.CookieRecord) :
  Cookies.keys [(n, c)] = [n].
Proof.
  unfold Cookies.keys, Obj.keys, Cookies.own_property.
  cbn [List.map fst Obj.index_keys Obj.name_keys].
  destruct (Obj.array_index n); reflexivity.
Qed.



(** A cookie received by a new jar is sent back: after [parseResponse]
    on the cookie string [name=value; attributes], [composeRequest] sets
    the header [Cookie] to the trimmed name, [=] and the trimmed value,
    provided the name is not [__proto__] and the date of expiry, if any,
    has not passed at the two readings of the clock. *)
Theorem cookie_sent_back `{Host} (clock : nat -> Z) (name value : string)
        (attrs : list string) :
  Cookies.free_of ";" name = true -> Cookies.free_of "=" name = true ->
  Cookies.free_of ";" value = true ->
  List.forallb (Cookies.free_of ";") attrs = true ->
  String.eqb (Cookies.trim name) "__proto__" = false ->
  Cookies.fresh_at (clock 0%nat) (Cookies.o_expires (Cookies.attributes attrs))
  = true ->
  Cookies.fresh_at (clock 1%nat) (Cookies.o_expires (Cookies.attributes attrs))
  = true ->
  fst (Cookies.composeRequest clock
         (Cookies.parseResponse clock
            (Cookies.Single
               (Str.join ";" ((name +:+ "=" +:+ value) :: attrs)))
            Cookies.create))
  = Cookies.Cookie (Cookies.trim name +:+ "=" +:+ Cookies.trim value).
Proof.
  intros Hn1 Hn2 Hv Ha Hp H0 H1.
  rewrite (parseResponse_pair clock name value attrs _ Hn1 Hn2 Hv Ha).
  rewrite set_cases. cbn [Cookies.expiry Cookies.create Cookies.reads].
  rewrite H0. unfold Cookies.assign. rewrite Hp.
  set (c := Cookies.record_of (Cookies.trim value)
              (Some (Cookies.attributes attrs))).
  set (n := Cookies.trim name) in *.
  set (jar := {| Cookies.cookies := [(n, c)];
                 Cookies.prototype := Cookies.ObjectPrototype;
                 Cookies.reads := 1 |}).
  assert (Hw : Cookies.well_formed jar = true).
  { unfold Cookies.well_formed, Cookies.names, jar.
    cbn [Cookies.cookies List.map fst distinct List.existsb].
    rewrite String.eqb_sym, Hp. reflexivity. }
  assert (Hown : Cookies.own (Cookies.cookies jar) n = Some c)
    by (cbn [jar Cookies.cookies Cookies.own]; rewrite String.eqb_refl;
        reflexivity).
  change (Cookies.composeRequest clock _)
    with (Cookies.composeRequest clock jar).
  destruct (toString_spec clock jar Hw) as (gone & Hs & Htime).
  unfold Cookies.composeRequest. rewrite Hs. cbn [fst].
  assert (Hkept : Cookies.absent gone n = true).
  { rewrite (Htime 0%nat n c); [|cbn [jar Cookies.cookies];
                                  rewrite keys_one; reflexivity|exact Hown].
    cbn [jar Cookies.reads Nat.add]. exact H1. }
  unfold Cookies.header_text. cbn [Cookies.cookies jar].
  unfold Cookies.without. cbn [List.filter fst]. rewrite Hkept, keys_one.
  cbn [List.flat_map Cookies.own]. rewrite String.eqb_refl.
  cbn [List.app Str.join]. subst c. cbn [Cookies.record_of Cookies.value].
  change (n +:+ "=" +:+ Cookies.trim value)
    with (n +:+ String "=" (Cookies.trim value)).
  rewrite pair_not_empty. reflexivity.
Qed.

Lemma cookie_sent_back_witness :
  fst (Cookies.composeRequest (Cookies.every_second 978307200000)
         (Cookies.parseResponse (H := UTC.host)
            (Cookies.every_second 978307200000)
            (Cookies.Single
               "sid = a=b ; Path=/; Expires=2001-01-01T00:01:00.000Z")
            Cookies.create))
  = Cookies.Cookie "sid=a=b".
Proof.
  refine (cookie_sent_back (H := UTC.host)
            (Cookies.every_second 978307200000) "sid " " a=b "
            [" Path=/"; " Expires=2001-01-01T00:01:00.000Z"] _ _ _ _ _ _ _);
    vm_compute; reflexivity.
Defined.

(** ** The shape of every jar *)

Section Calls.
Context `{Host}.
Variable clock : nat -> Z.

Lemma well_formed_after (op : Cookies.Operation) jar :
  Cookies.well_formed jar = true ->
  Cookies.well_formed (Cookies.after clock op jar) = true.
Proof.
  intros Hw. destruct op; cbn [Cookies.after].
  - apply well_formed_set. exact Hw.
  - apply well_formed_get. exact Hw.
  - exact Hw.
  - apply well_formed_toString. exact Hw.
  - unfold Cookies.composeRequest.
    pose proof (well_formed_toString clock jar Hw) as Ht.
    destruct (Cookies.toString clock jar) as [text jar1]. exact Ht.
  - apply well_formed_parseResponse. exact Hw.
Qed.

End Calls.

(** Whatever calls are made on a new jar, the names of its own cookies
    stay distinct and none of them is [__proto__]: a cookie of that name
    is never an own property of [this.cookies], so that [toString] never
    lists it. *)
Theorem jar_always_well_formed `{Host} (clock : nat -> Z)
        (ops : list Cookies.Operation) :
  Cookies.well_formed (Cookies.run clock ops Cookies.create) = true.
Proof.
  assert (Hnew : Cookies.well_formed Cookies.create = true) by reflexivity.
  revert Hnew. generalize Cookies.create as jar. unfold Cookies.run.
  induction ops as [|op ops IH]; intros jar Hw; cbn [List.fold_left].
  - exact Hw.
  - apply IH. apply well_formed_after. exact Hw.
Qed.
